(** * Stockify image proxy: a shallow embedding of [src/worker.js]

    The worker resolves a product identifier (subcode, EAN or name) to an
    image URL by asking a search engine for candidate pages and checking
    each page.  This development embeds the whole of [worker.js]:

    - JavaScript strings are lists of UTF-16 code units ([jsstring]);
    - the regular expressions of the source are written as syntax trees
      ([re]) and run by a backtracking matcher that follows the
      continuation semantics of the ECMAScript specification;
    - [async] code is sequential: it is written in a state-and-exception
      monad whose state is the log of network requests made so far;
    - what the JavaScript platform supplies (Unicode tables, the URL
      parser, URI encoding) is an interface, [Platform];
    - JavaScript numbers are modelled as real numbers. *)

From Stdlib Require Import String Ascii.
From Stdlib Require Import List NArith Bool Arith Lia Reals Lra.
Import ListNotations.

Set Implicit Arguments.

(** ** Strings *)

Definition jsstring := list N.

Definition str (s : string) : jsstring :=
  map N_of_ascii (list_ascii_of_string s).

Definition jsstring_eq_dec : forall a b : jsstring, {a = b} + {a <> b} :=
  list_eq_dec N.eq_dec.

Fixpoint jseqb (a b : jsstring) : bool :=
  match a, b with
  | [], [] => true
  | x :: a', y :: b' => N.eqb x y && jseqb a' b'
  | _, _ => false
  end.

(** [s.startsWith(p)] *)
Fixpoint startsWith (p s : jsstring) : bool :=
  match p, s with
  | [], _ => true
  | x :: p', y :: s' => N.eqb x y && startsWith p' s'
  | _ :: _, [] => false
  end.

(** [s.includes(sub)] *)
Fixpoint includes (sub s : jsstring) : bool :=
  startsWith sub s ||
  match s with
  | [] => false
  | _ :: s' => includes sub s'
  end.

(** Truthiness of a string: the empty string is falsy. *)
Definition truthy (s : jsstring) : bool :=
  match s with [] => false | _ => true end.

(** ** Character classes *)

Definition in_range (lo hi c : N) : bool := (N.leb lo c && N.leb c hi)%bool.

Definition is_digit (c : N) : bool := in_range 48 57 c.
Definition is_ascii_upper (c : N) : bool := in_range 65 90 c.
Definition is_ascii_lower (c : N) : bool := in_range 97 122 c.
Definition is_ascii_letter (c : N) : bool := is_ascii_upper c || is_ascii_lower c.

(** [\w] without the unicode flag: [A-Za-z0-9_]. *)
Definition is_word (c : N) : bool :=
  is_ascii_letter c || is_digit c || N.eqb c 95.

(** [\s], and the characters [trim] strips: WhiteSpace and LineTerminator. *)
Definition is_space (c : N) : bool :=
  in_range 9 13 c || N.eqb c 32 || N.eqb c 160 || N.eqb c 5760 ||
  in_range 8192 8202 c || N.eqb c 8232 || N.eqb c 8233 || N.eqb c 8239 ||
  N.eqb c 8287 || N.eqb c 12288 || N.eqb c 65279.

Definition ascii_upper (c : N) : N :=
  if is_ascii_lower c then (c - 32)%N else c.
Definition ascii_lower (c : N) : N :=
  if is_ascii_upper c then (c + 32)%N else c.

Definition is_high_surrogate (c : N) : bool := in_range 55296 56319 c.
Definition is_low_surrogate (c : N) : bool := in_range 56320 57343 c.

(** The code point of a surrogate pair. *)
Definition code_point (hi lo : N) : N :=
  (65536 + (hi - 55296) * 1024 + (lo - 56320))%N.

(** ** What the platform supplies *)

Record URL := {
  hostname : jsstring;
  pathname : jsstring;
  origin : jsstring;
  searchParams_get : jsstring -> option jsstring
}.

Class Platform := {
  (** [\p{L}] and [\p{N}] on code points beyond ASCII *)
  uni_letter : N -> bool;
  uni_number : N -> bool;
  (** the upper-case mapping of a code unit beyond ASCII, itself when
      the mapping is not one code unit *)
  uni_upper : N -> N;
  toLowerCase : jsstring -> jsstring;
  encodeURIComponent : jsstring -> jsstring;
  (** [None]: URIError *)
  decodeURIComponent : jsstring -> option jsstring;
  (** [new URL(s)]; [None]: TypeError *)
  parseURL : jsstring -> option URL
}.

(** ** Regular expressions *)

Inductive cls :=
| CChar (c : N)
| CDigit             (* \d *)
| CSpace             (* \s *)
| CLetter            (* \p{L} *)
| CNumber.           (* \p{N} *)

Inductive re :=
| Eps
| Lit (c : N)
| Class (neg : bool) (items : list cls)
| Seq (r1 r2 : re)
| Alt (r1 r2 : re)
| Rep (mn : nat) (mx : option nat) (r : re)   (* greedy r{mn,mx} *)
| Grp (i : nat) (r : re)                      (* capturing group number i *)
| WordB                                       (* \b *)
| Bol                                         (* ^ *)
| Eol.                                        (* $ *)

Record flags := { ignoreCase : bool; unicode : bool }.

Record mstate := {
  prev : option N;                  (* the code unit before the position *)
  rest : jsstring;                  (* the input from the position on *)
  caps : list (nat * jsstring)      (* captures, latest first *)
}.

Fixpoint lits (s : jsstring) : re :=
  match s with
  | [] => Eps
  | c :: s' => Seq (Lit c) (lits s')
  end.

Fixpoint seqs (rs : list re) : re :=
  match rs with
  | [] => Eps
  | r :: rs' => Seq r (seqs rs')
  end.

Fixpoint alts (r : re) (rs : list re) : re :=
  match rs with
  | [] => r
  | r' :: rs' => Alt r (alts r' rs')
  end.

Fixpoint groups_of (r : re) : list nat :=
  match r with
  | Seq r1 r2 | Alt r1 r2 => groups_of r1 ++ groups_of r2
  | Rep _ _ r1 => groups_of r1
  | Grp i r1 => i :: groups_of r1
  | _ => []
  end.

Definition cap_get (i : nat) (c : list (nat * jsstring)) : option jsstring :=
  option_map snd (find (fun p => Nat.eqb (fst p) i) c).

Definition set_cap (i : nat) (v : jsstring) (s : mstate) : mstate :=
  {| prev := prev s; rest := rest s; caps := (i, v) :: caps s |}.

Definition clear_caps (gs : list nat) (s : mstate) : mstate :=
  {| prev := prev s; rest := rest s;
     caps := filter (fun p => negb (existsb (Nat.eqb (fst p)) gs)) (caps s) |}.

Definition is_word_opt (c : option N) : bool :=
  match c with Some x => is_word x | None => false end.

Definition consumed (before after : mstate) : nat :=
  length (rest before) - length (rest after).

Section Matcher.
Context {P : Platform}.

Definition is_L (c : N) : bool :=
  if N.ltb c 128 then is_ascii_letter c else uni_letter c.
Definition is_N (c : N) : bool :=
  if N.ltb c 128 then is_digit c else uni_number c.

(** Canonicalize of the specification, without the unicode flag: the
    upper-case mapping, never from beyond ASCII into ASCII. *)
Definition canon (c : N) : N :=
  if N.ltb c 128 then ascii_upper c
  else let u := uni_upper c in if N.ltb u 128 then c else u.

Variable fl : flags.

Definition chr_eq (a c : N) : bool :=
  if ignoreCase fl then N.eqb (canon a) (canon c) else N.eqb a c.

(** Membership of a character in a class atom.  The class escapes hold
    no cased character, so only [CChar] looks at [ignoreCase]. *)
Definition item_has (c : N) (it : cls) : bool :=
  match it with
  | CChar a => chr_eq a c
  | CDigit => is_digit c
  | CSpace => is_space c
  | CLetter => is_L c
  | CNumber => is_N c
  end.

(** The character at the position: a code unit, or with the unicode
    flag a code point (a surrogate pair read as one). *)
Definition next_char (s : mstate) : option (N * mstate) :=
  match rest s with
  | [] => None
  | c :: t =>
      match t with
      | d :: t' =>
          if unicode fl && is_high_surrogate c && is_low_surrogate d
          then Some ((65536 + (c - 55296) * 1024 + (d - 56320))%N,
                     {| prev := Some d; rest := t'; caps := caps s |})
          else Some (c, {| prev := Some c; rest := t; caps := caps s |})
      | [] => Some (c, {| prev := Some c; rest := t; caps := caps s |})
      end
  end.

(** RepeatMatcher: greedy; an iteration that is not required and
    consumes nothing fails.  [fuel] bounds the iterations: at most [mn]
    required ones and then one per remaining code unit, so that it
    never runs out (lemma [rmatch_rep_fuel]). *)
Fixpoint rep_loop (body : mstate -> (mstate -> option mstate) -> option mstate)
    (gs : list nat) (k : mstate -> option mstate)
    (fuel mn : nat) (mx : option nat) (s : mstate) : option mstate :=
  match fuel with
  | O => None
  | S fuel' =>
      match mx with
      | Some O => k s
      | _ =>
          let more :=
            body (clear_caps gs s)
              (fun s' =>
                 if Nat.eqb mn 0 && Nat.eqb (length (rest s')) (length (rest s))
                 then None
                 else rep_loop body gs k fuel' (Nat.pred mn)
                        (option_map Nat.pred mx) s') in
          if Nat.eqb mn 0
          then match more with Some x => Some x | None => k s end
          else more
      end
  end.

Fixpoint rmatch (r : re) (s : mstate) (k : mstate -> option mstate)
  : option mstate :=
  match r with
  | Eps => k s
  | Lit c =>
      match rest s with
      | ch :: t =>
          if chr_eq c ch
          then k {| prev := Some ch; rest := t; caps := caps s |}
          else None
      | [] => None
      end
  | Class neg items =>
      match next_char s with
      | Some (c, s') =>
          if xorb neg (existsb (item_has c) items) then k s' else None
      | None => None
      end
  | Seq r1 r2 => rmatch r1 s (fun s1 => rmatch r2 s1 k)
  | Alt r1 r2 =>
      match rmatch r1 s k with
      | Some x => Some x
      | None => rmatch r2 s k
      end
  | Rep mn mx r1 =>
      rep_loop (rmatch r1) (groups_of r1) k
        (S (mn + length (rest s))) mn mx s
  | Grp i r1 =>
      rmatch r1 s
        (fun s1 => k (set_cap i (firstn (consumed s s1) (rest s)) s1))
  | WordB =>
      if xorb (is_word_opt (prev s)) (is_word_opt (hd_error (rest s)))
      then k s else None
  | Bol => match prev s with None => k s | Some _ => None end
  | Eol => match rest s with [] => k s | _ :: _ => None end
  end.

(** One attempt at a position. *)
Definition match_at (r : re) (p : option N) (s : jsstring) : option mstate :=
  rmatch r {| prev := p; rest := s; caps := [] |} Some.

(** After a failed attempt (or an empty match) the position advances
    by one code unit, with the unicode flag by one code point: the
    number of further code units to pass over. *)
Definition extra_units (c : N) (t : jsstring) : nat :=
  match t with
  | d :: _ =>
      if unicode fl && is_high_surrogate c && is_low_surrogate d
      then 1 else 0
  | [] => 0
  end.

(** The leftmost match at or after the position ([RegExp.prototype.exec]
    from index 0): the text before the match, the matched text and the
    state at the end of the match.  [pending] code units are passed
    over without an attempt. *)
Fixpoint search (r : re) (p : option N) (s : jsstring) (pending : nat)
  : option (jsstring * mstate) :=
  match pending with
  | S n =>
      match s with
      | [] => None
      | c :: t => search r (Some c) t n
      end
  | O =>
      match match_at r p s with
      | Some e => Some (firstn (length s - length (rest e)) s, e)
      | None =>
          match s with
          | [] => None
          | c :: t => search r (Some c) t (extra_units c t)
          end
      end
  end.

(** [re.test(s)] *)
Definition regex_test (r : re) (s : jsstring) : bool :=
  match search r None s 0 with Some _ => true | None => false end.

(** [s.match(re)] for a regular expression without the global flag:
    the captures of the leftmost match, [None] for [null]. *)
Definition regex_match (r : re) (s : jsstring)
  : option (list (nat * jsstring)) :=
  option_map (fun m => caps (snd m)) (search r None s 0).

(** [m && m[1]] *)
Definition group1 (m : option (list (nat * jsstring))) : option jsstring :=
  match m with
  | Some c => cap_get 1 c
  | None => None
  end.

(** [[...s.matchAll(re)]] with the global flag: the captures of the
    successive matches. *)
Fixpoint matchAll_go (r : re) (p : option N) (s : jsstring)
    (pending : nat) : list (list (nat * jsstring)) :=
  match pending with
  | S n =>
      match s with
      | [] => []
      | c :: t => matchAll_go r (Some c) t n
      end
  | O =>
      match match_at r p s with
      | Some e =>
          caps e ::
          match s with
          | [] => []
          | c :: t =>
              match length s - length (rest e) with
              | O => matchAll_go r (Some c) t (extra_units c t)
              | S n => matchAll_go r (Some c) t n
              end
          end
      | None =>
          match s with
          | [] => []
          | c :: t => matchAll_go r (Some c) t (extra_units c t)
          end
      end
  end.

Definition matchAll (r : re) (s : jsstring) : list (list (nat * jsstring)) :=
  matchAll_go r None s 0.

(** [s.replace(re, f)] with the global flag; [f] builds the replacement
    from the matched text.  [pending] code units are passed over,
    copied when [keep] (after a failed attempt at a surrogate pair) and
    dropped otherwise (inside a match). *)
Fixpoint replace_go (r : re) (f : jsstring -> jsstring) (p : option N)
    (s : jsstring) (pending : nat) (keep : bool) : jsstring :=
  match pending with
  | S n =>
      match s with
      | [] => []
      | c :: t =>
          (if keep then [c] else []) ++ replace_go r f (Some c) t n keep
      end
  | O =>
      match match_at r p s with
      | Some e =>
          f (firstn (length s - length (rest e)) s) ++
          match s with
          | [] => []
          | c :: t =>
              match length s - length (rest e) with
              | O => c :: replace_go r f (Some c) t (extra_units c t) true
              | S n => replace_go r f (Some c) t n false
              end
          end
      | None =>
          match s with
          | [] => []
          | c :: t => c :: replace_go r f (Some c) t (extra_units c t) true
          end
      end
  end.

Definition replaceAll (r : re) (f : jsstring -> jsstring) (s : jsstring)
  : jsstring :=
  replace_go r f None s 0 true.

(** [s.split(re)] for a regular expression without the unicode flag:
    an attempt at each position [q]; a match ending at the start [p]
    of the current piece does not split. *)
Fixpoint split_go (r : re) (p : option N) (s : jsstring) (pending : nat)
    (cur : jsstring) : list jsstring :=
  match s with
  | [] => [cur]
  | c :: t =>
      match pending with
      | S n => split_go r (Some c) t n cur
      | O =>
          match match_at r p s with
          | Some e =>
              match length s - length (rest e), cur with
              | O, [] => split_go r (Some c) t 0 (cur ++ [c])
              | O, _ :: _ => cur :: split_go r (Some c) t 0 [c]
              | S n, _ => cur :: split_go r (Some c) t n []
              end
          | None => split_go r (Some c) t 0 (cur ++ [c])
          end
      end
  end.

Definition split (r : re) (s : jsstring) : list jsstring :=
  match s with
  | [] => match match_at r None [] with Some _ => [] | None => [[]] end
  | _ :: _ => split_go r None s 0 []
  end.

End Matcher.

(** ** The regular expressions of [worker.js] *)

Definition fl_plain : flags := {| ignoreCase := false; unicode := false |}.
Definition fl_i : flags := {| ignoreCase := true; unicode := false |}.
Definition fl_u : flags := {| ignoreCase := false; unicode := true |}.

Definition plus (r : re) : re := Rep 1 None r.
Definition star (r : re) : re := Rep 0 None r.
Definition opt (r : re) : re := Rep 0 (Some 1) r.

Definition dquote : N := 34.
Definition squote : N := 39.

(** The class of the double and the single quote, written [q] in the
    comments below, and its complement, written [nq]. *)
Definition quote : re := Class false [CChar dquote; CChar squote].
Definition not_quote : re := Class true [CChar dquote; CChar squote].
(** [^>] *)
Definition not_gt : re := Class true [CChar 62].
Definition digit : re := Class false [CDigit].
Definition space : re := Class false [CSpace].

(** [/<meta[^>]+property=q og:image q[^>]+content=q(nq+)q/i] *)
Definition og_image_re : re :=
  seqs [lits (str "<meta"); plus not_gt; lits (str "property="); quote;
        lits (str "og:image"); quote; plus not_gt; lits (str "content=");
        quote; Grp 1 (plus not_quote); quote].

(** [/<img[^>]+src=q(nq+)q[^>]*class=q nq*(product|main|image|photo|picture)nq* q/i] *)
Definition img_re : re :=
  seqs [lits (str "<img"); plus not_gt; lits (str "src="); quote;
        Grp 1 (plus not_quote); quote; star not_gt; lits (str "class=");
        quote; star not_quote;
        Grp 2 (alts (lits (str "product"))
                 [lits (str "main"); lits (str "image"); lits (str "photo");
                  lits (str "picture")]);
        star not_quote; quote].

(** [/<meta[^>]+property=q og:title q[^>]+content=q(nq+)q/i] *)
Definition og_title_re : re :=
  seqs [lits (str "<meta"); plus not_gt; lits (str "property="); quote;
        lits (str "og:title"); quote; plus not_gt; lits (str "content=");
        quote; Grp 1 (plus not_quote); quote].

(** [/<title[^>]*>([^<]+)<\/title>/i] *)
Definition title_re : re :=
  seqs [lits (str "<title"); star not_gt; Lit 62;
        Grp 1 (plus (Class true [CChar 60])); lits (str "</title>")].

(** [/<a[^>]+class=D result__a D[^>]+href=D([^D]+)D/gi], [D] the double
    quote *)
Definition result_re : re :=
  seqs [lits (str "<a"); plus not_gt;
        lits (str "class=" ++ [dquote] ++ str "result__a" ++ [dquote]);
        plus not_gt; lits (str "href=" ++ [dquote]);
        Grp 1 (plus (Class true [CChar dquote])); Lit dquote].

(** [/\bGD\d{3,}\b/gi] *)
Definition sku_re : re :=
  seqs [WordB; Lit 71; Lit 68; Rep 3 None digit; WordB].

(** [/\b\d{6,}\b/g] *)
Definition long_digits_re : re :=
  seqs [WordB; Rep 6 None digit; WordB].

(** [/\([^)]*\)/g] *)
Definition paren_re : re :=
  seqs [Lit 40; star (Class true [CChar 41]); Lit 41].

(** [/[^\p{L}\p{N}\s]/gu] *)
Definition other_re : re := Class true [CLetter; CNumber; CSpace].

(** [/\s+/g] *)
Definition spaces_re : re := plus space.

(** [/^\d{12,14}$/] *)
Definition ean_re : re := seqs [Bol; Rep 12 (Some 14) digit; Eol].

(** [Num(?:é|e)ro\s+du\s+produit\s*:?\s*] *)
Definition label_re : re :=
  seqs [lits (str "Num"); Alt (Lit 233) (Lit 101); lits (str "ro");
        plus space; lits (str "du"); plus space; lits (str "produit");
        star space; opt (Lit 58); star space].

(** The syntax characters [escapeReg] escapes: [.*+?^${}()|[\]\\] *)
Definition syntax_chars : list N :=
  [46; 42; 43; 63; 94; 36; 123; 125; 40; 41; 124; 91; 93; 92]%N.

Definition syntax_re : re := Class false (map CChar syntax_chars).

Definition is_syntax (c : N) : bool := existsb (N.eqb c) syntax_chars.

(** The pattern text [escapeReg] produces is read back as a pattern: a
    backslash followed by a syntax character, or a character that is
    not a syntax character, stands for that character.  Anything else
    is not read ([None]). *)
Fixpoint parse_literal (p : jsstring) : option re :=
  match p with
  | [] => Some Eps
  | c :: t =>
      if N.eqb c 92 then
        match t with
        | d :: t' =>
            if is_syntax d
            then option_map (Seq (Lit d)) (parse_literal t')
            else None
        | [] => None
        end
      else if is_syntax c then None
      else option_map (Seq (Lit c)) (parse_literal t)
  end.

(** ** Numbers *)

Open Scope R_scope.

(** [x >= y] *)
Definition geb (x y : R) : bool := if Rle_dec y x then true else false.

(** What a division gives: the quotient, or, when the divisor is zero,
    [NaN] (for [0 / 0]) or an infinity. *)
Inductive quotient :=
| Quotient (x : R)
| NaN
| Infinity (negative : bool).

(** [x / y] *)
Definition divide (x y : R) : quotient :=
  if Req_dec_T y 0 then
    if Req_dec_T x 0 then NaN
    else Infinity (if Rlt_dec x 0 then true else false)
  else Quotient (x / y).

Close Scope R_scope.

(** ** The network and the monad of [async] code *)

Record response := { res_ok : bool; res_text : option jsstring }.

(** A request and what came back; [None]: [fetch] rejected. *)
Definition event := (jsstring * option response)%type.

(** The network answers a request knowing the requests before it. *)
Definition network := list event -> jsstring -> option response.

Inductive outcome (A : Type) :=
| Ok (a : A)
| Throw.
Arguments Throw {A}.

Definition M (A : Type) := list event -> outcome A * list event.

Definition ret {A} (a : A) : M A := fun l => (Ok a, l).

Definition bind {A B} (m : M A) (f : A -> M B) : M B :=
  fun l =>
    match m l with
    | (Ok a, l') => f a l'
    | (Throw, l') => (Throw, l')
    end.

Definition throw {A} : M A := fun l => (Throw, l).

(** [try { m; then k } catch { h }] where only [m] can throw *)
Definition try_catch {A B} (m : M A) (k : A -> M B) (h : M B) : M B :=
  fun l =>
    match m l with
    | (Ok a, l') => k a l'
    | (Throw, l') => h l'
    end.

Notation "x <- m ;; k" := (bind m (fun x => k))
  (at level 61, m at next level, right associativity).

(** ** The data of the worker *)

Inductive attempt :=
| TokenAttempt (candidate : jsstring) (ok : bool)     (* candidate, reason token, ok *)
| NameAttempt (candidate title : jsstring) (score : R). (* candidate, title, score *)

(** What a strategy returns: [okPayload({...})] or [{ ok: false, tried }]. *)
Inductive strategy_result :=
| Hit (imageUrl productUrl matchedBy : jsstring) (score : R) (tried : list attempt)
| Miss (tried : list attempt).

Definition result_tried (r : strategy_result) : list attempt :=
  match r with Hit _ _ _ _ t => t | Miss t => t end.

Inductive json_body :=
| ErrorBody (error : jsstring)
| MatchBody (imageUrl productUrl matchedBy : jsstring) (score : R)
    (tried : option (list attempt))
| NoMatchBody (score : R) (tried : list (list attempt)).

Record http_response := {
  status : nat;
  headers : list (string * string);
  body : json_body
}.

Record request := {
  q_site : option jsstring;      (* url.searchParams.get of site *)
  q_subcode : option jsstring;
  q_ean : option jsstring;
  q_name : option jsstring;
  q_debug : bool                 (* url.searchParams.has of debug *)
}.

(** [x || d] on the result of [searchParams.get] *)
Definition or_else (x : option jsstring) (d : jsstring) : jsstring :=
  match x with
  | Some s => if truthy s then s else d
  | None => d
  end.

Fixpoint trimStart (s : jsstring) : jsstring :=
  match s with
  | c :: t => if is_space c then trimStart t else s
  | [] => []
  end.

Definition trim (s : jsstring) : jsstring :=
  rev (trimStart (rev (trimStart s))).

(** [new Set(a)]: the elements of [a] in the order of their first
    occurrence. *)
Definition has (B : list jsstring) (x : jsstring) : bool :=
  if in_dec jsstring_eq_dec x B then true else false.

Fixpoint set_add_all (acc a : list jsstring) : list jsstring :=
  match a with
  | [] => acc
  | x :: a' => set_add_all (if has acc x then acc else acc ++ [x]) a'
  end.

Definition set_of (a : list jsstring) : list jsstring := set_add_all [] a.

(** ** The worker *)

Section Worker.
Context {P : Platform}.

(** *** Text normalizer *)

Definition blank (_ : jsstring) : jsstring := [32%N].

Definition cleanName (n : jsstring) : jsstring :=
  trim
    (replaceAll fl_plain spaces_re blank
       (replaceAll fl_u other_re blank
          (replaceAll fl_plain paren_re blank
             (replaceAll fl_plain long_digits_re blank
                (replaceAll fl_i sku_re blank n))))).

Definition tokens (s : jsstring) : list jsstring :=
  filter truthy (split fl_plain spaces_re (toLowerCase (cleanName s))).

(** *** Similarity scorer *)

Definition similarity (a b : list jsstring) : R :=
  let A := set_of a in
  let B := set_of b in
  let inter := length (filter (has B) A) in
  let den := Rmax 1 (sqrt (INR (length A) * INR (length B))) in
  (INR inter / den)%R.

(** The same function with its division as JavaScript performs it, which
    gives [NaN] or an infinity for a zero divisor.  [similarity] is the
    score as a number, for the code that compares and returns it. *)
Definition similarity_number (a b : list jsstring) : quotient :=
  let A := set_of a in
  let B := set_of b in
  let inter := length (filter (has B) A) in
  let den := Rmax 1 (sqrt (INR (length A) * INR (length B))) in
  divide (INR inter) den.

(** *** HTML extractors *)

(** A value that is [null], [undefined] or the empty string is falsy. *)
Definition truthy_opt (x : option jsstring) : bool :=
  match x with Some s => truthy s | None => false end.

Definition extractTitle (html : jsstring) : jsstring :=
  let og := group1 (regex_match fl_i og_title_re html) in
  match og with
  | Some t =>
      if truthy t then t
      else match group1 (regex_match fl_i title_re html) with
           | Some t' => t'
           | None => []
           end
  | None =>
      match group1 (regex_match fl_i title_re html) with
      | Some t' => t'
      | None => []
      end
  end.

Definition extractImage (candidate html : jsstring)
  : outcome (option jsstring) :=
  let imageUrl := group1 (regex_match fl_i og_image_re html) in
  let imageUrl :=
    if truthy_opt imageUrl then imageUrl
    else group1 (regex_match fl_i img_re html) in
  match imageUrl with
  | None => Ok None
  | Some u =>
      if truthy u then
        if startsWith (str "/") u then
          match parseURL candidate with
          | Some url => Ok (Some (origin url ++ u))
          | None => Throw
          end
        else Ok (Some u)
      else Ok None
  end.

(** *** Subcode acceptance *)

Definition escapeReg (s : jsstring) : jsstring :=
  replaceAll fl_plain syntax_re (fun m => 92%N :: m) s.

(** [new RegExp(String.raw`(label)?${escapeReg(num)}`, i).test(html)];
    a pattern that does not read is a SyntaxError. *)
Definition containsProductNumber (html num : jsstring) : outcome bool :=
  match parse_literal (escapeReg num) with
  | Some lit => Ok (regex_test fl_i (Seq (opt (Grp 1 label_re)) lit) html)
  | None => Throw
  end.

(** *** Candidate source *)

Variable net : network.

(** [await fetch(url, { headers: ua() })]; the request headers are
    constant and left out. *)
Definition fetch (url : jsstring) : M response :=
  fun l =>
    match net l url with
    | Some r => (Ok r, l ++ [(url, Some r)])
    | None => (Throw, l ++ [(url, None)])
    end.

(** [await res.text()] *)
Definition text (r : response) : M jsstring :=
  match res_text r with
  | Some t => ret t
  | None => throw
  end.

Definition fix_protocol (url : jsstring) : jsstring :=
  if startsWith (str "//") url then str "https:" ++ url else url.

Definition unwrap_redirect (url : jsstring) : jsstring :=
  match parseURL url with
  | Some u =>
      if includes (str "duckduckgo.com") (hostname u)
         && startsWith (str "/l/") (pathname u)
      then
        match searchParams_get u (str "uddg") with
        | Some raw =>
            if truthy raw then
              match decodeURIComponent raw with
              | Some d => d
              | None => url
              end
            else url
        | None => url
        end
      else url
  | None => url
  end.

Definition on_target (u2 : jsstring) : bool :=
  match parseURL u2 with
  | Some u => includes (str "bringo.ma") (hostname u)
  | None => false
  end.

Definition links_of (html : jsstring) : list jsstring :=
  filter on_target
    (map unwrap_redirect
       (map fix_protocol
          (map (fun m => match cap_get 1 m with Some u => u | None => [] end)
             (matchAll fl_i result_re html)))).

Definition ddgLinks (query : jsstring) : M (list jsstring) :=
  let u := str "https://duckduckgo.com/html/?q=" ++ encodeURIComponent query in
  res <- fetch u ;;
  html <- text res ;;
  ret (firstn 8 (links_of html)).

(** *** Resolution strategies *)

Definition get_page (candidate : jsstring) : M (response * jsstring) :=
  res <- fetch candidate ;;
  html <- text res ;;
  ret (res, html).

(** The loop of [findByToken].  The body of the [try] is [get_page],
    then the push onto [tried], then the test; whatever throws, the
    [catch] goes on to the next candidate with [tried] as it is. *)
Fixpoint token_loop (accept : jsstring -> outcome bool)
    (results : list jsstring) (tried : list attempt) : M strategy_result :=
  match results with
  | [] => ret (Miss tried)
  | candidate :: more =>
      try_catch (get_page candidate)
        (fun '(res, html) =>
           let tried := tried ++ [TokenAttempt candidate (res_ok res)] in
           match accept html with
           | Ok true =>
               match extractImage candidate html with
               | Ok (Some imageUrl) =>
                   if truthy imageUrl
                   then ret (Hit imageUrl candidate (str "subcode/ean") 1 tried)
                   else token_loop accept more tried
               | Ok None | Throw => token_loop accept more tried
               end
           | Ok false | Throw => token_loop accept more tried
           end)
        (token_loop accept more tried)
  end.

Definition search_query (site term : jsstring) : jsstring :=
  str "site:" ++ site ++ str " " ++ term.

Definition findByToken (site token : jsstring)
    (accept : jsstring -> outcome bool) : M strategy_result :=
  results <- ddgLinks (search_query site token) ;;
  token_loop accept results [].

(** The loop of [findByName]; [Some (imageUrl, candidate, score)] is
    [best]. *)
Fixpoint name_loop (qName : jsstring) (results : list jsstring)
    (tried : list attempt)
  : M (option (jsstring * jsstring * R) * list attempt) :=
  match results with
  | [] => ret (None, tried)
  | candidate :: more =>
      try_catch (get_page candidate)
        (fun '(res, html) =>
           let title := extractTitle html in
           let score := similarity (tokens qName) (tokens title) in
           let tried := tried ++ [NameAttempt candidate title score] in
           if geb score (6 / 10) then
             match extractImage candidate html with
             | Ok (Some imageUrl) =>
                 if truthy imageUrl
                 then ret (Some (imageUrl, candidate, score), tried)
                 else name_loop qName more tried
             | Ok None | Throw => name_loop qName more tried
             end
           else name_loop qName more tried)
        (name_loop qName more tried)
  end.

Definition findByName (site rawName : jsstring) : M strategy_result :=
  let qName := cleanName rawName in
  results <- ddgLinks (search_query site qName) ;;
  r <- name_loop qName results [] ;;
  match r with
  | (Some (imageUrl, candidate, score), tried) =>
      ret (Hit imageUrl candidate (str "name") score tried)
  | (None, tried) => ret (Miss tried)
  end.

(** *** Dispatcher *)

(** [r.payload(debug)] *)
Definition payload (debug : bool) (imageUrl productUrl matchedBy : jsstring)
    (score : R) (tried : list attempt) : json_body :=
  MatchBody imageUrl productUrl matchedBy score
    (if debug then Some tried else None).

Definition j (b : json_body) (st : nat) : http_response :=
  {| status := st;
     headers := [("content-type", "application/json; charset=utf-8");
                 ("access-control-allow-origin", "*");
                 ("cache-control", "public, max-age=604800")]%string;
     body := b |}.

Definition not_found (tried : list (list attempt)) : http_response :=
  j (NoMatchBody 0 tried) 404.

(** One strategy of the dispatcher: run it, push its trace, return its
    payload when it is ok, otherwise go on with [next]. *)
Definition attempt_strategy (debug : bool) (run : M strategy_result)
    (tried : list (list attempt))
    (next : list (list attempt) -> M http_response) : M http_response :=
  r <- run ;;
  let tried := tried ++ [result_tried r] in
  match r with
  | Hit imageUrl productUrl matchedBy score t =>
      ret (j (payload debug imageUrl productUrl matchedBy score t) 200)
  | Miss _ => next tried
  end.

(** The acceptance tests the handler passes to [findByToken]. *)
Definition accept_subcode (subcode : jsstring) (html : jsstring)
  : outcome bool := containsProductNumber html subcode.
Definition accept_ean (ean : jsstring) (html : jsstring) : outcome bool :=
  Ok (includes ean html).

Definition ean_valid (ean : jsstring) : bool :=
  truthy ean && regex_test fl_plain ean_re ean.

Definition try_name (site name : jsstring) (debug : bool)
    (tried : list (list attempt)) : M http_response :=
  if truthy name
  then attempt_strategy debug (findByName site name) tried
         (fun tried => ret (not_found tried))
  else ret (not_found tried).

Definition try_ean (site ean name : jsstring) (debug : bool)
    (tried : list (list attempt)) : M http_response :=
  if ean_valid ean
  then attempt_strategy debug
         (findByToken site ean (accept_ean ean))
         tried (try_name site name debug)
  else try_name site name debug tried.

Definition try_subcode (site subcode ean name : jsstring) (debug : bool)
    (tried : list (list attempt)) : M http_response :=
  if truthy subcode
  then attempt_strategy debug
         (findByToken site subcode (accept_subcode subcode))
         tried (try_ean site ean name debug)
  else try_ean site ean name debug tried.

(** The constants the handler reads from the query parameters. *)
Definition site_of (req : request) : jsstring :=
  or_else (q_site req) (str "bringo.ma").
Definition subcode_of (req : request) : jsstring :=
  trim (or_else (q_subcode req) []).
Definition ean_of (req : request) : jsstring :=
  trim (or_else (q_ean req) []).
Definition name_of (req : request) : jsstring :=
  trim (or_else (q_name req) []).

(** The [fetch] handler of the worker, on the query parameters. *)
Definition handle (req : request) : M http_response :=
  let site := site_of req in
  let subcode := subcode_of req in
  let ean := ean_of req in
  let name := name_of req in
  let debug := q_debug req in
  if negb (truthy subcode) && negb (truthy ean) && negb (truthy name)
  then ret (j (ErrorBody (str "Provide subcode, ean or name.")) 400)
  else try_subcode site subcode ean name debug [].

End Worker.

(** ** A platform for the examples

    The theorems below hold for every [Platform].  The examples run on
    this one, which agrees with JavaScript on the ASCII inputs they use:
    it knows no letter, number or case beyond ASCII, percent-encodes
    ASCII only, and reads URLs of the form
    [scheme://host/path?query]. *)

Module Example.

Definition hex_digit (n : N) : N :=
  if N.ltb n 10 then (48 + n)%N else (55 + n)%N.

Definition hex_value (c : N) : option N :=
  if is_digit c then Some (c - 48)%N
  else if in_range 65 70 c then Some (c - 55)%N
  else if in_range 97 102 c then Some (c - 87)%N
  else None.

(** The characters [encodeURIComponent] leaves alone: letters, digits
    and [-_.!~*'()]. *)
Definition unreserved (c : N) : bool :=
  is_ascii_letter c || is_digit c ||
  existsb (N.eqb c) [45; 95; 46; 33; 126; 42; 39; 40; 41]%N.

Definition encode (s : jsstring) : jsstring :=
  flat_map (fun c => if unreserved c then [c]
                     else [37%N; hex_digit (c / 16); hex_digit (c mod 16)]) s.

Fixpoint decode (s : jsstring) : option jsstring :=
  match s with
  | [] => Some []
  | c :: t =>
      if N.eqb c 37 then
        match t with
        | h :: t1 =>
            match t1 with
            | l :: t2 =>
                match hex_value h, hex_value l, decode t2 with
                | Some a, Some b, Some r =>
                    if N.ltb (a * 16 + b) 128 then Some ((a * 16 + b)%N :: r)
                    else None
                | _, _, _ => None
                end
            | [] => None
            end
        | [] => None
        end
      else option_map (cons c) (decode t)
  end.

(** [s] cut at the first code unit satisfying [p]. *)
Fixpoint break (p : N -> bool) (s : jsstring) : jsstring * jsstring :=
  match s with
  | [] => ([], [])
  | c :: t => if p c then ([], s)
              else let '(a, b) := break p t in (c :: a, b)
  end.

Fixpoint split_on (fuel : nat) (d : N) (s : jsstring) : list jsstring :=
  match fuel with
  | O => [s]
  | S n =>
      match break (N.eqb d) s with
      | (a, _ :: b) => a :: split_on n d b
      | (a, []) => [a]
      end
  end.

Definition query_get (query key : jsstring) : option jsstring :=
  let pairs := map (break (N.eqb 61)) (split_on (length query) 38 query) in
  match find (fun kv => jseqb (fst kv) key) pairs with
  | Some (_, v) =>
      match decode (tl v) with Some d => Some d | None => Some (tl v) end
  | None => None
  end.

Definition parse (s : jsstring) : option URL :=
  let '(scheme, r) := break (N.eqb 58) s in
  if startsWith (str "://") r && forallb is_ascii_letter scheme && truthy scheme
  then
    let r := skipn 3 r in
    let '(authority, r) := break (fun c => existsb (N.eqb c) [47; 63; 35]%N) r in
    let '(path, r) := break (fun c => existsb (N.eqb c) [63; 35]%N) r in
    let '(query, _) := break (N.eqb 35) r in
    let '(host, _) := break (N.eqb 58) authority in
    if truthy host then
      Some {| hostname := map ascii_lower host;
              pathname := if truthy path then path else str "/";
              origin := map ascii_lower scheme ++ str "://" ++ map ascii_lower authority;
              searchParams_get := query_get (tl query) |}
    else None
  else None.

#[export] Instance platform : Platform := {|
  uni_letter := fun _ => false;
  uni_number := fun _ => false;
  uni_upper := fun c => c;
  toLowerCase := map ascii_lower;
  encodeURIComponent := encode;
  decodeURIComponent := decode;
  parseURL := parse
|}.

(** A network that serves one search result page and a table of
    pages, whatever was asked before; pages outside the table fail. *)
Definition serve (search_html : jsstring)
    (pages : list (jsstring * option response)) : network :=
  fun _ url =>
    if startsWith (str "https://duckduckgo.com/html/?q=") url
    then Some {| res_ok := true; res_text := Some search_html |}
    else match find (fun p => jseqb (fst p) url) pages with
         | Some (_, r) => r
         | None => None
         end.

Definition ok_page (html : jsstring) : option response :=
  Some {| res_ok := true; res_text := Some html |}.

(** An organic result link of the search page. *)
Definition result_link (href : jsstring) : jsstring :=
  str "<a rel=" ++ [dquote] ++ str "nofollow" ++ [dquote] ++
  str " class=" ++ [dquote] ++ str "result__a" ++ [dquote] ++
  str " href=" ++ [dquote] ++ href ++ [dquote] ++ str ">x</a>".

(** An Open Graph image tag. *)
Definition og_image (content : jsstring) : jsstring :=
  str "<meta property=" ++ [dquote] ++ str "og:image" ++ [dquote] ++
  str " content=" ++ [dquote] ++ content ++ [dquote] ++ str ">".

Definition og_title (content : jsstring) : jsstring :=
  str "<meta property=" ++ [dquote] ++ str "og:title" ++ [dquote] ++
  str " content=" ++ [dquote] ++ content ++ [dquote] ++ str ">".

(** The search page and the product pages of the examples. *)
Definition p1 : jsstring := str "https://www.bringo.ma/p/1".
Definition p2 : jsstring := str "https://www.bringo.ma/p/2".

Definition search_page : jsstring := result_link p1 ++ result_link p2.

Definition search_response : option response :=
  Some {| res_ok := true; res_text := Some search_page |}.

Definition product_page : jsstring :=
  str "<html>" ++ og_image (str "/img/x.jpg") ++
  og_title (str "Salon Bas Lanka") ++
  str "<p>Numero du produit: 694062</p>".

(** Both pages are served. *)
Definition shop : network :=
  serve search_page [(p1, ok_page product_page); (p2, ok_page product_page)].

(** No page can be fetched. *)
Definition shop_down : network := serve search_page [].

Definition search_url (site term : jsstring) : jsstring :=
  str "https://duckduckgo.com/html/?q=" ++ encode (search_query site term).

Definition by_subcode_and_name : request :=
  {| q_site := None; q_subcode := Some (str "694062"); q_ean := None;
     q_name := Some (str "Salon Bas Lanka"); q_debug := false |}.

Definition by_bad_ean : request :=
  {| q_site := None; q_subcode := None; q_ean := Some (str "12345");
     q_name := None; q_debug := false |}.

Definition no_identifier : request :=
  {| q_site := None; q_subcode := Some (str "  "); q_ean := None;
     q_name := Some []; q_debug := true |}.

(** A search page for another site: one result on that site, one on
    bringo.ma. *)
Definition other_site : jsstring := str "example.com".
Definition on_other_site : jsstring := str "https://example.com/p/9".
Definition other_search_page : jsstring :=
  result_link on_other_site ++ result_link p1.
Definition other_search : network := serve other_search_page [].

(** Two pages for the name strategy: the first ranked has one word more
    in its title than the query, the second has the words of the query. *)
Definition page_gris : jsstring :=
  og_image (str "/img/gris.jpg") ++ og_title (str "Salon Bas Lanka Gris").
Definition page_exact : jsstring :=
  og_image (str "/img/exact.jpg") ++ og_title (str "Salon Bas Lanka").
Definition shop_names : network :=
  serve search_page [(p1, ok_page page_gris); (p2, ok_page page_exact)].

(** A malformed EAN next to a name. *)
Definition by_bad_ean_and_name : request :=
  {| q_site := None; q_subcode := None; q_ean := Some (str "12345");
     q_name := Some (str "Salon Bas Lanka"); q_debug := false |}.

(** The first page is served with an error status, [res.ok] false, and
    holds the product all the same. *)
Definition error_page : option response :=
  Some {| res_ok := false; res_text := Some product_page |}.
Definition shop_errors : network :=
  serve search_page [(p1, error_page); (p2, ok_page product_page)].

Definition by_unknown_subcode : request :=
  {| q_site := None; q_subcode := Some (str "000111"); q_ean := None;
     q_name := None; q_debug := false |}.

End Example.


(** ** Vocabulary of the statements *)

(** The last code unit of [m], or [p] when [m] is empty. *)
Definition last_or (p : option N) (m : jsstring) : option N :=
  match m with
  | [] => p
  | _ :: _ => Some (last m 0%N)
  end.

(** From state [s] the matcher reaches state [s'] by consuming [m]. *)
Definition steps (s s' : mstate) : Prop :=
  exists m, rest s = m ++ rest s' /\ prev s' = last_or (prev s) m.

(** The image URL as it stands in the page, before the relative fix of
    [extractImage]. *)
Definition raw_image {P : Platform} (html : jsstring) : option jsstring :=
  let imageUrl := group1 (regex_match fl_i og_image_re html) in
  if truthy_opt imageUrl then imageUrl
  else group1 (regex_match fl_i img_re html).

(** The character a pattern has to start with, when it starts with a
    literal character. *)
Fixpoint first_lit (r : re) : option N :=
  match r with
  | Lit c => Some c
  | Seq r1 _ => first_lit r1
  | Grp _ r1 => first_lit r1
  | _ => None
  end.

(** No two white space code units follow each other. *)
Fixpoint no_double_space (s : jsstring) : bool :=
  match s with
  | a :: t =>
      match t with
      | b :: _ => negb (is_space a && is_space b) && no_double_space t
      | [] => true
      end
  | [] => true
  end.

Definition is_space_opt (c : option N) : bool :=
  match c with Some x => is_space x | None => false end.

(** The number of leading code units of [s] that satisfy [cp]. *)
Fixpoint count_prefix (cp : N -> bool) (s : jsstring) : nat :=
  match s with
  | c :: t => if cp c then S (count_prefix cp t) else 0
  | [] => 0
  end.

(** A standalone run of six or more digits starts at the position: the
    code unit before it, [p], is not a word character, six or more
    ASCII digits follow, and what comes after them is not a word
    character either. *)
Definition run_at (p : option N) (s : jsstring) : bool :=
  let n := count_prefix is_digit s in
  negb (is_word_opt p) && Nat.leb 6 n &&
  negb (is_word_opt (hd_error (skipn n s))).

(** A standalone run of six or more digits starts somewhere in [s],
    which comes after [p]. *)
Fixpoint has_run (p : option N) (s : jsstring) : bool :=
  run_at p s ||
  match s with
  | [] => false
  | c :: t => has_run (Some c) t
  end.

(** A greedy repetition of a class, written by recursion on the input:
    as many code units as satisfy [cp], at least [mn], giving them back
    one at a time until the continuation [k] succeeds. *)
Fixpoint greedy (cp : N -> bool) (k : mstate -> option mstate) (mn : nat)
    (p : option N) (s : jsstring) (cs : list (nat * jsstring))
  : option mstate :=
  let here :=
    if Nat.eqb mn 0 then k {| prev := p; rest := s; caps := cs |} else None in
  match s with
  | c :: t =>
      if cp c then
        match greedy cp k (Nat.pred mn) (Some c) t cs with
        | Some x => Some x
        | None => here
        end
      else here
  | [] => here
  end.

(** The continuation of [\d{6,}] in [\b\d{6,}\b]: the word boundary,
    then the end of the pattern. *)
Definition at_boundary (s : mstate) : option mstate :=
  if xorb (is_word_opt (prev s)) (is_word_opt (hd_error (rest s)))
  then Some s else None.

(** The replacement of the long digit runs, from a position on. *)
Definition strip {P : Platform} (p : option N) (s : jsstring) : jsstring :=
  replace_go fl_plain long_digits_re blank p s 0 true.

(** An ASCII code unit of a cleaned name is a letter, a digit or the
    space; [spaced] is the same before the white space is collapsed. *)
Definition ascii_clean (c : N) : Prop :=
  (c < 128)%N -> is_ascii_letter c = true \/ is_digit c = true \/ c = 32%N.

Definition ascii_spaced (c : N) : Prop :=
  (c < 128)%N -> is_ascii_letter c || is_digit c || is_space c = true.

(** Two continuations agree at every position from that of [s] on. *)
Definition agree_below (s : mstate) (k k' : mstate -> option mstate) : Prop :=
  forall s', length (rest s') <= length (rest s) -> k s' = k' s'.

(** The same with a greatest number [mx] of repetitions. *)
Fixpoint greedy_upto (cp : N -> bool) (k : mstate -> option mstate)
    (mn mx : nat) (p : option N) (s : jsstring) (cs : list (nat * jsstring))
  : option mstate :=
  match mx with
  | O => k {| prev := p; rest := s; caps := cs |}
  | S mx' =>
      let here :=
        if Nat.eqb mn 0 then k {| prev := p; rest := s; caps := cs |}
        else None in
      match s with
      | c :: t =>
          if cp c then
            match greedy_upto cp k (Nat.pred mn) mx' (Some c) t cs with
            | Some x => Some x
            | None => here
            end
          else here
      | [] => here
      end
  end.

(** The continuation of the digits in the EAN pattern: the end of the
    input, then the end of the pattern. *)
Definition at_end (s : mstate) : option mstate :=
  match rest s with
  | [] => Some s
  | _ :: _ => None
  end.

(** The words of a string: its maximal runs of word characters
    [A-Za-z0-9_], in order. *)
Fixpoint words (s : jsstring) : list jsstring :=
  match s with
  | [] => []
  | c :: t =>
      if is_word c then
        if is_word_opt (hd_error t)
        then match words t with
             | w :: ws => (c :: w) :: ws
             | [] => [[c]]
             end
        else [c] :: words t
      else words t
  end.

(** A word made of six or more digits. *)
Definition is_long_run (w : jsstring) : bool :=
  forallb is_digit w && Nat.leb 6 (length w).

(** A SKU-like word: G and D, each in either case, then three or more
    digits. *)
Definition is_sku (w : jsstring) : bool :=
  match w with
  | g :: d :: ds =>
      (N.eqb g 71 || N.eqb g 103) && (N.eqb d 68 || N.eqb d 100) &&
      forallb is_digit ds && Nat.leb 3 (length ds)
  | _ => false
  end.

(** [ws.join(" ")] *)
Fixpoint join (ws : list jsstring) : jsstring :=
  match ws with
  | [] => []
  | w :: more =>
      match more with
      | [] => w
      | _ :: _ => w ++ 32%N :: join more
      end
  end.

(** The characters of a string as code points: a surrogate pair is
    read as one character, as the unicode flag makes the matcher do. *)
Fixpoint code_points (s : jsstring) : list N :=
  match s with
  | [] => []
  | c :: t =>
      match t with
      | d :: t' =>
          if is_high_surrogate c && is_low_surrogate d
          then code_point c d :: code_points t'
          else c :: code_points t
      | [] => [c]
      end
  end.

(** A plain name is made of ASCII letters, digits and white space. *)
Definition plain (c : N) : bool :=
  is_ascii_letter c || is_digit c || is_space c.

(** A piece of text with a non-word character at both ends. *)
Definition hard (m : jsstring) : Prop :=
  m <> [] /\ is_word_opt (hd_error m) = false /\ is_word (last m 0%N) = false.

(** [o] is [s] with some hard pieces replaced by a space. *)
Inductive squeezed : jsstring -> jsstring -> Prop :=
| sq_nil : squeezed [] []
| sq_keep c s o : squeezed s o -> squeezed (c :: s) (c :: o)
| sq_blank m s o : hard m -> squeezed s o -> squeezed (m ++ s) (32%N :: o).

Section CaseInsensitive.
Context {P : Platform}.

(** [sub] occurs in [s] up to the case-insensitive comparison of the
    matcher. *)
Fixpoint starts_ci (p s : jsstring) : bool :=
  match p, s with
  | [], _ => true
  | x :: p', y :: s' => N.eqb (canon x) (canon y) && starts_ci p' s'
  | _ :: _, [] => false
  end.

Fixpoint includes_ci (sub s : jsstring) : bool :=
  starts_ci sub s ||
  match s with
  | [] => false
  | _ :: s' => includes_ci sub s'
  end.

End CaseInsensitive.


(** A query parameter is absent when it is missing, empty, or holds
    white space only: the handler trims what it reads. *)
Definition absent (x : option jsstring) : Prop :=
  match x with
  | None => True
  | Some s => forallb is_space s = true
  end.

(** The request with its [ean] parameter taken away. *)
Definition without_ean (req : request) : request :=
  {| q_site := q_site req; q_subcode := q_subcode req; q_ean := None;
     q_name := q_name req; q_debug := q_debug req |}.

Section Outcomes.
Context {P : Platform} (net : network).

(** The subcode strategy did not succeed from log [l]: it was skipped
    (no subcode), or it ran, ended at log [l1] and missed; [t1] is the
    dispatcher's trace afterwards. *)
Definition subcode_passed (req : request) (l l1 : list event)
    (t1 : list (list attempt)) : Prop :=
  (truthy (subcode_of req) = false /\ l1 = l /\ t1 = []) \/
  (truthy (subcode_of req) = true /\
   exists t,
     findByToken net (site_of req) (subcode_of req)
       (accept_subcode (subcode_of req)) l = (Ok (Miss t), l1) /\
     t1 = [t]).

(** The same for the EAN strategy, from log [l1] and trace [t1]. *)
Definition ean_passed (req : request) (l1 l2 : list event)
    (t1 t2 : list (list attempt)) : Prop :=
  (ean_valid (ean_of req) = false /\ l2 = l1 /\ t2 = t1) \/
  (ean_valid (ean_of req) = true /\
   exists t,
     findByToken net (site_of req) (ean_of req)
       (accept_ean (ean_of req)) l1 = (Ok (Miss t), l2) /\
     t2 = t1 ++ [t]).

(** The events [evs], logged after [l], are requests the network
    answered: each response is what the network gives for that URL
    after the requests before it. *)
Fixpoint served (l evs : list event) : Prop :=
  match evs with
  | [] => True
  | e :: more => snd e = net l (fst e) /\ served (l ++ [e]) more
  end.

(** The size of the intersection, as [similarity] computes it. *)
Definition overlap (a b : list jsstring) : nat :=
  length (filter (has (set_of b)) (set_of a)).

(** What a logged page request gave: the [ok] flag and the body, when
    both [fetch] and [text] went through. *)
Definition page_of (e : event) : option (bool * jsstring) :=
  match snd e with
  | Some r =>
      match res_text r with
      | Some html => Some (res_ok r, html)
      | None => None
      end
  | None => None
  end.

(** The attempt record of a logged page request, for each kind of
    strategy: none when the page could not be read. *)
Definition token_record (e : event) : list attempt :=
  match page_of e with
  | Some (ok, _) => [TokenAttempt (fst e) ok]
  | None => []
  end.

Definition name_record (qName : jsstring) (e : event) : list attempt :=
  match page_of e with
  | Some (_, html) =>
      [NameAttempt (fst e) (extractTitle html)
         (similarity (tokens qName) (tokens (extractTitle html)))]
  | None => []
  end.

(** A logged page request qualifies for the name strategy, with image
    [img] and score [s]: the page was read, its title scores [s]
    against the cleaned query, [s] is at least 0.6, and an image is
    extracted from it. *)
Definition qualifies (qName : jsstring) (e : event) (img : jsstring) (s : R)
  : Prop :=
  exists ok html,
    page_of e = Some (ok, html) /\
    s = similarity (tokens qName) (tokens (extractTitle html)) /\
    (6 / 10 <= s)%R /\
    extractImage (fst e) html = Ok (Some img) /\
    truthy img = true.

Definition rejected (qName : jsstring) (e : event) : Prop :=
  forall img s, ~ qualifies qName e img s.

(** A logged page request qualifies for a token strategy, with image
    [img]: the page was read, the acceptance test holds for its body,
    and an image is extracted from it. *)
Definition token_qualifies (accept : jsstring -> outcome bool) (e : event)
    (img : jsstring) : Prop :=
  exists ok html,
    page_of e = Some (ok, html) /\
    accept html = Ok true /\
    extractImage (fst e) html = Ok (Some img) /\
    truthy img = true.

Definition token_rejected (accept : jsstring -> outcome bool) (e : event)
  : Prop :=
  forall img, ~ token_qualifies accept e img.

(** The URL [ddgLinks] requests for a query. *)
Definition search_request (query : jsstring) : jsstring :=
  str "https://duckduckgo.com/html/?q=" ++ encodeURIComponent query.

(** The name strategy did not succeed from log [l2] and trace [t2]. *)
Definition name_passed (req : request) (l2 l3 : list event)
    (t2 t3 : list (list attempt)) : Prop :=
  (truthy (name_of req) = false /\ l3 = l2 /\ t3 = t2) \/
  (truthy (name_of req) = true /\
   exists t,
     findByName net (site_of req) (name_of req) l2 = (Ok (Miss t), l3) /\
     t3 = t2 ++ [t]).

(** The headers of every response. *)
Definition json_headers : list (string * string) :=
  [("content-type", "application/json; charset=utf-8");
   ("access-control-allow-origin", "*");
   ("cache-control", "public, max-age=604800")]%string.

(** A response to a request that names an identifier: a match, by a
    token with score 1 or by name with a score of at least 0.6, with
    the trace of the matching strategy when asked for; or no match,
    with the traces of the strategies that ran. *)
Definition resolved (debug : bool) (resp : http_response) : Prop :=
  (status resp = 200 /\
   exists i p m s t,
     body resp = MatchBody i p m s (if debug then Some t else None) /\
     truthy i = true /\
     ((m = str "subcode/ean" /\ s = 1%R) \/
      (m = str "name" /\ (6 / 10 <= s)%R))) \/
  (status resp = 404 /\
   exists tried, body resp = NoMatchBody 0 tried /\ length tried <= 3).

(** The log ends with a search request that gave no readable page. *)
Definition search_failed (l : list event) : Prop :=
  exists pre query o,
    l = pre ++ [(search_request query, o)] /\
    page_of (search_request query, o) = None.

End Outcomes.

(** ** The dispatcher *)

Lemma trimStart_spaces (s : jsstring) :
  forallb is_space s = true -> trimStart s = [].
Proof.
  induction s as [|c s IH]; simpl; [reflexivity|].
  intros H. apply andb_true_iff in H as [Hc Hs].
  rewrite Hc. auto.
Qed.

Lemma trim_spaces (s : jsstring) :
  forallb is_space s = true -> trim s = [].
Proof.
  intros H. unfold trim. rewrite (trimStart_spaces s H). reflexivity.
Qed.

Lemma absent_trim (x : option jsstring) :
  absent x -> trim (or_else x []) = [].
Proof.
  destruct x as [s|]; simpl; [|reflexivity].
  intros H. destruct (truthy s); [apply trim_spaces; assumption|reflexivity].
Qed.

Section Dispatcher.
Context {P : Platform} (net : network).

(** C6. A request in which subcode, ean and name are all absent is
    answered with status 400 and an error body, and no strategy runs:
    the log of network requests is left as it was. *)
Theorem handle_no_identifier (req : request) (l : list event) :
  absent (q_subcode req) -> absent (q_ean req) -> absent (q_name req) ->
  handle net req l =
    (Ok {| status := 400;
           headers := [("content-type", "application/json; charset=utf-8");
                       ("access-control-allow-origin", "*");
                       ("cache-control", "public, max-age=604800")]%string;
           body := ErrorBody (str "Provide subcode, ean or name.") |}, l).
Proof.
  intros Hs He Hn. unfold handle, subcode_of, ean_of, name_of.
  rewrite (absent_trim _ Hs), (absent_trim _ He), (absent_trim _ Hn).
  reflexivity.
Qed.

Lemma attempt_strategy_hit (debug : bool) (run : M strategy_result)
    tried next l i p m s t l1 :
  run l = (Ok (Hit i p m s t), l1) ->
  attempt_strategy debug run tried next l =
    (Ok (j (payload debug i p m s t) 200), l1).
Proof.
  intros H. unfold attempt_strategy, bind. rewrite H. reflexivity.
Qed.

Lemma attempt_strategy_miss (debug : bool) (run : M strategy_result)
    tried next l t l1 :
  run l = (Ok (Miss t), l1) ->
  attempt_strategy debug run tried next l = next (tried ++ [t]) l1.
Proof.
  intros H. unfold attempt_strategy, bind. rewrite H. reflexivity.
Qed.

Lemma handle_some_identifier (req : request) (l : list event) :
  truthy (subcode_of req) || truthy (ean_of req) || truthy (name_of req) = true ->
  handle net req l =
    try_subcode net (site_of req) (subcode_of req) (ean_of req) (name_of req)
      (q_debug req) [] l.
Proof.
  intros H. unfold handle.
  destruct (truthy (subcode_of req)), (truthy (ean_of req)),
    (truthy (name_of req)); simpl in *; try reflexivity; discriminate.
Qed.

Lemma try_subcode_passed req l l1 t1 :
  subcode_passed net req l l1 t1 ->
  try_subcode net (site_of req) (subcode_of req) (ean_of req) (name_of req)
    (q_debug req) [] l =
  try_ean net (site_of req) (ean_of req) (name_of req) (q_debug req) t1 l1.
Proof.
  intros [(Hs & -> & ->)|(Hs & t & Hrun & ->)]; unfold try_subcode; rewrite Hs.
  - reflexivity.
  - now rewrite (attempt_strategy_miss _ _ _ _ _ Hrun).
Qed.

Lemma try_ean_passed req l1 l2 t1 t2 :
  ean_passed net req l1 l2 t1 t2 ->
  try_ean net (site_of req) (ean_of req) (name_of req) (q_debug req) t1 l1 =
  try_name net (site_of req) (name_of req) (q_debug req) t2 l2.
Proof.
  intros [(Hs & -> & ->)|(Hs & t & Hrun & ->)]; unfold try_ean; rewrite Hs.
  - reflexivity.
  - now rewrite (attempt_strategy_miss _ _ _ _ _ Hrun).
Qed.

Lemma ean_valid_truthy (ean : jsstring) :
  ean_valid ean = true -> truthy ean = true.
Proof.
  unfold ean_valid. intros H. now apply andb_true_iff in H.
Qed.

(** C1. The dispatcher runs the strategies in the order subcode, EAN,
    name, and stops at the first one that returns a match.  (1) When
    the subcode strategy hits, the answer is its payload with status 200
    and the log ends where that strategy ended: nothing is searched or
    fetched for the EAN or the name.  (2) The EAN strategy starts from
    the log the subcode strategy left (or from the start, without a
    subcode); when it hits, the log ends where it ended: nothing is
    requested for the name.  (3) The name strategy starts from the log
    the EAN strategy left, and its hit is the answer. *)
Theorem dispatcher_first_hit_wins (req : request) (l : list event) :
  (forall i p m s t l1,
      truthy (subcode_of req) = true ->
      findByToken net (site_of req) (subcode_of req)
        (accept_subcode (subcode_of req)) l = (Ok (Hit i p m s t), l1) ->
      handle net req l = (Ok (j (payload (q_debug req) i p m s t) 200), l1))
  /\
  (forall t1 l1 i p m s t l2,
      subcode_passed net req l l1 t1 ->
      ean_valid (ean_of req) = true ->
      findByToken net (site_of req) (ean_of req)
        (accept_ean (ean_of req)) l1 = (Ok (Hit i p m s t), l2) ->
      handle net req l = (Ok (j (payload (q_debug req) i p m s t) 200), l2))
  /\
  (forall t1 l1 t2 l2 i p m s t l3,
      subcode_passed net req l l1 t1 ->
      ean_passed net req l1 l2 t1 t2 ->
      truthy (name_of req) = true ->
      findByName net (site_of req) (name_of req) l2 = (Ok (Hit i p m s t), l3) ->
      handle net req l = (Ok (j (payload (q_debug req) i p m s t) 200), l3)).
Proof.
  repeat split.
  - intros i p m s t l1 Hs Hrun.
    rewrite handle_some_identifier by (rewrite Hs; reflexivity).
    unfold try_subcode. rewrite Hs.
    apply attempt_strategy_hit. exact Hrun.
  - intros t1 l1 i p m s t l2 Hsub He Hrun.
    rewrite handle_some_identifier
      by (rewrite (ean_valid_truthy _ He); apply orb_true_iff; left;
          apply orb_true_r).
    rewrite (try_subcode_passed Hsub).
    unfold try_ean. rewrite He.
    apply attempt_strategy_hit. exact Hrun.
  - intros t1 l1 t2 l2 i p m s t l3 Hsub Hean Hn Hrun.
    rewrite handle_some_identifier by (rewrite Hn; apply orb_true_r).
    rewrite (try_subcode_passed Hsub), (try_ean_passed Hean).
    unfold try_name. rewrite Hn.
    apply attempt_strategy_hit. exact Hrun.
Qed.

(** C5. An EAN that does not match [^\d{12,14}$] is never searched, and
    the dispatcher goes on as if the EAN strategy were not there.  Let
    the subcode strategy have been skipped or have missed, leaving the
    log at [l1].  (1) With a name, the name strategy runs next, from
    [l1]: nothing is requested in between.  Its hit is the answer, with
    status 200; its miss gives the 404 no-match body whose traces are
    those of the subcode and name strategies only; and the handler
    throws only if the name strategy does.  The log ends where the name
    strategy ended.  (2) Without a name no strategy is left: the answer
    is the 404 no-match body, not an error, and the log stays at [l1].
    (3) With a subcode or a name in the request, the handler does
    exactly what it does for the same request without the EAN. *)
Theorem invalid_ean_never_searched (req : request) (l : list event) :
  regex_test fl_plain ean_re (ean_of req) = false ->
  (forall t1 l1,
      subcode_passed net req l l1 t1 ->
      truthy (name_of req) = true ->
      handle net req l =
        match findByName net (site_of req) (name_of req) l1 with
        | (Ok (Hit i p m s t), l2) =>
            (Ok (j (payload (q_debug req) i p m s t) 200), l2)
        | (Ok (Miss t), l2) => (Ok (j (NoMatchBody 0 (t1 ++ [t])) 404), l2)
        | (Throw, l2) => (Throw, l2)
        end)
  /\
  (forall t1 l1,
      subcode_passed net req l l1 t1 ->
      truthy (name_of req) = false ->
      truthy (subcode_of req) || truthy (ean_of req) = true ->
      handle net req l = (Ok (j (NoMatchBody 0 t1) 404), l1))
  /\
  (truthy (subcode_of req) || truthy (name_of req) = true ->
   handle net req l = handle net (without_ean req) l).
Proof.
  intros Hre.
  assert (Hv : ean_valid (ean_of req) = false)
    by (unfold ean_valid; rewrite Hre; apply andb_false_r).
  assert (Hv' : ean_valid (ean_of (without_ean req)) = false) by reflexivity.
  split; [|split].
  - intros t1 l1 Hsub Hn.
    rewrite handle_some_identifier by (rewrite Hn; apply orb_true_r).
    rewrite (try_subcode_passed Hsub).
    unfold try_ean. rewrite Hv. unfold try_name. rewrite Hn.
    unfold attempt_strategy, bind.
    destruct (findByName net (site_of req) (name_of req) l1)
      as [[[i p m s t|t]|] l2]; reflexivity.
  - intros t1 l1 Hsub Hn Hse.
    rewrite handle_some_identifier by (rewrite Hse; reflexivity).
    rewrite (try_subcode_passed Hsub).
    unfold try_ean. rewrite Hv. unfold try_name. rewrite Hn. reflexivity.
  - intros Hsn.
    rewrite handle_some_identifier.
    2:{ apply orb_true_iff in Hsn as [->| ->];
        [reflexivity | apply orb_true_r]. }
    rewrite handle_some_identifier.
    2:{ change (subcode_of (without_ean req)) with (subcode_of req).
        change (name_of (without_ean req)) with (name_of req).
        apply orb_true_iff in Hsn as [->| ->];
        [reflexivity | apply orb_true_r]. }
    change (subcode_of (without_ean req)) with (subcode_of req).
    change (name_of (without_ean req)) with (name_of req).
    change (site_of (without_ean req)) with (site_of req).
    change (q_debug (without_ean req)) with (q_debug req).
    unfold try_subcode, attempt_strategy, bind.
    destruct (truthy (subcode_of req)).
    + destruct (findByToken net _ _ _ l) as [[[i p m s t|t]|] l1];
        try reflexivity.
      unfold try_ean. rewrite Hv, Hv'. reflexivity.
    + unfold try_ean. rewrite Hv, Hv'. reflexivity.
Qed.

End Dispatcher.

(** ** The strategies *)

Lemma geb_true (x y : R) : geb x y = true <-> (y <= x)%R.
Proof.
  unfold geb. destruct (Rle_dec y x); split; intros; auto; discriminate.
Qed.

Lemma firstn_prefix_cons {A} (c : A) (n : nat) (l : list A) :
  exists n', c :: firstn n l = firstn n' (c :: l).
Proof. exists (S n). reflexivity. Qed.

Section Strategies.
Context {P : Platform} (net : network).

Lemma get_page_run (c : jsstring) (l : list event) :
  exists o,
    let e := (c, o) in
    net l c = o /\
    get_page net c l =
      (match page_of e with
       | Some (_, html) =>
           match o with Some r => Ok (r, html) | None => Throw end
       | None => Throw
       end, l ++ [e]).
Proof.
  exists (net l c). split; [reflexivity|].
  unfold get_page, bind, fetch, text, page_of. simpl.
  destruct (net l c) as [r|]; [|reflexivity].
  destruct (res_text r); reflexivity.
Qed.

(** The loop of [findByToken] always returns; the requests it makes are
    for a prefix of the candidates, and the trace it returns holds one
    record per page that was read. *)
Lemma token_loop_trace (accept : jsstring -> outcome bool)
    (results : list jsstring) :
  forall tried l,
  exists r evs,
    token_loop net accept results tried l = (Ok r, l ++ evs) /\
    result_tried r = tried ++ flat_map token_record evs /\
    exists n, map fst evs = firstn n results.
Proof.
  induction results as [|c more IH]; intros tried l.
  - exists (Miss tried), []. simpl. unfold ret.
    rewrite !app_nil_r. repeat split. exists 0. reflexivity.
  - destruct (get_page_run c l) as (o & _ & Hrun). simpl in Hrun.
    cbn [token_loop]. unfold try_catch. rewrite Hrun.
    assert (Hnext : forall tried',
      tried' = tried ++ token_record (c, o) ->
      exists r evs,
        token_loop net accept more tried' (l ++ [(c, o)]) = (Ok r, l ++ evs) /\
        result_tried r = tried ++ flat_map token_record evs /\
        exists n, map fst evs = firstn n (c :: more)).
    { intros tried' ->.
      destruct (IH (tried ++ token_record (c, o)) (l ++ [(c, o)]))
        as (r & evs & Hr & Ht & n & Hn).
      exists r, ((c, o) :: evs). split; [|split].
      - rewrite Hr. f_equal. rewrite <- app_assoc. reflexivity.
      - rewrite Ht. simpl. rewrite <- app_assoc. reflexivity.
      - simpl. rewrite Hn. apply firstn_prefix_cons. }
    unfold token_record in *.
    destruct (page_of (c, o)) as [[ok html]|] eqn:Hp.
    + destruct o as [r0|]; [|discriminate].
      assert (Hok : res_ok r0 = ok).
      { unfold page_of in Hp. simpl in Hp.
        destruct (res_text r0); inversion Hp; reflexivity. }
      rewrite Hok. simpl fst in *.
      destruct (accept html) as [[|]|]; try (apply Hnext; reflexivity).
      destruct (extractImage c html) as [[img|]|];
        try (apply Hnext; reflexivity).
      destruct (truthy img); try (apply Hnext; reflexivity).
      exists (Hit img c (str "subcode/ean") 1 (tried ++ [TokenAttempt c ok])),
        [(c, Some r0)].
      split; [reflexivity|]. split.
      * simpl. unfold token_record. rewrite Hp. reflexivity.
      * exists 1. reflexivity.
    + rewrite app_nil_r in Hnext.
      destruct o; apply Hnext; reflexivity.
Qed.

(** The loop of [findByName] always returns.  Its trace holds one
    record per page that was read.  When it returns a best candidate,
    that candidate is the last one requested, it qualifies, and every
    candidate requested before it was rejected; otherwise every
    candidate was requested and rejected. *)
Lemma name_loop_first_hit (qName : jsstring) (results : list jsstring) :
  forall tried l,
  exists best tried' evs,
    name_loop net qName results tried l = (Ok (best, tried'), l ++ evs) /\
    tried' = tried ++ flat_map (name_record qName) evs /\
    match best with
    | Some (img, c, s) =>
        exists evs' e post,
          evs = evs' ++ [e] /\
          Forall (rejected qName) evs' /\
          qualifies qName e img s /\
          fst e = c /\
          results = map fst evs' ++ c :: post
    | None =>
        map fst evs = results /\ Forall (rejected qName) evs
    end.
Proof.
  induction results as [|c more IH]; intros tried l.
  - exists None, tried, []. simpl. unfold ret.
    rewrite !app_nil_r. repeat split. constructor.
  - destruct (get_page_run c l) as (o & _ & Hrun). simpl in Hrun.
    cbn [name_loop]. unfold try_catch. rewrite Hrun.
    assert (Hnext : forall tried0,
      tried0 = tried ++ name_record qName (c, o) ->
      rejected qName (c, o) ->
      exists best tried' evs,
        name_loop net qName more tried0 (l ++ [(c, o)])
          = (Ok (best, tried'), l ++ evs) /\
        tried' = tried ++ flat_map (name_record qName) evs /\
        match best with
        | Some (img, c', s) =>
            exists evs' e post,
              evs = evs' ++ [e] /\
              Forall (rejected qName) evs' /\
              qualifies qName e img s /\
              fst e = c' /\
              c :: more = map fst evs' ++ c' :: post
        | None =>
            map fst evs = c :: more /\ Forall (rejected qName) evs
        end).
    { intros tried0 -> Hrej.
      destruct (IH (tried ++ name_record qName (c, o)) (l ++ [(c, o)]))
        as (best & tried' & evs & Hr & Ht & Hb).
      exists best, tried', ((c, o) :: evs). split; [|split].
      - rewrite Hr. f_equal. rewrite <- app_assoc. reflexivity.
      - rewrite Ht. simpl. rewrite <- app_assoc. reflexivity.
      - destruct best as [[[img c'] s]|].
        + destruct Hb as (evs' & e & post & -> & Hall & Hq & Hc & ->).
          exists ((c, o) :: evs'), e, post. repeat split; auto.
        + destruct Hb as [<- Hall]. split; [reflexivity|].
          constructor; assumption. }
    unfold name_record in *.
    destruct (page_of (c, o)) as [[ok html]|] eqn:Hp.
    + destruct o as [r0|]; [|discriminate]. simpl fst in *.
      set (score := similarity (tokens qName) (tokens (extractTitle html))) in *.
      assert (Hq : forall img s, qualifies qName (c, Some r0) img s ->
                geb score (6 / 10) = true /\
                extractImage c html = Ok (Some img) /\ truthy img = true).
      { intros img s (ok' & html' & Hp' & Hs & Hge & Hi & Ht).
        rewrite Hp in Hp'. inversion Hp'; subst html' ok'.
        repeat split; auto. apply geb_true. subst s. exact Hge. }
      destruct (geb score (6 / 10)) eqn:Hge.
      2:{ apply Hnext; [reflexivity|].
          intros img s Hqs. apply Hq in Hqs as (Hf & _). discriminate. }
      destruct (extractImage c html) as [[img|]|] eqn:Hi.
      2,3: apply Hnext; [reflexivity|];
           intros img' s Hqs; apply Hq in Hqs as (_ & Hf & _); discriminate.
      destruct (truthy img) eqn:Ht.
      2:{ apply Hnext; [reflexivity|].
          intros img' s Hqs. apply Hq in Hqs as (_ & Hf & Ht').
          inversion Hf; subst img'. congruence. }
      exists (Some (img, c, score)),
        (tried ++ [NameAttempt c (extractTitle html) score]), [(c, Some r0)].
      split; [reflexivity|]. split.
      * simpl. unfold name_record. rewrite Hp. reflexivity.
      * exists [], (c, Some r0), more. repeat split; auto.
        exists ok, html. repeat split; auto.
        apply geb_true. exact Hge.
    + assert (Hrej : rejected qName (c, o)).
      { intros img s (ok' & html' & Hp' & _). congruence. }
      rewrite app_nil_r in Hnext.
      destruct o; apply Hnext; auto.
Qed.

(** Each request of a loop is answered by the network: the logged
    response is the one the network gives at that point. *)
Lemma served_step (c : jsstring) (l evs : list event) :
  served net (l ++ [(c, net l c)]) evs ->
  served net l ((c, net l c) :: evs).
Proof. intros H. split; [reflexivity|exact H]. Qed.

Lemma name_loop_served (qName : jsstring) (results : list jsstring) :
  forall tried l,
  exists o evs,
    name_loop net qName results tried l = (o, l ++ evs) /\
    served net l evs.
Proof.
  induction results as [|c more IH]; intros tried l.
  - exists (Ok (None, tried)), []. rewrite app_nil_r.
    split; [reflexivity|exact I].
  - destruct (get_page_run c l) as (o & Hnet & Hrun).
    cbn zeta in Hnet, Hrun. subst o.
    cbn [name_loop]. unfold try_catch. rewrite Hrun.
    assert (Hnext : forall tried0,
      exists o' evs,
        name_loop net qName more tried0 (l ++ [(c, net l c)])
          = (o', l ++ evs) /\ served net l evs).
    { intros tried0.
      destruct (IH tried0 (l ++ [(c, net l c)])) as (o' & evs & Hr & Hs).
      exists o', ((c, net l c) :: evs). split.
      - rewrite Hr, <- app_assoc. reflexivity.
      - now apply served_step. }
    assert (Hhere : forall x : option (jsstring * jsstring * R) * list attempt,
      exists o' evs,
        ret x (l ++ [(c, net l c)]) = (o', l ++ evs) /\ served net l evs).
    { intros x. exists (Ok x), [(c, net l c)].
      split; [reflexivity|]. now apply served_step. }
    destruct (page_of (c, net l c)) as [[ok html]|].
    + destruct (net l c) as [r0|]; [|apply Hnext].
      destruct (geb _ _); [|apply Hnext].
      destruct (extractImage c html) as [[img|]|]; try apply Hnext.
      destruct (truthy img); [apply Hhere|apply Hnext].
    + destruct (net l c); apply Hnext.
Qed.

Lemma token_loop_served (accept : jsstring -> outcome bool)
    (results : list jsstring) :
  forall tried l,
  exists o evs,
    token_loop net accept results tried l = (o, l ++ evs) /\
    served net l evs.
Proof.
  induction results as [|c more IH]; intros tried l.
  - exists (Ok (Miss tried)), []. rewrite app_nil_r.
    split; [reflexivity|exact I].
  - destruct (get_page_run c l) as (o & Hnet & Hrun).
    cbn zeta in Hnet, Hrun. subst o.
    cbn [token_loop]. unfold try_catch. rewrite Hrun.
    assert (Hnext : forall tried0,
      exists o' evs,
        token_loop net accept more tried0 (l ++ [(c, net l c)])
          = (o', l ++ evs) /\ served net l evs).
    { intros tried0.
      destruct (IH tried0 (l ++ [(c, net l c)])) as (o' & evs & Hr & Hs).
      exists o', ((c, net l c) :: evs). split.
      - rewrite Hr, <- app_assoc. reflexivity.
      - now apply served_step. }
    assert (Hhere : forall x : strategy_result,
      exists o' evs,
        ret x (l ++ [(c, net l c)]) = (o', l ++ evs) /\ served net l evs).
    { intros x. exists (Ok x), [(c, net l c)].
      split; [reflexivity|]. now apply served_step. }
    destruct (page_of (c, net l c)) as [[ok html]|].
    + destruct (net l c) as [r0|]; [|apply Hnext].
      destruct (accept html) as [[|]|]; try apply Hnext.
      destruct (extractImage c html) as [[img|]|]; try apply Hnext.
      destruct (truthy img); [apply Hhere|apply Hnext].
    + destruct (net l c); apply Hnext.
Qed.

End Strategies.

Lemma prefix_snoc {A} (a : list A) (c : A) (post : list A) :
  exists n, a ++ [c] = firstn n (a ++ c :: post).
Proof.
  exists (length (a ++ [c])).
  replace (a ++ c :: post) with ((a ++ [c]) ++ post)
    by (rewrite <- app_assoc; reflexivity).
  rewrite firstn_app, firstn_all, Nat.sub_diag. simpl.
  rewrite app_nil_r. reflexivity.
Qed.

Section StrategyClaims.
Context {P : Platform} (net : network).

Lemma findByToken_trace site token accept l results l1 :
  ddgLinks net (search_query site token) l = (Ok results, l1) ->
  exists r evs,
    findByToken net site token accept l = (Ok r, l1 ++ evs) /\
    (exists n, map fst evs = firstn n results) /\
    result_tried r = flat_map token_record evs.
Proof.
  intros Hd. unfold findByToken, bind. rewrite Hd.
  destruct (token_loop_trace net accept results [] l1)
    as (r & evs & Hr & Ht & Hn).
  exists r, evs. auto.
Qed.

(** C7. The name strategy, once the search has returned its ranked
    candidates, always returns, and the pages it reads are those the
    network serves for the candidates it requests, in rank order.  A hit
    is matched by name with a score of at least 0.6; the candidate it
    names is the last one requested, it qualifies (page read, title
    score at least 0.6 against the cleaned query, image extracted),
    every candidate ranked before it was requested and rejected, and no
    candidate ranked after it is requested, whatever its score would
    be.  A miss means that every candidate was requested and
    rejected. *)
Theorem findByName_first_qualifying site rawName l results l1 :
  ddgLinks net (search_query site (cleanName rawName)) l = (Ok results, l1) ->
  exists r evs,
    findByName net site rawName l = (Ok r, l1 ++ evs) /\
    served net l1 evs /\
    match r with
    | Hit img c m s t =>
        m = str "name" /\ (6 / 10 <= s)%R /\
        exists evs' e post,
          evs = evs' ++ [e] /\ fst e = c /\
          results = map fst evs' ++ c :: post /\
          Forall (rejected (cleanName rawName)) evs' /\
          qualifies (cleanName rawName) e img s
    | Miss t =>
        map fst evs = results /\ Forall (rejected (cleanName rawName)) evs
    end.
Proof.
  intros Hd. unfold findByName, bind. rewrite Hd.
  destruct (name_loop_first_hit net (cleanName rawName) results [] l1)
    as (best & tried' & evs & Hr & Ht & Hb).
  assert (Hserved : served net l1 evs).
  { destruct (name_loop_served net (cleanName rawName) results [] l1)
      as (o & evs2 & Hr2 & Hs2).
    rewrite Hr in Hr2. injection Hr2 as _ Hl.
    apply app_inv_head in Hl. subst evs2. exact Hs2. }
  rewrite Hr.
  destruct best as [[[img c] s]|].
  - exists (Hit img c (str "name") s tried'), evs. split; [reflexivity|].
    split; [exact Hserved|].
    destruct Hb as (evs' & e & post & He & Hall & Hq & Hc & Hres).
    split; [reflexivity|]. split.
    + destruct Hq as (ok & html & _ & _ & Hge & _). exact Hge.
    + exists evs', e, post. auto.
  - exists (Miss tried'), evs. split; [reflexivity|].
    split; [exact Hserved|]. exact Hb.
Qed.

Lemma findByName_trace site rawName l results l1 :
  ddgLinks net (search_query site (cleanName rawName)) l = (Ok results, l1) ->
  exists r evs,
    findByName net site rawName l = (Ok r, l1 ++ evs) /\
    (exists n, map fst evs = firstn n results) /\
    result_tried r = flat_map (name_record (cleanName rawName)) evs.
Proof.
  intros Hd. unfold findByName, bind. rewrite Hd.
  destruct (name_loop_first_hit net (cleanName rawName) results [] l1)
    as (best & tried' & evs & Hr & Ht & Hb).
  rewrite Hr.
  destruct best as [[[img c] s]|].
  - exists (Hit img c (str "name") s tried'), evs. split; [reflexivity|].
    split; [|exact Ht].
    destruct Hb as (evs' & e & post & -> & _ & _ & <- & ->).
    rewrite map_app. simpl. apply prefix_snoc.
  - exists (Miss tried'), evs. split; [reflexivity|].
    split; [|exact Ht].
    destruct Hb as [<- _]. exists (length (map fst evs)).
    symmetry. apply firstn_all.
Qed.

(** C4, amended.  Once the search has returned its candidates, each
    strategy returns, having requested a prefix of the candidates in
    rank order, and its trace holds exactly one record for every
    requested candidate whose page was read (fetch and body both went
    through), in request order, whatever came of the acceptance test
    and of the image extraction: the URL with the HTTP ok flag of the
    response for the token strategies, the URL with the title and the
    score for the name strategy.  A candidate whose fetch or body read
    failed leaves no record. *)
Theorem trace_records_pages_read site l results l1 :
  (forall token accept,
      ddgLinks net (search_query site token) l = (Ok results, l1) ->
      exists r evs,
        findByToken net site token accept l = (Ok r, l1 ++ evs) /\
        (exists n, map fst evs = firstn n results) /\
        result_tried r = flat_map token_record evs)
  /\
  (forall rawName,
      ddgLinks net (search_query site (cleanName rawName)) l
        = (Ok results, l1) ->
      exists r evs,
        findByName net site rawName l = (Ok r, l1 ++ evs) /\
        (exists n, map fst evs = firstn n results) /\
        result_tried r = flat_map (name_record (cleanName rawName)) evs).
Proof.
  split.
  - intros token accept. apply findByToken_trace.
  - intros rawName. apply findByName_trace.
Qed.

End StrategyClaims.

(** ** Runs on the example network *)

#[local] Existing Instance Example.platform.

Lemma handle_no_identifier_witness :
  handle Example.shop Example.no_identifier [] =
    (Ok {| status := 400;
           headers := [("content-type", "application/json; charset=utf-8");
                       ("access-control-allow-origin", "*");
                       ("cache-control", "public, max-age=604800")]%string;
           body := ErrorBody (str "Provide subcode, ean or name.") |}, []).
Proof.
  apply (handle_no_identifier Example.shop Example.no_identifier []).
  - reflexivity.
  - exact I.
  - reflexivity.
Defined.

Lemma dispatcher_first_hit_wins_witness :
  handle Example.shop Example.by_subcode_and_name [] =
    (Ok (j (payload false (str "https://www.bringo.ma/img/x.jpg") Example.p1
              (str "subcode/ean") 1 [TokenAttempt Example.p1 true]) 200),
     [(Example.search_url (str "bringo.ma") (str "694062"),
       Example.search_response);
      (Example.p1, Example.ok_page Example.product_page)]).
Proof.
  apply (proj1 (dispatcher_first_hit_wins Example.shop
                  Example.by_subcode_and_name [])).
  - reflexivity.
  - vm_compute. reflexivity.
Defined.

Lemma trace_records_pages_read_witness :
  exists r evs,
    findByToken Example.shop (str "bringo.ma") (str "694062")
      (accept_subcode (str "694062")) [] =
      (Ok r, [(Example.search_url (str "bringo.ma") (str "694062"),
               Example.search_response)] ++ evs) /\
    (exists n, map fst evs = firstn n [Example.p1; Example.p2]) /\
    result_tried r = flat_map token_record evs.
Proof.
  apply (proj1 (trace_records_pages_read Example.shop (str "bringo.ma") []
                  [Example.p1; Example.p2]
                  [(Example.search_url (str "bringo.ma") (str "694062"),
                    Example.search_response)])).
  vm_compute. reflexivity.
Defined.

(** C4, as stated, fails when the pages cannot be fetched: both
    candidates are attempted (their requests are in the log) and the
    trace is empty. *)
Lemma trace_misses_failed_fetch :
  findByToken Example.shop_down (str "bringo.ma") (str "694062")
    (accept_subcode (str "694062")) [] =
    (Ok (Miss []),
     [(Example.search_url (str "bringo.ma") (str "694062"),
       Example.search_response);
      (Example.p1, None); (Example.p2, None)]).
Proof. vm_compute. reflexivity. Qed.

(** ** The similarity scorer *)

Lemma has_true (B : list jsstring) (x : jsstring) :
  has B x = true <-> In x B.
Proof.
  unfold has. destruct (in_dec jsstring_eq_dec x B); split; auto; discriminate.
Qed.

Lemma set_add_all_spec (a : list jsstring) :
  forall acc,
    NoDup acc ->
    NoDup (set_add_all acc a) /\
    (forall x, In x (set_add_all acc a) <-> In x acc \/ In x a).
Proof.
  induction a as [|y a IH]; intros acc Hnd; simpl.
  - split; [assumption|]. intros x. tauto.
  - destruct (has acc y) eqn:Hy.
    + destruct (IH acc Hnd) as [H1 H2]. split; [assumption|].
      intros x. rewrite H2. apply has_true in Hy.
      split; [tauto|]. intros [H|[<-|H]]; auto.
    + assert (Hnd' : NoDup (acc ++ [y])).
      { apply NoDup_app; auto.
        - constructor; [intros []|constructor].
        - intros x Hx [<-|[]]. apply has_true in Hx. congruence. }
      destruct (IH _ Hnd') as [H1 H2]. split; [assumption|].
      intros x. rewrite H2, in_app_iff. simpl. tauto.
Qed.

Lemma set_of_NoDup (a : list jsstring) : NoDup (set_of a).
Proof. apply set_add_all_spec. constructor. Qed.

Lemma set_of_In (a : list jsstring) (x : jsstring) :
  In x (set_of a) <-> In x a.
Proof.
  unfold set_of. destruct (set_add_all_spec a (acc := [])) as [_ H].
  - constructor.
  - rewrite H. simpl. tauto.
Qed.

Lemma overlap_le_left (a b : list jsstring) :
  overlap a b <= length (set_of a).
Proof. apply filter_length_le. Qed.

Lemma overlap_le_right (a b : list jsstring) :
  overlap a b <= length (set_of b).
Proof.
  unfold overlap. apply NoDup_incl_length.
  - apply NoDup_filter, set_of_NoDup.
  - intros x Hx. apply filter_In in Hx as [_ Hx]. now apply has_true in Hx.
Qed.

Lemma overlap_disjoint (a b : list jsstring) :
  (forall x, In x a -> ~ In x b) -> overlap a b = 0.
Proof.
  intros H. unfold overlap.
  destruct (filter (has (set_of b)) (set_of a)) as [|x l] eqn:E; [reflexivity|].
  assert (Hx : In x (filter (has (set_of b)) (set_of a)))
    by (rewrite E; left; reflexivity).
  apply filter_In in Hx as [Ha Hb].
  apply (proj1 (set_of_In _ _)) in Ha.
  apply (proj1 (has_true _ _)) in Hb. apply (proj1 (set_of_In _ _)) in Hb.
  destruct (H x Ha Hb).
Qed.

Lemma similarity_overlap (a b : list jsstring) :
  similarity a b =
    (INR (overlap a b) /
     Rmax 1 (sqrt (INR (length (set_of a)) * INR (length (set_of b)))))%R.
Proof. reflexivity. Qed.

Lemma overlap_le_sqrt (a b : list jsstring) :
  (INR (overlap a b) <=
   sqrt (INR (length (set_of a)) * INR (length (set_of b))))%R.
Proof.
  rewrite <- (sqrt_square (INR (overlap a b))) at 1 by apply pos_INR.
  apply sqrt_le_1.
  - apply Rmult_le_pos; apply pos_INR.
  - apply Rmult_le_pos; apply pos_INR.
  - apply Rmult_le_compat; try apply pos_INR; apply le_INR.
    + apply overlap_le_left.
    + apply overlap_le_right.
Qed.

(** C8. The division of the scorer is always defined: its divisor is
    never zero, so the score is a quotient, never [NaN] or an infinity,
    for two empty lists in particular, where it is 0.  The score lies
    between 0 and 1.  It is 0 when either token list is empty and when
    the two lists share no token; two lists holding the same single
    token score exactly 1. *)
Theorem similarity_bounds :
  (forall a b, similarity_number a b = Quotient (similarity a b)) /\
  similarity_number [] [] = Quotient 0 /\
  (forall a b, (0 <= similarity a b <= 1)%R) /\
  (forall b, similarity [] b = 0%R) /\
  (forall a, similarity a [] = 0%R) /\
  (forall a b, (forall x, In x a -> ~ In x b) -> similarity a b = 0%R) /\
  (forall t, similarity [t] [t] = 1%R).
Proof.
  assert (Hdef : forall a b,
             similarity_number a b = Quotient (similarity a b)).
  { intros a b. unfold similarity_number, similarity, divide.
    set (den := Rmax 1 _).
    assert (Hden : (1 <= den)%R) by apply Rmax_l.
    destruct (Req_dec_T den 0) as [H0|_]; [lra|reflexivity]. }
  assert (Hnil : forall b, similarity [] b = 0%R).
  { intros b. rewrite similarity_overlap.
    replace (overlap [] b) with 0%nat by reflexivity.
    simpl. unfold Rdiv. apply Rmult_0_l. }
  split; [exact Hdef|]. split; [rewrite Hdef, Hnil; reflexivity|].
  split; [|split; [|split; [|split]]].
  - intros a b. rewrite similarity_overlap.
    set (den := Rmax 1 _).
    assert (Hden : (1 <= den)%R) by apply Rmax_l.
    assert (Hle : (INR (overlap a b) <= den)%R).
    { eapply Rle_trans; [apply overlap_le_sqrt|apply Rmax_r]. }
    assert (Hpos : (0 <= INR (overlap a b))%R) by apply pos_INR.
    split.
    + apply Rmult_le_pos; [assumption|].
      apply Rlt_le, Rinv_0_lt_compat. lra.
    + apply (Rmult_le_reg_r den); [lra|].
      unfold Rdiv. rewrite Rmult_assoc, Rinv_l by lra. lra.
  - exact Hnil.
  - intros a. rewrite similarity_overlap.
    rewrite overlap_disjoint by (intros x _ []).
    simpl. unfold Rdiv. apply Rmult_0_l.
  - intros a b H. rewrite similarity_overlap, overlap_disjoint by assumption.
    simpl. unfold Rdiv. apply Rmult_0_l.
  - intros t. rewrite similarity_overlap.
    assert (Ho : overlap [t] [t] = 1%nat).
    { unfold overlap. change (set_of [t]) with [t]. simpl.
      replace (has [t] t) with true; [reflexivity|].
      symmetry. apply has_true. left. reflexivity. }
    rewrite Ho. change (set_of [t]) with [t]. simpl.
    rewrite Rmult_1_r, sqrt_1.
    unfold Rmax. destruct (Rle_dec 1 1); lra.
Qed.

Lemma similarity_bounds_witness :
  similarity_number [str "salon"] [str "table"; str "basse"] = Quotient 0.
Proof.
  rewrite (proj1 similarity_bounds). f_equal.
  apply (proj1 (proj2 (proj2 (proj2 (proj2 (proj2 similarity_bounds)))))).
  intros x [<-|[]] [H|[H|[]]]; discriminate.
Defined.

(** ** The candidate source *)

(** Whatever site the request names, every candidate has a hostname
    that contains [bringo.ma]. *)
Lemma candidates_on_bringo {P : Platform} (html c : jsstring) :
  In c (firstn 8 (links_of html)) ->
  exists u, parseURL c = Some u /\ includes (str "bringo.ma") (hostname u) = true.
Proof.
  intros H.
  assert (H' : In c (links_of html)).
  { rewrite <- (firstn_skipn 8 (links_of html)). apply in_or_app. auto. }
  clear H. rename H' into H. unfold links_of in H.
  apply filter_In in H as [_ H]. unfold on_target in H.
  destruct (parseURL c) as [u|]; [|discriminate].
  exists u. auto.
Qed.

(** C2, at a request for the site example.com: the search page lists a
    page of example.com and a page of bringo.ma; the candidate source
    drops the first and returns the second, whose hostname does not
    contain the requested site. *)
Theorem candidates_ignore_requested_site :
  ddgLinks Example.other_search
    (search_query Example.other_site (str "694062")) [] =
    (Ok [Example.p1],
     [(Example.search_url Example.other_site (str "694062"),
       Some {| res_ok := true; res_text := Some Example.other_search_page |})])
  /\ option_map (fun u => includes Example.other_site (hostname u))
       (parseURL Example.p1) = Some false
  /\ option_map (fun u => includes Example.other_site (hostname u))
       (parseURL Example.on_other_site) = Some true.
Proof. vm_compute. repeat split. Qed.

(** ** Image extraction *)

(** C3, at a protocol-relative image URL: the page
    [https://bringo.ma/p/123] carries the Open Graph image
    [//cdn.bringo.ma/x.jpg]; extraction does not return it unchanged but
    puts the origin of the page in front of it. *)
Theorem extractImage_protocol_relative :
  extractImage (str "https://bringo.ma/p/123")
    (Example.og_image (str "//cdn.bringo.ma/x.jpg")) =
    Ok (Some (str "https://bringo.ma//cdn.bringo.ma/x.jpg")).
Proof. vm_compute. reflexivity. Qed.

(** What [extractImage] does with the URL it finds: any URL that
    starts with a slash, the protocol-relative ones included, gets the
    origin of the page in front; the others are returned unchanged. *)
Lemma extractImage_resolution {P : Platform} (candidate html u : jsstring)
    (url : URL) :
  raw_image html = Some u -> truthy u = true ->
  parseURL candidate = Some url ->
  extractImage candidate html =
    Ok (Some (if startsWith (str "/") u then origin url ++ u else u)).
Proof.
  unfold raw_image, extractImage. intros -> -> ->.
  destruct (startsWith (str "/") u); reflexivity.
Qed.

(** The two cases of C3 that the code does as stated. *)
Example extractImage_root_relative :
  extractImage (str "https://bringo.ma/p/123")
    (Example.og_image (str "/img/x.jpg")) =
    Ok (Some (str "https://bringo.ma/img/x.jpg")).
Proof. vm_compute. reflexivity. Qed.

Example extractImage_absolute :
  extractImage (str "https://bringo.ma/p/123")
    (Example.og_image (str "https://cdn.bringo.ma/x.jpg")) =
    Ok (Some (str "https://cdn.bringo.ma/x.jpg")).
Proof. vm_compute. reflexivity. Qed.

(** ** The matcher *)

Lemma last_app_cons {A} (l1 : list A) (c : A) (l2 : list A) (d : A) :
  last (l1 ++ c :: l2) d = last (c :: l2) d.
Proof.
  induction l1 as [|a l1 IH]; [reflexivity|].
  simpl app. rewrite <- IH. simpl. destruct (l1 ++ c :: l2) eqn:E.
  - destruct l1; discriminate.
  - reflexivity.
Qed.

Lemma last_or_app (p : option N) (m1 m2 : jsstring) :
  last_or (last_or p m1) m2 = last_or p (m1 ++ m2).
Proof.
  destruct m2 as [|c m2].
  - rewrite app_nil_r. reflexivity.
  - destruct m1 as [|d m1]; [reflexivity|].
    change (Some (last (c :: m2) 0%N) =
            Some (last ((d :: m1) ++ c :: m2) 0%N)).
    f_equal. symmetry. apply last_app_cons.
Qed.

Lemma steps_refl (s : mstate) : steps s s.
Proof. exists []. split; reflexivity. Qed.

Lemma steps_trans (s1 s2 s3 : mstate) :
  steps s1 s2 -> steps s2 s3 -> steps s1 s3.
Proof.
  intros (m1 & H1 & P1) (m2 & H2 & P2). exists (m1 ++ m2). split.
  - rewrite H1, H2, app_assoc. reflexivity.
  - rewrite P2, P1. apply last_or_app.
Qed.

Lemma steps_one (s : mstate) (c : N) (t : jsstring) caps' :
  rest s = c :: t ->
  steps s {| prev := Some c; rest := t; caps := caps' |}.
Proof. intros H. exists [c]. split; [exact H|reflexivity]. Qed.

Section MatcherFacts.
Context {P : Platform} (fl : flags).

Lemma next_char_steps (s : mstate) (c : N) (s' : mstate) :
  next_char fl s = Some (c, s') -> steps s s'.
Proof.
  unfold next_char. intros H.
  apply (f_equal (option_map snd)) in H. cbn [option_map snd] in H.
  destruct (rest s) as [|a t] eqn:E; [discriminate|].
  destruct t as [|d t'].
  - injection H as <-. now apply steps_one.
  - destruct (unicode fl && is_high_surrogate a && is_low_surrogate d);
      cbn [option_map snd] in H; injection H as <-.
    + exists [a; d]. split; [exact E|reflexivity].
    + now apply steps_one.
Qed.

(** Whatever the repetition matches, the continuation was reached at a
    later position. *)
Lemma rep_loop_sound body gs k :
  (forall s k' x, body s k' = Some x ->
                  exists s', k' s' = Some x /\ steps s s') ->
  forall fuel mn mx s x,
    rep_loop body gs k fuel mn mx s = Some x ->
    exists s', k s' = Some x /\ steps s s'.
Proof.
  intros Hbody. induction fuel as [|fuel IH]; intros mn mx s x H;
    [discriminate|].
  assert (Hmore :
    body (clear_caps gs s)
      (fun s' =>
         if Nat.eqb mn 0 && Nat.eqb (length (rest s')) (length (rest s))
         then None
         else rep_loop body gs k fuel (Nat.pred mn) (option_map Nat.pred mx) s')
      = Some x ->
    exists s', k s' = Some x /\ steps s s').
  { intros Hm. apply Hbody in Hm as (s1 & Hk & Hs).
    destruct (Nat.eqb mn 0 && Nat.eqb (length (rest s1)) (length (rest s)));
      [discriminate|].
    apply IH in Hk as (s' & Hk & Hs').
    exists s'. split; [exact Hk|].
    eapply steps_trans; [|exact Hs']. exact Hs. }
  cbn [rep_loop] in H.
  destruct mx as [[|m]|].
  - exists s. split; [exact H|apply steps_refl].
  - destruct (Nat.eqb mn 0); [|now apply Hmore].
    destruct (body (clear_caps gs s) _) eqn:E.
    + inversion H; subst. now apply Hmore.
    + exists s. split; [exact H|apply steps_refl].
  - destruct (Nat.eqb mn 0); [|now apply Hmore].
    destruct (body (clear_caps gs s) _) eqn:E.
    + inversion H; subst. now apply Hmore.
    + exists s. split; [exact H|apply steps_refl].
Qed.

Lemma rmatch_sound (r : re) :
  forall s k x,
    rmatch fl r s k = Some x ->
    exists s', k s' = Some x /\ steps s s'.
Proof.
  induction r as [|c|neg items|r1 IH1 r2 IH2|r1 IH1 r2 IH2|mn mx r1 IH|i r1 IH| | |];
    intros s k x H; cbn [rmatch] in H.
  - exists s. split; [exact H|apply steps_refl].
  - destruct (rest s) as [|ch t] eqn:E; [discriminate|].
    destruct (chr_eq fl c ch); [|discriminate].
    eexists. split; [exact H|]. now apply steps_one.
  - destruct (next_char fl s) as [[c s']|] eqn:E; [|discriminate].
    destruct (xorb neg (existsb (item_has fl c) items)); [|discriminate].
    exists s'. split; [exact H|]. eapply next_char_steps; eassumption.
  - apply IH1 in H as (s1 & H & S1). apply IH2 in H as (s2 & H & S2).
    exists s2. split; [exact H|]. eapply steps_trans; eassumption.
  - destruct (rmatch fl r1 s k) eqn:E.
    + inversion H; subst. now apply IH1.
    + now apply IH2.
  - eapply rep_loop_sound; [|exact H]. exact IH.
  - apply IH in H as (s1 & H & S1).
    eexists. split; [exact H|]. exact S1.
  - destruct (xorb _ _); [|discriminate].
    exists s. split; [exact H|apply steps_refl].
  - destruct (prev s); [discriminate|].
    exists s. split; [exact H|apply steps_refl].
  - destruct (rest s) eqn:E; [|discriminate].
    exists s. split; [exact H|apply steps_refl].
Qed.

End MatcherFacts.

(** *** A class as the whole pattern, without the unicode flag *)

Section ClassPattern.
Context {P : Platform} (fl : flags) (Hu : unicode fl = false).

Lemma extra_units_plain (c : N) (t : jsstring) : extra_units fl c t = 0.
Proof. unfold extra_units. destruct t; [reflexivity|]. now rewrite Hu. Qed.

Lemma class_match_at neg items p c t :
  match_at fl (Class neg items) p (c :: t) =
    if xorb neg (existsb (item_has fl c) items)
    then Some {| prev := Some c; rest := t; caps := [] |}
    else None.
Proof.
  unfold match_at. cbn [rmatch]. unfold next_char. cbn [rest caps].
  destruct t; [reflexivity|]. rewrite Hu. reflexivity.
Qed.

Lemma class_match_at_nil neg items p :
  match_at fl (Class neg items) p [] = None.
Proof. reflexivity. Qed.

Lemma length_cons_sub {A} (c : A) (t : list A) :
  length (c :: t) - length t = 1.
Proof. simpl length. lia. Qed.

(** Replacing every match of a class rewrites the string code unit by
    code unit. *)
Lemma replace_class neg items f :
  forall s p keep,
    replace_go fl (Class neg items) f p s 0 keep =
      flat_map (fun c => if xorb neg (existsb (item_has fl c) items)
                         then f [c] else [c]) s.
Proof.
  induction s as [|c t IH]; intros p keep.
  - reflexivity.
  - cbn [replace_go flat_map]. rewrite class_match_at.
    destruct (xorb neg (existsb (item_has fl c) items)).
    + cbn [rest]. rewrite length_cons_sub. cbn [firstn].
      rewrite IH. reflexivity.
    + rewrite extra_units_plain, IH. reflexivity.
Qed.

End ClassPattern.

(** *** [escapeReg] *)

Section Escape.
Context {P : Platform}.

Lemma syntax_class (c : N) (l : list N) :
  existsb (item_has fl_plain c) (map CChar l) = existsb (N.eqb c) l.
Proof.
  induction l as [|a l IH]; [reflexivity|].
  cbn [map existsb]. rewrite IH. f_equal.
  unfold item_has, chr_eq. cbn [ignoreCase fl_plain]. apply N.eqb_sym.
Qed.

(** [escapeReg] puts a backslash before each syntax character. *)
Lemma escapeReg_spec (s : jsstring) :
  escapeReg s =
    flat_map (fun c => if is_syntax c then [92%N; c] else [c]) s.
Proof.
  unfold escapeReg, replaceAll, syntax_re.
  rewrite replace_class by reflexivity.
  apply flat_map_ext. intros c. rewrite syntax_class.
  reflexivity.
Qed.

(** The pattern text [escapeReg] produces always reads, as the
    sequence of the characters of the string. *)
Lemma parse_escaped (s : jsstring) :
  parse_literal (escapeReg s) = Some (lits s).
Proof.
  rewrite escapeReg_spec. induction s as [|c s IH]; [reflexivity|].
  cbn [flat_map]. destruct (is_syntax c) eqn:Hc.
  - cbn [app parse_literal]. rewrite N.eqb_refl, Hc, IH. reflexivity.
  - cbn [app parse_literal]. rewrite Hc.
    destruct (N.eqb_spec c 92) as [->|_]; [discriminate Hc|].
    rewrite IH. reflexivity.
Qed.

End Escape.

(** *** Subcode acceptance *)

Section ProductNumber.
Context {P : Platform}.

Lemma starts_ci_includes (num m t : jsstring) :
  starts_ci num t = true -> includes_ci num (m ++ t) = true.
Proof.
  intros H. induction m as [|c m IH].
  - destruct t; simpl; rewrite H; reflexivity.
  - cbn [app includes_ci]. rewrite IH. apply orb_true_r.
Qed.

Lemma lits_ci_sound (num : jsstring) :
  forall s k x,
    rmatch fl_i (lits num) s k = Some x -> starts_ci num (rest s) = true.
Proof.
  induction num as [|c num IH]; intros s k x H; [reflexivity|].
  cbn [lits rmatch] in H.
  destruct (rest s) as [|ch t] eqn:E; [discriminate|].
  cbn [starts_ci].
  unfold chr_eq in H. cbn [ignoreCase fl_i] in H.
  destruct (N.eqb (canon c) (canon ch)); [|discriminate].
  apply IH in H. exact H.
Qed.

Lemma lits_ci_complete (num : jsstring) :
  forall s k,
    (forall s', k s' <> None) ->
    starts_ci num (rest s) = true ->
    rmatch fl_i (lits num) s k <> None.
Proof.
  induction num as [|c num IH]; intros s k Hk H.
  - apply Hk.
  - cbn [lits rmatch].
    destruct (rest s) as [|ch t] eqn:E; [discriminate|].
    cbn [starts_ci] in H. apply andb_true_iff in H as [H1 H2].
    unfold chr_eq. cbn [ignoreCase fl_i]. rewrite H1.
    apply IH; assumption.
Qed.

(** An optional prefix before the literal changes nothing to whether
    the pattern matches somewhere. *)
Lemma optional_prefix_at (G : re) (num : jsstring) p s :
  (match_at fl_i (Seq (opt G) (lits num)) p s <> None ->
   includes_ci num s = true) /\
  (starts_ci num s = true ->
   match_at fl_i (Seq (opt G) (lits num)) p s <> None).
Proof.
  unfold match_at. cbn [rmatch]. split.
  - intros H.
    destruct (rmatch fl_i (opt G) _ _) as [x|] eqn:E; [|congruence].
    apply rmatch_sound in E.
    destruct E as (s1 & Hl & m & Hm & _).
    apply lits_ci_sound in Hl. cbn [rest] in Hm. rewrite Hm.
    now apply starts_ci_includes.
  - intros H. unfold opt. cbn [rmatch rep_loop Nat.add Nat.eqb].
    assert (Hk : rmatch fl_i (lits num)
                   {| prev := p; rest := s; caps := [] |} Some <> None).
    { apply lits_ci_complete; [discriminate|exact H]. }
    destruct (rmatch fl_i G _ _); [discriminate|exact Hk].
Qed.

Lemma optional_prefix_test (G : re) (num : jsstring) :
  forall s p,
    match search fl_i (Seq (opt G) (lits num)) p s 0 with
    | Some _ => true
    | None => false
    end = includes_ci num s.
Proof.
  induction s as [|c t IH]; intros p.
  - cbn [search]. destruct (optional_prefix_at G num p []) as [H1 H2].
    destruct (match_at fl_i _ p []) eqn:E.
    + symmetry. apply H1. discriminate.
    + cbn [includes_ci]. destruct (starts_ci num []); [|reflexivity].
      destruct (H2 eq_refl). reflexivity.
  - cbn [search]. destruct (optional_prefix_at G num p (c :: t)) as [H1 H2].
    destruct (match_at fl_i _ p (c :: t)) eqn:E.
    + symmetry. apply H1. discriminate.
    + rewrite extra_units_plain by reflexivity. rewrite IH.
      cbn [includes_ci]. destruct (starts_ci num (c :: t)); [|reflexivity].
      destruct (H2 eq_refl). reflexivity.
Qed.

(** A digit is matched by itself only, also when case is ignored. *)
Lemma canon_digit (a c : N) :
  is_digit a = true -> N.eqb (canon a) (canon c) = N.eqb a c.
Proof.
  unfold is_digit, in_range. intros H.
  apply andb_true_iff in H as [H1 H2].
  apply N.leb_le in H1, H2.
  unfold canon, ascii_upper, is_ascii_lower, in_range.
  destruct (N.ltb_spec a 128); [|lia].
  destruct (N.leb_spec 97 a); [lia|]. cbn [andb].
  destruct (N.ltb_spec c 128).
  - destruct (N.leb_spec 97 c); cbn [andb]; [|reflexivity].
    destruct (N.leb_spec c 122); [|reflexivity].
    destruct (N.eqb_spec a (c - 32)), (N.eqb_spec a c); try reflexivity; lia.
  - cbn zeta. destruct (N.ltb_spec (uni_upper c) 128);
      destruct (N.eqb_spec a c); try lia;
      match goal with |- N.eqb ?x ?y = _ =>
        destruct (N.eqb_spec x y) end; try reflexivity; lia.
Qed.

Lemma starts_ci_digits (num : jsstring) :
  forallb is_digit num = true ->
  forall s, starts_ci num s = startsWith num s.
Proof.
  induction num as [|a num IH]; intros H s; [reflexivity|].
  cbn [forallb] in H. apply andb_true_iff in H as [Ha Hn].
  destruct s as [|c s]; [reflexivity|].
  cbn [starts_ci startsWith]. rewrite canon_digit, IH by assumption.
  reflexivity.
Qed.

Lemma includes_ci_digits (num : jsstring) :
  forallb is_digit num = true ->
  forall s, includes_ci num s = includes num s.
Proof.
  intros H. induction s as [|c s IH].
  - cbn [includes_ci includes]. now rewrite starts_ci_digits.
  - cbn [includes_ci includes]. now rewrite starts_ci_digits, IH.
Qed.

(** C10, amended.  The subcode acceptance test never fails to build its
    pattern, and it holds for a page body exactly when the subcode
    occurs in the body up to the case-insensitive comparison of the
    regular expression: the optional label changes nothing.  For a
    subcode made of digits only, this is plain substring containment,
    the acceptance test of the EAN strategy applied to the subcode. *)
Theorem containsProductNumber_substring :
  (forall html num,
      containsProductNumber html num = Ok (includes_ci num html)) /\
  (forall html num,
      forallb is_digit num = true ->
      containsProductNumber html num = accept_ean num html).
Proof.
  assert (H : forall html num,
             containsProductNumber html num = Ok (includes_ci num html)).
  { intros html num. unfold containsProductNumber.
    rewrite parse_escaped. unfold regex_test.
    rewrite optional_prefix_test. reflexivity. }
  split; [exact H|].
  intros html num Hd. rewrite H. unfold accept_ean.
  now rewrite includes_ci_digits.
Qed.

End ProductNumber.

Lemma containsProductNumber_substring_witness :
  forallb is_digit (str "694062") = true /\
  containsProductNumber (str "<p>Numero du produit: 694062</p>")
    (str "694062") =
  accept_ean (str "694062") (str "<p>Numero du produit: 694062</p>").
Proof.
  split; [reflexivity|].
  apply (proj2 containsProductNumber_substring). reflexivity.
Defined.

(** C10, as stated, fails for a subcode with letters: the pattern
    ignores case, substring containment does not. *)
Lemma containsProductNumber_ignores_case :
  containsProductNumber (str "<p>REF AB12</p>") (str "ab12") = Ok true /\
  accept_ean (str "ab12") (str "<p>REF AB12</p>") = Ok false.
Proof. vm_compute. split; reflexivity. Qed.

(** *** Greedy repetition of a class *)

Lemma clear_caps_nil p t cs :
  clear_caps [] {| prev := p; rest := t; caps := cs |} =
    {| prev := p; rest := t; caps := cs |}.
Proof.
  unfold clear_caps. cbn [prev rest caps]. f_equal.
  induction cs as [|a cs IH]; [reflexivity|].
  simpl. f_equal. exact IH.
Qed.

Lemma last_or_cons (p : option N) (c : N) (m : jsstring) :
  last_or p (c :: m) = last_or (Some c) m.
Proof.
  destruct m as [|d m]; reflexivity.
Qed.

Section Greedy.
Context {P : Platform} (fl : flags) (Hu : unicode fl = false).

Lemma class_rmatch_nil neg items k p cs :
  rmatch fl (Class neg items) {| prev := p; rest := []; caps := cs |} k = None.
Proof. reflexivity. Qed.

Lemma class_rmatch_cons neg items k p c t cs :
  rmatch fl (Class neg items) {| prev := p; rest := c :: t; caps := cs |} k =
    if xorb neg (existsb (item_has fl c) items)
    then k {| prev := Some c; rest := t; caps := cs |}
    else None.
Proof.
  cbn [rmatch]. unfold next_char. cbn [rest caps].
  destruct t; [reflexivity|]. rewrite Hu. reflexivity.
Qed.

Lemma rep_class_greedy neg items k :
  forall t fuel mn p cs,
    length t < fuel ->
    rep_loop (rmatch fl (Class neg items)) [] k fuel mn None
      {| prev := p; rest := t; caps := cs |} =
    greedy (fun c => xorb neg (existsb (item_has fl c) items)) k mn p t cs.
Proof.
  induction t as [|c t IH]; intros fuel mn p cs Hf;
    (destruct fuel as [|fuel]; [inversion Hf|]);
    cbn [rep_loop greedy]; rewrite clear_caps_nil.
  - rewrite class_rmatch_nil. destruct (Nat.eqb mn 0); reflexivity.
  - rewrite class_rmatch_cons.
    destruct (xorb neg (existsb (item_has fl c) items)).
    + cbn [rest length].
      replace (Nat.eqb (length t) (S (length t))) with false
        by (symmetry; apply Nat.eqb_neq; lia).
      rewrite andb_false_r. cbn [option_map].
      rewrite IH by (simpl in Hf; lia).
      destruct (Nat.eqb mn 0); [reflexivity|].
      destruct (greedy _ _ _ _ _ _); reflexivity.
    + destruct (Nat.eqb mn 0); reflexivity.
Qed.

End Greedy.

(** *** The pattern of long digit runs *)

Lemma digit_is_word (c : N) : is_digit c = true -> is_word c = true.
Proof. intros H. unfold is_word. rewrite H. apply orb_true_iff. left. apply orb_true_r. Qed.

Lemma count_prefix_le cp (s : jsstring) : count_prefix cp s <= length s.
Proof.
  induction s as [|c t IH]; [apply Nat.le_refl|].
  simpl. destruct (cp c); lia.
Qed.

Lemma consumed_prefix cp (s : jsstring) :
  length s - length (skipn (count_prefix cp s) s) = count_prefix cp s.
Proof.
  rewrite length_skipn. pose proof (count_prefix_le cp s). lia.
Qed.

Lemma greedy_ext (cp cp' : N -> bool) k :
  (forall c, cp c = cp' c) ->
  forall s mn p cs, greedy cp k mn p s cs = greedy cp' k mn p s cs.
Proof.
  intros H. induction s as [|c t IH]; intros mn p cs; [reflexivity|].
  cbn [greedy]. rewrite H, IH. reflexivity.
Qed.

Lemma greedy_boundary :
  forall s mn p,
    (mn = 0 -> is_word_opt p = true) ->
    greedy is_digit at_boundary mn p s [] =
      if Nat.leb mn (count_prefix is_digit s) &&
         negb (is_word_opt (hd_error (skipn (count_prefix is_digit s) s)))
      then Some {| prev := last_or p (firstn (count_prefix is_digit s) s);
                   rest := skipn (count_prefix is_digit s) s;
                   caps := [] |}
      else None.
Proof.
  induction s as [|c t IH]; intros mn p Hp.
  - cbn [greedy count_prefix skipn firstn hd_error last_or is_word_opt negb].
    destruct mn as [|mn]; [|reflexivity].
    cbn [Nat.eqb Nat.leb andb]. unfold at_boundary. cbn [prev rest hd_error].
    rewrite (Hp eq_refl). reflexivity.
  - cbn [greedy count_prefix]. destruct (is_digit c) eqn:Hc.
    + rewrite IH by (intros _; apply digit_is_word; exact Hc).
      cbn [skipn firstn]. rewrite last_or_cons.
      set (n := count_prefix is_digit t).
      set (b := negb (is_word_opt (hd_error (skipn n t)))).
      destruct mn as [|mn].
      * cbn [Nat.pred Nat.eqb Nat.leb andb].
        destruct b; [reflexivity|].
        unfold at_boundary. cbn [prev rest hd_error is_word_opt].
        rewrite (Hp eq_refl), (digit_is_word _ Hc). reflexivity.
      * cbn [Nat.pred Nat.eqb Nat.leb].
        destruct (Nat.leb mn n && b); reflexivity.
    + cbn [skipn firstn hd_error last_or is_word_opt].
      destruct mn as [|mn]; [|reflexivity].
      cbn [Nat.eqb Nat.leb andb]. unfold at_boundary.
      cbn [prev rest hd_error is_word_opt].
      rewrite (Hp eq_refl). reflexivity.
Qed.

Section LongDigits.
Context {P : Platform}.

Lemma long_digits_unfold (p : option N) (s : jsstring) :
  match_at fl_plain long_digits_re p s =
    if xorb (is_word_opt p) (is_word_opt (hd_error s))
    then rep_loop (rmatch fl_plain (Class false [CDigit])) [] at_boundary
           (S (6 + length s)) 6 None {| prev := p; rest := s; caps := [] |}
    else None.
Proof. reflexivity. Qed.

(** The pattern [\b\d{6,}\b] matches at a position exactly when a
    standalone run of six or more digits starts there, and it matches
    the whole run. *)
Lemma long_digits_match_at (p : option N) (s : jsstring) :
  match_at fl_plain long_digits_re p s =
    if run_at p s
    then Some {| prev := last_or p (firstn (count_prefix is_digit s) s);
                 rest := skipn (count_prefix is_digit s) s;
                 caps := [] |}
    else None.
Proof.
  rewrite long_digits_unfold.
  unfold run_at.
  set (n := count_prefix is_digit s).
  destruct (xorb (is_word_opt p) (is_word_opt (hd_error s))) eqn:Hx.
  - rewrite (@rep_class_greedy _ fl_plain eq_refl) by (simpl; lia).
    change (fun c => xorb false (existsb (item_has fl_plain c) [CDigit]))
      with (fun c => is_digit c || false).
    rewrite (greedy_ext _ is_digit) by (intros c; apply orb_false_r).
    rewrite greedy_boundary by discriminate. fold n.
    destruct (is_word_opt p) eqn:Hp.
    + (* the position follows a word character: the run must be empty *)
      cbn [negb andb].
      destruct s as [|c t]; [reflexivity|].
      cbn [hd_error is_word_opt] in Hx.
      assert (Hc : is_digit c = false).
      { destruct (is_digit c) eqn:Hc; [|reflexivity].
        rewrite (digit_is_word _ Hc) in Hx. discriminate. }
      subst n. cbn [count_prefix]. rewrite Hc. reflexivity.
    + reflexivity.
  - (* no boundary before the position *)
    destruct (is_word_opt p) eqn:Hp; [reflexivity|].
    cbn [negb andb].
    destruct s as [|c t]; [reflexivity|].
    cbn [hd_error is_word_opt xorb] in Hx.
    assert (Hc : is_digit c = false).
    { destruct (is_digit c) eqn:Hc; [|reflexivity].
      rewrite (digit_is_word _ Hc) in Hx. discriminate. }
    subst n. cbn [count_prefix]. rewrite Hc. reflexivity.
Qed.

End LongDigits.

(** *** Replacement, step by step *)

Section ReplaceSteps.
Context {P : Platform} (fl : flags) (r : re) (f : jsstring -> jsstring).

Lemma replace_go_keep (p : option N) (s : jsstring) (k1 k2 : bool) :
  replace_go fl r f p s 0 k1 = replace_go fl r f p s 0 k2.
Proof. destruct s; reflexivity. Qed.

Lemma replace_go_drop :
  forall m s p,
    m <= length s ->
    replace_go fl r f p s m false =
      replace_go fl r f (last_or p (firstn m s)) (skipn m s) 0 false.
Proof.
  induction m as [|m IH]; intros s p Hm.
  - reflexivity.
  - destruct s as [|c t]; [inversion Hm|].
    cbn [replace_go app firstn skipn]. rewrite last_or_cons.
    apply IH. simpl in Hm. lia.
Qed.

Lemma replace_go_take :
  forall m s p,
    m <= length s ->
    replace_go fl r f p s m true =
      firstn m s ++
      replace_go fl r f (last_or p (firstn m s)) (skipn m s) 0 true.
Proof.
  induction m as [|m IH]; intros s p Hm.
  - reflexivity.
  - destruct s as [|c t]; [inversion Hm|].
    cbn [replace_go app firstn skipn]. rewrite last_or_cons.
    f_equal. apply IH. simpl in Hm. lia.
Qed.

Lemma match_at_steps (p : option N) (s : jsstring) (e : mstate) :
  match_at fl r p s = Some e ->
  exists m, s = m ++ rest e /\ prev e = last_or p m.
Proof.
  unfold match_at. intros H. apply rmatch_sound in H as (s' & Hs & St).
  injection Hs as ->. exact St.
Qed.

Lemma replace_go_hit (p : option N) (s m : jsstring) (e : mstate) keep :
  match_at fl r p s = Some e ->
  s = m ++ rest e -> m <> [] ->
  replace_go fl r f p s 0 keep =
    f m ++ replace_go fl r f (last_or p m) (rest e) 0 true.
Proof.
  intros Hm Hs Hne. destruct m as [|c m]; [congruence|]. subst s.
  cbn [app replace_go]. change (c :: m ++ rest e) with ((c :: m) ++ rest e).
  rewrite Hm.
  replace (length ((c :: m) ++ rest e) - length (rest e)) with (S (length m))
    by (rewrite length_app; cbn [length]; lia).
  change (S (length m)) with (length (c :: m)) at 1.
  rewrite firstn_app, firstn_all, Nat.sub_diag. cbn [firstn].
  rewrite app_nil_r. f_equal.
  rewrite replace_go_drop by (rewrite length_app; lia).
  rewrite firstn_app, firstn_all, Nat.sub_diag. cbn [firstn].
  rewrite app_nil_r, skipn_app, skipn_all, Nat.sub_diag. cbn [skipn app].
  rewrite last_or_cons. apply replace_go_keep.
Qed.

Lemma replace_go_miss (p : option N) (c : N) (t : jsstring) keep :
  match_at fl r p (c :: t) = None ->
  replace_go fl r f p (c :: t) 0 keep =
    c :: replace_go fl r f (Some c) t (extra_units fl c t) true.
Proof. intros H. cbn [replace_go]. rewrite H. reflexivity. Qed.

Lemma replace_go_miss_nil (p : option N) keep :
  match_at fl r p [] = None -> replace_go fl r f p [] 0 keep = [].
Proof. intros H. cbn [replace_go]. rewrite H. reflexivity. Qed.

End ReplaceSteps.

(** *** Prefixes *)

Lemma count_prefix_skipn cp (s : jsstring) :
  count_prefix cp (skipn (count_prefix cp s) s) = 0.
Proof.
  induction s as [|c t IH]; [reflexivity|].
  cbn [count_prefix]. destruct (cp c) eqn:Hc.
  - exact IH.
  - cbn [skipn count_prefix]. rewrite Hc. reflexivity.
Qed.

Lemma count_prefix_firstn cp (s : jsstring) :
  forallb cp (firstn (count_prefix cp s) s) = true.
Proof.
  induction s as [|c t IH]; [reflexivity|].
  cbn [count_prefix]. destruct (cp c) eqn:Hc; [|reflexivity].
  cbn [firstn forallb]. rewrite Hc, IH. reflexivity.
Qed.

Lemma count_prefix_app cp (ds y : jsstring) :
  forallb cp ds = true ->
  count_prefix cp (ds ++ y) = length ds + count_prefix cp y.
Proof.
  induction ds as [|d ds IH]; intros H; [reflexivity|].
  cbn [forallb] in H. apply andb_true_iff in H as [Hd Hs].
  cbn [app count_prefix length]. rewrite Hd, IH by assumption. reflexivity.
Qed.

Lemma length_firstn_prefix cp (s : jsstring) :
  length (firstn (count_prefix cp s) s) = count_prefix cp s.
Proof. apply firstn_length_le, count_prefix_le. Qed.

Lemma count_prefix_zero_hd cp (s : jsstring) :
  count_prefix cp s = 0 ->
  match s with [] => True | c :: _ => cp c = false end.
Proof.
  destruct s as [|c t]; [trivial|]. cbn [count_prefix].
  destruct (cp c); [discriminate|reflexivity].
Qed.

(** *** Removing the long digit runs *)

Lemma run_at_no_digit (q : option N) (s : jsstring) :
  count_prefix is_digit s = 0 -> run_at q s = false.
Proof.
  intros H. unfold run_at. rewrite H. cbn [Nat.leb].
  now rewrite andb_false_r.
Qed.

Lemma run_at_after_word (q : option N) (s : jsstring) :
  is_word_opt q = true -> run_at q s = false.
Proof. intros H. unfold run_at. rewrite H. reflexivity. Qed.

Lemma has_run_nil (q : option N) : has_run q [] = false.
Proof. cbn [has_run]. now rewrite run_at_no_digit. Qed.

Lemma run_at_prev (p q : option N) (s : jsstring) :
  is_word_opt p = is_word_opt q -> run_at p s = run_at q s.
Proof. intros H. unfold run_at. rewrite H. reflexivity. Qed.

Lemma has_run_prev (p q : option N) (s : jsstring) :
  is_word_opt p = is_word_opt q -> has_run p s = has_run q s.
Proof.
  intros H. destruct s; cbn [has_run]; now rewrite (run_at_prev _ _ _ H).
Qed.

(** Inside a block of digits no run starts. *)
Lemma has_run_digits (ds y : jsstring) :
  forallb is_digit ds = true ->
  forall q,
    has_run q (ds ++ y) =
      match ds with
      | [] => has_run q y
      | _ :: _ => run_at q (ds ++ y) || has_run (last_or q ds) y
      end.
Proof.
  induction ds as [|d ds IH]; intros H q; [reflexivity|].
  cbn [forallb] in H. apply andb_true_iff in H as [Hd Hs].
  cbn [app has_run]. f_equal. rewrite (IH Hs). rewrite last_or_cons.
  destruct ds as [|d' ds]; [reflexivity|].
  rewrite run_at_after_word by (apply digit_is_word; exact Hd).
  reflexivity.
Qed.

Lemma has_run_block (ds y : jsstring) (q : option N) :
  forallb is_digit ds = true -> ds <> [] ->
  has_run q (ds ++ y) = run_at q (ds ++ y) || has_run (last_or q ds) y.
Proof.
  intros H Hne. rewrite has_run_digits by exact H.
  destruct ds; [congruence|reflexivity].
Qed.

Lemma last_or_nonempty (p q : option N) (m : jsstring) :
  m <> [] -> last_or p m = last_or q m.
Proof. destruct m; [congruence|reflexivity]. Qed.

Section StripRuns.
Context {P : Platform}.

Lemma strip_nil (p : option N) : strip p [] = [].
Proof.
  unfold strip. apply replace_go_miss_nil. rewrite long_digits_match_at.
  now rewrite run_at_no_digit.
Qed.

Lemma strip_miss (p : option N) (c : N) (t : jsstring) :
  run_at p (c :: t) = false -> strip p (c :: t) = c :: strip (Some c) t.
Proof.
  intros H. unfold strip. rewrite replace_go_miss.
  - rewrite extra_units_plain by reflexivity. reflexivity.
  - rewrite long_digits_match_at, H. reflexivity.
Qed.

Lemma strip_hit (p : option N) (s : jsstring) :
  run_at p s = true ->
  strip p s =
    32%N :: strip (last_or p (firstn (count_prefix is_digit s) s))
              (skipn (count_prefix is_digit s) s).
Proof.
  intros H. unfold strip.
  pose proof (long_digits_match_at p s) as Hm. rewrite H in Hm.
  rewrite (@replace_go_hit _ fl_plain long_digits_re blank p s
             (firstn (count_prefix is_digit s) s) _ true Hm).
  - reflexivity.
  - cbn [rest]. symmetry. apply firstn_skipn.
  - intros Hnil. apply (f_equal (@length N)) in Hnil.
    rewrite length_firstn_prefix in Hnil. cbn [length] in Hnil.
    unfold run_at in H. rewrite Hnil in H. cbn [Nat.leb] in H.
    rewrite andb_false_r in H. discriminate.
Qed.

(** After a word character the digits that follow are copied. *)
Lemma strip_inside :
  forall s p,
    is_word_opt p = true ->
    strip p s =
      firstn (count_prefix is_digit s) s ++
      strip (last_or p (firstn (count_prefix is_digit s) s))
        (skipn (count_prefix is_digit s) s).
Proof.
  induction s as [|c t IH]; intros p Hp; [reflexivity|].
  cbn [count_prefix]. destruct (is_digit c) eqn:Hc; [|reflexivity].
  rewrite strip_miss by (now apply run_at_after_word).
  cbn [firstn skipn app]. rewrite last_or_cons. f_equal.
  apply IH. apply digit_is_word. exact Hc.
Qed.

Lemma strip_kept_run (p : option N) (s : jsstring) :
  run_at p s = false ->
  strip p s =
    firstn (count_prefix is_digit s) s ++
    strip (last_or p (firstn (count_prefix is_digit s) s))
      (skipn (count_prefix is_digit s) s).
Proof.
  intros H. destruct s as [|c t]; [reflexivity|].
  cbn [count_prefix]. destruct (is_digit c) eqn:Hc; [|reflexivity].
  rewrite strip_miss by exact H.
  cbn [firstn skipn app]. rewrite last_or_cons. f_equal.
  apply strip_inside. apply digit_is_word. exact Hc.
Qed.

(** What [strip] leaves of a string that does not start with a digit
    does not start with a digit, and starts with a word character only
    if the string does. *)
Lemma strip_no_digit (p : option N) (s : jsstring) :
  count_prefix is_digit s = 0 ->
  count_prefix is_digit (strip p s) = 0 /\
  is_word_opt (hd_error (strip p s)) = is_word_opt (hd_error s).
Proof.
  intros H. destruct s as [|c t].
  - rewrite strip_nil. split; reflexivity.
  - rewrite strip_miss by (now apply run_at_no_digit).
    cbn [count_prefix] in *. destruct (is_digit c); [discriminate|].
    split; reflexivity.
Qed.

Lemma strip_no_run :
  forall k s,
    length s <= k ->
    forall p q,
      is_word_opt p = is_word_opt q \/ count_prefix is_digit s = 0 ->
      has_run q (strip p s) = false.
Proof.
  induction k as [|k IH]; intros s Hk p q Hpq.
  - destruct s; [|inversion Hk]. rewrite strip_nil. apply has_run_nil.
  - set (n := count_prefix is_digit s).
    assert (Hlen : length (skipn n s) = length s - n) by apply length_skipn.
    destruct (run_at p s) eqn:Hrun.
    + (* the run is replaced by a space *)
      rewrite strip_hit by exact Hrun. fold n.
      assert (Hn : 6 <= n).
      { unfold run_at in Hrun. fold n in Hrun.
        apply andb_true_iff in Hrun as [Hrun _].
        apply andb_true_iff in Hrun as [_ Hrun].
        now apply Nat.leb_le in Hrun. }
      cbn [has_run].
      rewrite run_at_no_digit by reflexivity. cbn [orb].
      apply IH; [lia|]. right. apply count_prefix_skipn.
    + destruct s as [|c t]; [rewrite strip_nil; apply has_run_nil|].
      destruct (is_digit c) eqn:Hc.
      * (* a run that stays: it is copied, with what follows it *)
        assert (Hn : n = S (count_prefix is_digit t))
          by (subst n; cbn [count_prefix]; now rewrite Hc).
        assert (Hw : is_word_opt p = is_word_opt q).
        { destruct Hpq as [Hw|Hz]; [exact Hw|].
          fold n in Hz. lia. }
        rewrite strip_kept_run by exact Hrun. fold n.
        set (ds := firstn n (c :: t)).
        set (y := strip (last_or p ds) (skipn n (c :: t))).
        assert (Hds : forallb is_digit ds = true)
          by apply count_prefix_firstn.
        assert (Hdl : length ds = n) by apply length_firstn_prefix.
        destruct (strip_no_digit (last_or p ds) (skipn n (c :: t)))
          as [Hy0 Hyw]; [apply count_prefix_skipn|]. fold y in Hy0, Hyw.
        assert (Hne : ds <> []).
        { intros E. rewrite E in Hdl. cbn [length] in Hdl. lia. }
        rewrite has_run_block by assumption.
        assert (Hr : run_at q (ds ++ y) = false).
        { rewrite <- Hrun. unfold run_at.
          rewrite count_prefix_app, Hy0, Nat.add_0_r, Hdl by exact Hds.
          rewrite <- Hdl at 2. rewrite skipn_app, skipn_all, Nat.sub_diag.
          cbn [skipn app]. fold n. rewrite Hyw, Hw. reflexivity. }
        rewrite Hr. cbn [orb].
        rewrite (last_or_nonempty q p Hne).
        apply IH; [|left; reflexivity].
        rewrite Hlen. simpl in Hk. simpl length. lia.
      * (* no digit here *)
        rewrite strip_miss by exact Hrun. cbn [has_run].
        rewrite run_at_no_digit by (cbn [count_prefix]; now rewrite Hc).
        cbn [orb]. apply IH; [simpl in Hk; lia|left; reflexivity].
Qed.

End StripRuns.

(** *** Replacing hard pieces by a space creates no run *)

Lemma not_word_not_digit (c : N) : is_word c = false -> is_digit c = false.
Proof.
  intros H. destruct (is_digit c) eqn:Hc; [|reflexivity].
  rewrite (digit_is_word _ Hc) in H. discriminate.
Qed.

Lemma hard_head (m s : jsstring) :
  hard m ->
  count_prefix is_digit (m ++ s) = 0 /\
  is_word_opt (hd_error (m ++ s)) = false.
Proof.
  intros (Hne & Hh & _). destruct m as [|a m]; [congruence|].
  cbn [app hd_error is_word_opt count_prefix] in *.
  rewrite (not_word_not_digit _ Hh). split; [reflexivity|exact Hh].
Qed.

Lemma squeezed_prefix (s o : jsstring) :
  squeezed s o ->
  is_word_opt (hd_error (skipn (count_prefix is_digit o) o)) = false ->
  count_prefix is_digit s = count_prefix is_digit o /\
  is_word_opt (hd_error (skipn (count_prefix is_digit o) s)) = false.
Proof.
  induction 1 as [|c s o Hsq IH|m s o Hm Hsq IH]; intros Hb.
  - split; [reflexivity|exact Hb].
  - cbn [count_prefix] in *. destruct (is_digit c).
    + cbn [skipn] in *. destruct (IH Hb) as [-> H2]. split; [reflexivity|exact H2].
    + split; [reflexivity|exact Hb].
  - cbn [count_prefix skipn]. change (is_digit 32) with false. cbn iota.
    cbn [skipn]. apply hard_head. exact Hm.
Qed.

Lemma has_run_app (m s : jsstring) :
  forall p, has_run (last_or p m) s = true -> has_run p (m ++ s) = true.
Proof.
  induction m as [|c m IH]; intros p H; [exact H|].
  cbn [app has_run]. rewrite last_or_cons in H.
  rewrite (IH _ H). apply orb_true_r.
Qed.

(** A standalone run in the squeezed text was one in the text. *)
Lemma squeezed_has_run (s o : jsstring) :
  squeezed s o ->
  forall p q,
    (is_word_opt q = false -> is_word_opt p = false) ->
    has_run q o = true -> has_run p s = true.
Proof.
  induction 1 as [|c s o Hsq IH|m s o Hm Hsq IH]; intros p q Hpq H.
  - rewrite has_run_nil in H. discriminate.
  - cbn [has_run] in *. apply orb_true_iff in H as [H|H].
    + apply orb_true_iff. left.
      unfold run_at in *.
      apply andb_true_iff in H as [H Hb].
      apply andb_true_iff in H as [Hq Hn].
      apply negb_true_iff in Hq, Hb.
      destruct (squeezed_prefix (sq_keep c Hsq) Hb) as [Hc Hb'].
      rewrite Hc, Hn, Hb', (Hpq Hq). reflexivity.
    + apply orb_true_iff. right. apply (IH (Some c) (Some c)); auto.
  - cbn [has_run] in H.
    rewrite run_at_no_digit in H by reflexivity. cbn [orb] in H.
    apply has_run_app. apply (IH _ (Some 32%N)); [|exact H].
    intros _. destruct Hm as (Hne & _ & Hl).
    destruct m; [congruence|]. exact Hl.
Qed.

Section Squeeze.
Context {P : Platform} (fl : flags) (r : re).
Variable good : jsstring -> Prop.
Hypothesis good_suffix : forall m s, good (m ++ s) -> good s.
Hypothesis hard_matches :
  forall p s e,
    good s -> match_at fl r p s = Some e ->
    exists m, s = m ++ rest e /\ hard m.

(** When every match of the pattern is a hard piece, replacing the
    matches by a space squeezes the text. *)
Lemma replace_squeezed :
  forall k s,
    length s <= k -> good s ->
    forall p, squeezed s (replace_go fl r blank p s 0 true).
Proof.
  induction k as [|k IH]; intros s Hk Hg p.
  - destruct s; [|inversion Hk].
    destruct (match_at fl r p []) as [e|] eqn:E.
    + destruct (hard_matches p Hg E) as (m & Hs & Hne & _).
      destruct m; [congruence|discriminate].
    + rewrite replace_go_miss_nil by exact E. constructor.
  - destruct (match_at fl r p s) as [e|] eqn:E.
    + destruct (hard_matches p Hg E) as (m & Hs & Hm).
      assert (Hne : m <> []) by apply Hm.
      rewrite (@replace_go_hit _ fl r blank p s m e true E Hs Hne).
      rewrite Hs at 1. cbn [blank app].
      apply sq_blank; [exact Hm|].
      apply IH.
      * apply (f_equal (@length N)) in Hs. rewrite length_app in Hs.
        destruct m; [congruence|]. cbn [length] in Hs. lia.
      * apply (good_suffix m). rewrite <- Hs. exact Hg.
    + destruct s as [|c t].
      * rewrite replace_go_miss_nil by exact E. constructor.
      * rewrite replace_go_miss by exact E.
        apply sq_keep.
        assert (Hgt : good t) by (apply (good_suffix [c]); exact Hg).
        unfold extra_units. destruct t as [|d t'].
        -- apply IH; [simpl in Hk; simpl; lia|exact Hgt].
        -- destruct (unicode fl && is_high_surrogate c && is_low_surrogate d).
           ++ rewrite replace_go_take by (simpl; lia).
              cbn [firstn skipn app last_or last].
              apply sq_keep. apply IH; [simpl in Hk; lia|].
              apply (good_suffix [d]). exact Hgt.
           ++ apply IH; [simpl in Hk; simpl; lia|exact Hgt].
Qed.

End Squeeze.

(** *** The matches of the other patterns of [cleanName] are hard *)

Ltac split_ranges :=
  repeat match goal with
         | |- context [N.leb ?a ?b] => destruct (N.leb_spec a b); try lia
         | |- context [N.eqb ?a ?b] => destruct (N.eqb_spec a b); try lia
         | |- context [N.ltb ?a ?b] => destruct (N.ltb_spec a b); try lia
         end.

Lemma is_word_ascii (c : N) : is_word c = true -> (c < 128)%N.
Proof.
  unfold is_word, is_ascii_letter, is_ascii_upper, is_ascii_lower, is_digit,
    in_range.
  intros H. destruct (N.ltb_spec c 128) as [Hlt|Hge]; [exact Hlt|].
  exfalso. revert H. split_ranges; cbn; discriminate.
Qed.

Lemma space_not_word (c : N) : is_space c = true -> is_word c = false.
Proof.
  intros Hs. destruct (is_word c) eqn:Hw; [|reflexivity].
  exfalso. revert Hs.
  assert (Hr : (48 <= c <= 57 \/ 65 <= c <= 90 \/ c = 95 \/ 97 <= c <= 122)%N).
  { revert Hw.
    unfold is_word, is_ascii_letter, is_ascii_upper, is_ascii_lower, is_digit,
      in_range.
    destruct (N.leb_spec 65 c), (N.leb_spec c 90), (N.leb_spec 97 c),
      (N.leb_spec c 122), (N.leb_spec 48 c), (N.leb_spec c 57),
      (N.eqb_spec c 95); cbn; intros; try discriminate; lia. }
  unfold is_space, in_range. split_ranges; cbn; discriminate.
Qed.

Lemma surrogate_not_word (c : N) :
  is_high_surrogate c || is_low_surrogate c = true -> is_word c = false.
Proof.
  intros H. destruct (is_word c) eqn:Hw; [|reflexivity].
  apply is_word_ascii in Hw. exfalso. revert H.
  unfold is_high_surrogate, is_low_surrogate, in_range.
  split_ranges; cbn; discriminate.
Qed.

Lemma forallb_last cp (m : jsstring) :
  forallb cp m = true -> m <> [] -> cp (last m 0%N) = true.
Proof.
  induction m as [|a m IH]; intros H Hne; [congruence|].
  cbn [forallb] in H. apply andb_true_iff in H as [Ha Hm].
  destruct m as [|b m]; [exact Ha|].
  change (last (a :: b :: m) 0%N) with (last (b :: m) 0%N).
  apply IH; [exact Hm|discriminate].
Qed.

(** A greedy repetition whose continuation always succeeds takes all
    the code units it can. *)
Lemma greedy_all cp :
  forall s mn p cs,
    greedy cp Some mn p s cs =
      if Nat.leb mn (count_prefix cp s)
      then Some {| prev := last_or p (firstn (count_prefix cp s) s);
                   rest := skipn (count_prefix cp s) s;
                   caps := cs |}
      else None.
Proof.
  induction s as [|c t IH]; intros mn p cs.
  - cbn [greedy count_prefix firstn skipn last_or].
    destruct mn; reflexivity.
  - cbn [greedy count_prefix]. destruct (cp c) eqn:Hc.
    + rewrite IH. cbn [firstn skipn]. rewrite last_or_cons.
      destruct mn as [|mn].
      * cbn [Nat.pred Nat.leb]. reflexivity.
      * cbn [Nat.pred Nat.leb Nat.eqb].
        destruct (Nat.leb mn (count_prefix cp t)); reflexivity.
    + cbn [firstn skipn last_or]. destruct mn; reflexivity.
Qed.

Section HardMatches.
Context {P : Platform}.

Lemma paren_unfold (p : option N) (s : jsstring) :
  match_at fl_plain paren_re p s =
    match s with
    | ch :: t =>
        if N.eqb 40 ch
        then rmatch fl_plain (star (Class true [CChar 41]))
               {| prev := Some ch; rest := t; caps := [] |}
               (fun s2 =>
                  match rest s2 with
                  | ch2 :: t2 =>
                      if N.eqb 41 ch2
                      then Some {| prev := Some ch2; rest := t2;
                                   caps := caps s2 |}
                      else None
                  | [] => None
                  end)
        else None
    | [] => None
    end.
Proof. destruct s; reflexivity. Qed.

Lemma paren_hard (p : option N) (s : jsstring) (e : mstate) :
  match_at fl_plain paren_re p s = Some e ->
  exists m, s = m ++ rest e /\ hard m.
Proof.
  rewrite paren_unfold. destruct s as [|ch t]; [discriminate|].
  destruct (N.eqb_spec 40 ch) as [<-|]; [|discriminate].
  intros H. apply rmatch_sound in H as (s2 & H & m1 & Hm1 & _).
  cbn [rest] in Hm1.
  destruct (rest s2) as [|ch2 t2] eqn:E2; [discriminate|].
  destruct (N.eqb_spec 41 ch2) as [<-|]; [|discriminate].
  injection H as <-. cbn [rest].
  exists ((40%N :: m1) ++ [41%N]). split.
  - rewrite Hm1, <- app_assoc. reflexivity.
  - split; [|split].
    + destruct m1; discriminate.
    + reflexivity.
    + rewrite last_last. reflexivity.
Qed.

Lemma not_LN_not_word (c : N) :
  is_L c = false -> is_N c = false -> c <> 95%N -> is_word c = false.
Proof.
  unfold is_L, is_N. intros HL HN H95.
  destruct (N.ltb_spec c 128) as [Hlt|Hge].
  - unfold is_word. rewrite HL, HN. cbn [orb].
    now apply N.eqb_neq.
  - destruct (is_word c) eqn:Hw; [|reflexivity].
    apply is_word_ascii in Hw. lia.
Qed.

Lemma other_unfold (p : option N) (s : jsstring) :
  match_at fl_u other_re p s =
    match s with
    | [] => None
    | c :: t =>
        match t with
        | d :: t' =>
            if is_high_surrogate c && is_low_surrogate d
            then if negb (is_L (code_point c d) || (is_N (code_point c d) ||
                            (is_space (code_point c d) || false)))
                 then Some {| prev := Some d; rest := t'; caps := [] |}
                 else None
            else if negb (is_L c || (is_N c || (is_space c || false)))
                 then Some {| prev := Some c; rest := t; caps := [] |}
                 else None
        | [] =>
            if negb (is_L c || (is_N c || (is_space c || false)))
            then Some {| prev := Some c; rest := t; caps := [] |}
            else None
        end
    end.
Proof.
  destruct s as [|c [|d t']]; try reflexivity.
  unfold match_at, other_re. cbn [rmatch]. unfold next_char.
  cbn [rest caps unicode fl_u andb].
  destruct (is_high_surrogate c && is_low_surrogate d); reflexivity.
Qed.

Lemma other_single (c : N) :
  negb (is_L c || (is_N c || (is_space c || false))) = true ->
  c <> 95%N -> hard [c].
Proof.
  intros H H95. apply negb_true_iff in H.
  apply orb_false_iff in H as [HL H]. apply orb_false_iff in H as [HN _].
  assert (Hw : is_word c = false) by now apply not_LN_not_word.
  split; [discriminate|]. split; exact Hw.
Qed.

Lemma other_hard (p : option N) (s : jsstring) (e : mstate) :
  ~ In 95%N s ->
  match_at fl_u other_re p s = Some e ->
  exists m, s = m ++ rest e /\ hard m.
Proof.
  intros H95. rewrite other_unfold.
  destruct s as [|c t]; [discriminate|].
  assert (Hc : c <> 95%N) by (intros ->; apply H95; left; reflexivity).
  destruct t as [|d t'].
  - destruct (negb _) eqn:E; [|discriminate].
    intros H. injection H as <-. exists [c]. split; [reflexivity|].
    now apply other_single.
  - destruct (is_high_surrogate c && is_low_surrogate d) eqn:Hp.
    + destruct (negb _); [|discriminate].
      intros H. injection H as <-. exists [c; d]. split; [reflexivity|].
      apply andb_true_iff in Hp as [Hh Hl].
      split; [discriminate|]. split.
      * apply surrogate_not_word. cbn [hd_error]. rewrite Hh. reflexivity.
      * apply surrogate_not_word. cbn [last]. rewrite Hl. apply orb_true_r.
    + destruct (negb _) eqn:E; [|discriminate].
      intros H. injection H as <-. exists [c]. split; [reflexivity|].
      now apply other_single.
Qed.

Lemma spaces_match_at (p : option N) (s : jsstring) :
  match_at fl_plain spaces_re p s =
    if Nat.leb 1 (count_prefix is_space s)
    then Some {| prev := last_or p (firstn (count_prefix is_space s) s);
                 rest := skipn (count_prefix is_space s) s;
                 caps := [] |}
    else None.
Proof.
  change (match_at fl_plain spaces_re p s) with
    (rep_loop (rmatch fl_plain (Class false [CSpace])) [] Some
       (S (1 + length s)) 1 None {| prev := p; rest := s; caps := [] |}).
  rewrite (@rep_class_greedy _ fl_plain eq_refl) by (simpl; lia).
  rewrite (greedy_ext _ is_space) by (intros c; apply orb_false_r).
  apply greedy_all.
Qed.

Lemma spaces_hard (p : option N) (s : jsstring) (e : mstate) :
  match_at fl_plain spaces_re p s = Some e ->
  exists m, s = m ++ rest e /\ hard m.
Proof.
  rewrite spaces_match_at.
  destruct (Nat.leb 1 (count_prefix is_space s)) eqn:Hn; [|discriminate].
  apply Nat.leb_le in Hn.
  intros H. injection H as <-. cbn [rest].
  exists (firstn (count_prefix is_space s) s).
  split; [symmetry; apply firstn_skipn|].
  pose proof (count_prefix_firstn is_space s) as Hall.
  pose proof (length_firstn_prefix is_space s) as Hlen.
  destruct (firstn (count_prefix is_space s) s) as [|a m] eqn:E.
  - cbn [length] in Hlen. lia.
  - split; [discriminate|]. split.
    + cbn [hd_error is_word_opt]. apply space_not_word.
      cbn [forallb] in Hall. now apply andb_true_iff in Hall.
    + apply space_not_word. apply forallb_last; [exact Hall|discriminate].
Qed.

End HardMatches.

(** *** What replacement keeps *)

Section Kept.
Context {P : Platform} (fl : flags) (r : re).

(** The output of a replacement by a space holds spaces and code units
    of the input. *)
Lemma replace_go_chars (c : N) :
  forall s p pending keep,
    In c (replace_go fl r blank p s pending keep) -> c = 32%N \/ In c s.
Proof.
  induction s as [|a t IH]; intros p pending keep H.
  - destruct pending as [|n]; cbn [replace_go] in H; [|destruct H].
    destruct (match_at fl r p []); cbn [blank app] in H.
    + destruct H as [H|[]]. left. now symmetry.
    + destruct H.
  - destruct pending as [|n]; cbn [replace_go] in H.
    + destruct (match_at fl r p (a :: t)) as [e|].
      * cbn [blank app] in H. destruct H as [H|H]; [left; now symmetry|].
        destruct (length (a :: t) - length (rest e)).
        -- destruct H as [H|H]; [right; left; exact H|].
           apply IH in H as [H|H]; [left|right; right]; exact H.
        -- apply IH in H as [H|H]; [left|right; right]; exact H.
      * destruct H as [H|H]; [right; left; exact H|].
        apply IH in H as [H|H]; [left|right; right]; exact H.
    + apply in_app_or in H as [H|H].
      * destruct keep; [|destruct H].
        destruct H as [H|[]]. right. left. exact H.
      * apply IH in H as [H|H]; [left|right; right]; exact H.
Qed.

Lemma replaceAll_no_underscore (s : jsstring) :
  ~ In 95%N s -> ~ In 95%N (replaceAll fl r blank s).
Proof.
  intros H Hin. apply replace_go_chars in Hin as [Hin|Hin];
    [discriminate|contradiction].
Qed.

Lemma extra_units_cases (c : N) (t : jsstring) :
  extra_units fl c t = 0 \/ extra_units fl c t = 1.
Proof.
  unfold extra_units. destruct t; [left; reflexivity|].
  destruct (unicode fl && _ && _); [right|left]; reflexivity.
Qed.

Variables K0 K : N -> Prop.
Hypothesis K_blank : K 32%N.
Hypothesis hit_consumes :
  forall p s e,
    match_at fl r p s = Some e -> length s - length (rest e) <> 0.
Hypothesis miss_keeps :
  forall p c t,
    K0 c -> match_at fl r p (c :: t) = None ->
    K c /\ (extra_units fl c t <> 0 ->
            match t with d :: _ => K d | [] => False end).

(** When the code units the replacement copies satisfy [K], so does
    its whole output. *)
Lemma replace_kept :
  forall s,
    Forall K0 s ->
    forall p pending keep,
      (keep = true ->
       pending = 0 \/
       (pending = 1 /\ match s with d :: _ => K d | [] => False end)) ->
      Forall K (replace_go fl r blank p s pending keep).
Proof.
  induction s as [|c t IH]; intros H0 p pending keep Hinv.
  - destruct pending as [|n]; cbn [replace_go]; [|constructor].
    destruct (match_at fl r p []); cbn [blank app]; repeat constructor.
    exact K_blank.
  - inversion H0 as [|? ? Hc Ht]; subst.
    destruct pending as [|n]; cbn [replace_go].
    + destruct (match_at fl r p (c :: t)) as [e|] eqn:E.
      * pose proof (hit_consumes _ _ E) as Hn.
        destruct (length (c :: t) - length (rest e)); [congruence|].
        cbn [blank app]. constructor; [exact K_blank|].
        apply IH; [exact Ht|discriminate].
      * destruct (miss_keeps p t Hc E) as [Hk Hx].
        constructor; [exact Hk|]. apply IH; [exact Ht|].
        intros _. destruct (extra_units_cases c t) as [Hz|Ho];
          [left; exact Hz|right].
        split; [exact Ho|]. apply Hx. rewrite Ho. discriminate.
    + destruct keep.
      * destruct (Hinv eq_refl) as [Hz|[Ho Hk]]; [discriminate|].
        injection Ho as ->. cbn [app]. constructor; [exact Hk|].
        apply IH; [exact Ht|]. intros _. left. reflexivity.
      * cbn [app]. apply IH; [exact Ht|discriminate].
Qed.

End Kept.

(** *** [trim] *)

Lemma trimStart_split (s : jsstring) :
  exists lead, s = lead ++ trimStart s /\ forallb is_space lead = true.
Proof.
  induction s as [|c t (lead & Hs & Hl)].
  - exists []. split; reflexivity.
  - cbn [trimStart]. destruct (is_space c) eqn:Hc.
    + exists (c :: lead). split.
      * cbn [app]. f_equal. exact Hs.
      * cbn [forallb]. rewrite Hc, Hl. reflexivity.
    + exists []. split; reflexivity.
Qed.

Lemma forallb_rev cp (l : jsstring) :
  forallb cp l = true -> forallb cp (rev l) = true.
Proof.
  intros H. apply forallb_forall. intros x Hx.
  apply in_rev in Hx. revert x Hx. now apply forallb_forall.
Qed.

(** [trim s] is [s] without white space at its two ends. *)
Lemma trim_split (s : jsstring) :
  exists lead trail,
    s = lead ++ trim s ++ trail /\
    forallb is_space lead = true /\ forallb is_space trail = true.
Proof.
  destruct (trimStart_split s) as (lead & Hs & Hl).
  destruct (trimStart_split (rev (trimStart s))) as (tr & Hr & Ht).
  exists lead, (rev tr). split; [|split].
  - unfold trim. rewrite Hs at 1. f_equal.
    rewrite <- rev_app_distr, <- Hr. symmetry. apply rev_involutive.
  - exact Hl.
  - apply forallb_rev. exact Ht.
Qed.

Lemma spaces_head (m : jsstring) :
  forallb is_space m = true -> is_word_opt (hd_error m) = false.
Proof.
  destruct m as [|a m]; [reflexivity|]. cbn [forallb hd_error is_word_opt].
  intros H. apply andb_true_iff in H as [Ha _]. now apply space_not_word.
Qed.

Lemma spaces_last (p : option N) (m : jsstring) :
  forallb is_space m = true -> is_word_opt p = false ->
  is_word_opt (last_or p m) = false.
Proof.
  intros H Hp. destruct m as [|a m'] eqn:E; [exact Hp|].
  cbn [last_or is_word_opt]. apply space_not_word.
  apply forallb_last; [exact H|discriminate].
Qed.

Lemma run_at_extend (trail : jsstring) :
  is_word_opt (hd_error trail) = false ->
  forall core,
    count_prefix is_digit (core ++ trail) = count_prefix is_digit core /\
    (is_word_opt (hd_error (skipn (count_prefix is_digit core) core)) = false ->
     is_word_opt
       (hd_error (skipn (count_prefix is_digit core) (core ++ trail))) = false).
Proof.
  intros Ht. induction core as [|c core [IH1 IH2]].
  - cbn [app count_prefix skipn].
    destruct trail as [|a trail]; [split; auto|].
    cbn [hd_error is_word_opt] in Ht. cbn [count_prefix].
    rewrite (not_word_not_digit _ Ht). split; auto.
  - cbn [app count_prefix]. destruct (is_digit c).
    + rewrite IH1. split; [reflexivity|]. cbn [skipn]. exact IH2.
    + split; [reflexivity|]. cbn [skipn hd_error]. auto.
Qed.

Lemma has_run_extend (trail : jsstring) :
  is_word_opt (hd_error trail) = false ->
  forall core p,
    has_run p core = true -> has_run p (core ++ trail) = true.
Proof.
  intros Ht. induction core as [|c core IH]; intros p H.
  - rewrite has_run_nil in H. discriminate.
  - cbn [has_run] in H. apply orb_true_iff in H as [H|H].
    + change ((c :: core) ++ trail) with (c :: (core ++ trail)).
      cbn [has_run]. apply orb_true_iff. left.
      change (c :: (core ++ trail)) with ((c :: core) ++ trail).
      unfold run_at in *.
      destruct (run_at_extend trail Ht (c :: core)) as [H1 H2].
      apply andb_true_iff in H as [H Hb].
      apply negb_true_iff in Hb.
      rewrite H1, H, (H2 Hb). reflexivity.
    + cbn [app has_run]. rewrite (IH _ H). apply orb_true_r.
Qed.

Lemma has_run_trim (s : jsstring) :
  has_run None (trim s) = true -> has_run None s = true.
Proof.
  intros H. destruct (trim_split s) as (lead & trail & Hs & Hl & Ht).
  rewrite Hs. apply has_run_app.
  rewrite (has_run_prev _ None)
    by (apply spaces_last; [exact Hl|reflexivity]).
  apply has_run_extend; [apply spaces_head; exact Ht|exact H].
Qed.

Lemma trim_In (c : N) (s : jsstring) : In c (trim s) -> In c s.
Proof.
  intros H. destruct (trim_split s) as (lead & trail & Hs & _).
  rewrite Hs. apply in_or_app. right. apply in_or_app. left. exact H.
Qed.

(** *** The text normalizer *)

Section CleanName.
Context {P : Platform}.

Lemma other_consumes (p : option N) (s : jsstring) (e : mstate) :
  match_at fl_u other_re p s = Some e -> length s - length (rest e) <> 0.
Proof.
  rewrite other_unfold. destruct s as [|c [|d t']]; [discriminate| |].
  - destruct (negb _); [|discriminate]. intros H. injection H as <-.
    cbn [rest length]. lia.
  - destruct (is_high_surrogate c && is_low_surrogate d);
      (destruct (negb _); [|discriminate]); intros H; injection H as <-;
      cbn [rest length]; lia.
Qed.

Lemma kept_spaced (c : N) :
  negb (is_L c || (is_N c || (is_space c || false))) = false ->
  ascii_spaced c.
Proof.
  intros H Hc. apply negb_false_iff in H.
  unfold is_L, is_N in H. apply N.ltb_lt in Hc. rewrite Hc in H.
  rewrite orb_false_r in H. rewrite <- orb_assoc. exact H.
Qed.

Lemma surrogate_spaced (c : N) :
  is_high_surrogate c || is_low_surrogate c = true -> ascii_spaced c.
Proof.
  intros H Hc. exfalso. revert H.
  unfold is_high_surrogate, is_low_surrogate, in_range.
  split_ranges; cbn; discriminate.
Qed.

Lemma other_keeps (p : option N) (c : N) (t : jsstring) :
  True -> match_at fl_u other_re p (c :: t) = None ->
  ascii_spaced c /\
  (extra_units fl_u c t <> 0 ->
   match t with d :: _ => ascii_spaced d | [] => False end).
Proof.
  intros _. rewrite other_unfold. unfold extra_units.
  cbn [unicode fl_u andb]. destruct t as [|d t'].
  - destruct (negb _) eqn:E; [discriminate|]. intros _.
    split; [now apply kept_spaced|congruence].
  - destruct (is_high_surrogate c && is_low_surrogate d) eqn:Hp.
    + intros _. apply andb_true_iff in Hp as [Hh Hl]. split.
      * apply surrogate_spaced. rewrite Hh. reflexivity.
      * intros _. apply surrogate_spaced. rewrite Hl. apply orb_true_r.
    + destruct (negb _) eqn:E; [discriminate|]. intros _.
      split; [now apply kept_spaced|congruence].
Qed.

Lemma spaces_consumes (p : option N) (s : jsstring) (e : mstate) :
  match_at fl_plain spaces_re p s = Some e ->
  length s - length (rest e) <> 0.
Proof.
  rewrite spaces_match_at.
  destruct (Nat.leb 1 (count_prefix is_space s)) eqn:Hn; [|discriminate].
  apply Nat.leb_le in Hn. intros H. injection H as <-. cbn [rest].
  rewrite consumed_prefix. lia.
Qed.

Lemma spaces_keeps (p : option N) (c : N) (t : jsstring) :
  ascii_spaced c -> match_at fl_plain spaces_re p (c :: t) = None ->
  ascii_clean c /\
  (extra_units fl_plain c t <> 0 ->
   match t with d :: _ => ascii_clean d | [] => False end).
Proof.
  intros Hc. rewrite spaces_match_at, extra_units_plain by reflexivity.
  cbn [count_prefix]. destruct (is_space c) eqn:Hs; [discriminate|].
  intros _. split; [|congruence].
  intros Hlt. specialize (Hc Hlt). rewrite Hs, orb_false_r in Hc.
  apply orb_true_iff in Hc as [Hc|Hc]; auto.
Qed.

(** Without an underscore in the input, each of the last three
    replacements of [cleanName] replaces pieces that have a non-word
    character at both ends. *)
Lemma cleanName_squeezes (n : jsstring) :
  ~ In 95%N n ->
  let s2 := replaceAll fl_plain long_digits_re blank
              (replaceAll fl_i sku_re blank n) in
  let s3 := replaceAll fl_plain paren_re blank s2 in
  let s4 := replaceAll fl_u other_re blank s3 in
  let s5 := replaceAll fl_plain spaces_re blank s4 in
  squeezed s2 s3 /\ squeezed s3 s4 /\ squeezed s4 s5.
Proof.
  intros Hn.
  set (s1 := replaceAll fl_i sku_re blank n).
  intros s2 s3 s4 s5.
  assert (H1 : ~ In 95%N s1) by now apply replaceAll_no_underscore.
  assert (H2 : ~ In 95%N s2) by now apply replaceAll_no_underscore.
  assert (H3 : ~ In 95%N s3) by now apply replaceAll_no_underscore.
  split; [|split].
  - apply (@replace_squeezed _ fl_plain paren_re (fun _ => True))
      with (k := length s2); auto.
    intros p s e _. apply paren_hard.
  - apply (@replace_squeezed _ fl_u other_re (fun s => ~ In 95%N s))
      with (k := length s3); auto.
    + intros m s H Hin. apply H. apply in_or_app. right. exact Hin.
    + intros p s e. apply other_hard.
  - apply (@replace_squeezed _ fl_plain spaces_re (fun _ => True))
      with (k := length s4); auto.
    intros p s e _. apply spaces_hard.
Qed.

(** Without an underscore in the input, the cleaned name holds no
    standalone run of six or more digits. *)
Lemma cleanName_no_run (n : jsstring) :
  ~ In 95%N n -> has_run None (cleanName n) = false.
Proof.
  intros Hn. destruct (cleanName_squeezes n Hn) as (S3 & S4 & S5).
  cbn zeta in S3, S4, S5. unfold cleanName.
  set (s1 := replaceAll fl_i sku_re blank n) in *.
  set (s2 := replaceAll fl_plain long_digits_re blank s1) in *.
  set (s3 := replaceAll fl_plain paren_re blank s2) in *.
  set (s4 := replaceAll fl_u other_re blank s3) in *.
  set (s5 := replaceAll fl_plain spaces_re blank s4) in *.
  assert (R2 : has_run None s2 = false).
  { apply (strip_no_run (k := length s1)); [apply Nat.le_refl|].
    left. reflexivity. }
  destruct (has_run None (trim s5)) eqn:E; [|reflexivity].
  apply has_run_trim in E.
  apply (squeezed_has_run S5 None None) in E; [|auto].
  apply (squeezed_has_run S4 None None) in E; [|auto].
  apply (squeezed_has_run S3 None None) in E; [|auto].
  congruence.
Qed.

(** Each ASCII code unit of a cleaned name is a letter, a digit or the
    space. *)
Lemma cleanName_ascii_clean (n : jsstring) : Forall ascii_clean (cleanName n).
Proof.
  unfold cleanName.
  set (s3 := replaceAll fl_plain paren_re blank _).
  apply Forall_forall. intros c Hc. apply trim_In in Hc. revert c Hc.
  apply Forall_forall.
  apply (@replace_kept _ fl_plain spaces_re ascii_spaced ascii_clean).
  + intros _. right. right. reflexivity.
  + apply spaces_consumes.
  + apply spaces_keeps.
  + apply (@replace_kept _ fl_u other_re (fun _ => True) ascii_spaced).
    * intros _. reflexivity.
    * apply other_consumes.
    * apply other_keeps.
    * apply Forall_forall. intros; exact I.
    * intros _. left. reflexivity.
  + intros _. left. reflexivity.
Qed.

End CleanName.

(** C9, as stated, fails for digits attached to a letter: the name
    comes back unchanged, with its run of seven digits. *)
Lemma cleanName_keeps_attached_digits :
  cleanName (str "abc1234567") = str "abc1234567" /\
  count_prefix is_digit (skipn 3 (cleanName (str "abc1234567"))) = 7.
Proof. vm_compute. split; reflexivity. Qed.

(** With an underscore in the input a standalone run can remain: the
    underscores are word characters for the run pattern and are turned
    into spaces afterwards. *)
Example cleanName_underscore :
  cleanName (str "_123456_") = str "123456" /\
  has_run None (cleanName (str "_123456_")) = true.
Proof. vm_compute. split; reflexivity. Qed.

Example cleanName_example :
  cleanName (str "Salon Bas GD12345 Lanka (promo) 3616479540274!!") =
    str "Salon Bas Lanka".
Proof. vm_compute. reflexivity. Qed.

(** ** The fuel of the repetition never runs out *)

Section Fuel.
Context {P : Platform} (fl : flags).

Lemma next_char_shorter (s : mstate) (c : N) (s' : mstate) :
  next_char fl s = Some (c, s') -> length (rest s') <= length (rest s).
Proof.
  intros H. apply next_char_steps in H as (m & Hm & _).
  rewrite Hm, length_app. lia.
Qed.

Lemma rep_loop_local body gs :
  (forall s k k', agree_below s k k' -> body s k = body s k') ->
  forall fuel mn mx s k k',
    agree_below s k k' ->
    rep_loop body gs k fuel mn mx s = rep_loop body gs k' fuel mn mx s.
Proof.
  intros Hbody. induction fuel as [|fuel IH]; intros mn mx s k k' Hk;
    [reflexivity|].
  cbn [rep_loop].
  assert (Hs : k s = k' s) by (apply Hk; apply Nat.le_refl).
  assert (Hmore :
    body (clear_caps gs s)
      (fun s' =>
         if Nat.eqb mn 0 && Nat.eqb (length (rest s')) (length (rest s))
         then None
         else rep_loop body gs k fuel (Nat.pred mn) (option_map Nat.pred mx) s')
    = body (clear_caps gs s)
      (fun s' =>
         if Nat.eqb mn 0 && Nat.eqb (length (rest s')) (length (rest s))
         then None
         else rep_loop body gs k' fuel (Nat.pred mn) (option_map Nat.pred mx) s')).
  { apply Hbody. intros s' Hle. unfold clear_caps in Hle. cbn [rest] in Hle.
    destruct (Nat.eqb mn 0 && _); [reflexivity|].
    apply IH. intros s2 H2. apply Hk. lia. }
  rewrite Hmore, Hs. reflexivity.
Qed.

Lemma rmatch_local (r : re) :
  forall s k k', agree_below s k k' -> rmatch fl r s k = rmatch fl r s k'.
Proof.
  induction r as [|c|neg items|r1 IH1 r2 IH2|r1 IH1 r2 IH2|mn mx r1 IH|i r1 IH| | |];
    intros s k k' Hk; cbn [rmatch];
    pose proof (Hk s (Nat.le_refl _)) as Hs.
  - exact Hs.
  - destruct (rest s) as [|ch t] eqn:E; [reflexivity|].
    destruct (chr_eq fl c ch); [|reflexivity].
    apply Hk. cbn [rest]. rewrite E. cbn [length]. lia.
  - destruct (next_char fl s) as [[c s']|] eqn:E; [|reflexivity].
    destruct (xorb neg _); [|reflexivity].
    apply Hk. eapply next_char_shorter. exact E.
  - apply IH1. intros s1 H1. apply IH2. intros s2 H2. apply Hk. lia.
  - rewrite (IH1 s k k' Hk), (IH2 s k k' Hk). reflexivity.
  - apply rep_loop_local; [exact IH|exact Hk].
  - apply IH. intros s1 H1. apply Hk. exact H1.
  - rewrite Hs. reflexivity.
  - rewrite Hs. reflexivity.
  - rewrite Hs. reflexivity.
Qed.

(** With the fuel [rmatch] gives it, or more, the repetition gives
    the same result: the fuel never runs out. *)
Lemma rep_loop_fuel body gs k :
  (forall s k1 k2, agree_below s k1 k2 -> body s k1 = body s k2) ->
  forall fuel mn mx s,
    mn + length (rest s) < fuel ->
    rep_loop body gs k fuel mn mx s = rep_loop body gs k (S fuel) mn mx s.
Proof.
  intros Hbody. induction fuel as [|fuel IH]; intros mn mx s Hf; [lia|].
  cbn [rep_loop].
  assert (Hmore :
    body (clear_caps gs s)
      (fun s' =>
         if Nat.eqb mn 0 && Nat.eqb (length (rest s')) (length (rest s))
         then None
         else rep_loop body gs k fuel (Nat.pred mn) (option_map Nat.pred mx) s')
    = body (clear_caps gs s)
      (fun s' =>
         if Nat.eqb mn 0 && Nat.eqb (length (rest s')) (length (rest s))
         then None
         else rep_loop body gs k (S fuel) (Nat.pred mn)
                (option_map Nat.pred mx) s')).
  { apply Hbody. intros s' Hle. unfold clear_caps in Hle. cbn [rest] in Hle.
    destruct (Nat.eqb mn 0) eqn:Hm0;
      destruct (Nat.eqb (length (rest s')) (length (rest s))) eqn:Hl;
      cbn [andb]; try reflexivity.
    - apply Nat.eqb_eq in Hm0. apply Nat.eqb_neq in Hl.
      apply IH. subst mn. cbn [Nat.pred]. lia.
    - apply Nat.eqb_neq in Hm0. apply IH. lia.
    - apply Nat.eqb_neq in Hm0. apply IH. lia. }
  rewrite Hmore. reflexivity.
Qed.

Lemma rmatch_rep_fuel mn mx r1 s k :
  forall extra,
    rep_loop (rmatch fl r1) (groups_of r1) k
      (extra + S (mn + length (rest s))) mn mx s =
    rmatch fl (Rep mn mx r1) s k.
Proof.
  induction extra as [|extra IH]; [reflexivity|].
  rewrite <- IH. cbn [Nat.add]. symmetry.
  apply rep_loop_fuel; [apply rmatch_local|lia].
Qed.

End Fuel.

(** ** The EAN gate *)

Section EanGate.
Context {P : Platform}.

Lemma rep_class_upto (fl : flags) (Hu : unicode fl = false) neg items k :
  forall mx t fuel mn p cs,
    length t < fuel ->
    rep_loop (rmatch fl (Class neg items)) [] k fuel mn (Some mx)
      {| prev := p; rest := t; caps := cs |} =
    greedy_upto (fun c => xorb neg (existsb (item_has fl c) items)) k
      mn mx p t cs.
Proof.
  induction mx as [|mx IH]; intros t fuel mn p cs Hf;
    (destruct fuel as [|fuel]; [inversion Hf|]);
    cbn [rep_loop greedy_upto]; [reflexivity|].
  rewrite clear_caps_nil. destruct t as [|c t].
  - rewrite class_rmatch_nil by exact Hu.
    destruct (Nat.eqb mn 0); reflexivity.
  - rewrite class_rmatch_cons by exact Hu.
    destruct (xorb neg (existsb (item_has fl c) items)).
    + cbn [rest length].
      replace (Nat.eqb (length t) (S (length t))) with false
        by (symmetry; apply Nat.eqb_neq; lia).
      rewrite andb_false_r. cbn [option_map Nat.pred].
      rewrite IH by (simpl in Hf; lia).
      destruct (Nat.eqb mn 0); [reflexivity|].
      destruct (greedy_upto _ _ _ _ _ _ _); reflexivity.
    + destruct (Nat.eqb mn 0); reflexivity.
Qed.

Lemma greedy_upto_ext (cp cp' : N -> bool) k :
  (forall c, cp c = cp' c) ->
  forall mx s mn p cs,
    greedy_upto cp k mn mx p s cs = greedy_upto cp' k mn mx p s cs.
Proof.
  intros H. induction mx as [|mx IH]; intros s mn p cs; [reflexivity|].
  cbn [greedy_upto]. destruct s as [|c t]; [reflexivity|].
  rewrite H, IH. reflexivity.
Qed.

(** Between [mn] and [mx] digits and then the end of the input: the
    input is made of digits, between [mn] and [mx] of them. *)
Lemma greedy_upto_end :
  forall mx s mn p,
    mn <= mx ->
    match greedy_upto is_digit at_end mn mx p s [] with
    | Some _ => true
    | None => false
    end = forallb is_digit s && Nat.leb mn (length s) && Nat.leb (length s) mx.
Proof.
  induction mx as [|mx IH]; intros s mn p Hm.
  - assert (mn = 0) by lia. subst mn.
    cbn [greedy_upto]. unfold at_end. cbn [rest].
    destruct s as [|c t]; [reflexivity|].
    cbn [length Nat.leb]. now rewrite andb_false_r.
  - cbn [greedy_upto]. destruct s as [|c t].
    + cbn [forallb length Nat.leb andb]. unfold at_end. cbn [rest].
      destruct mn; reflexivity.
    + cbn [forallb length]. destruct (is_digit c) eqn:Hc.
      * specialize (IH t (Nat.pred mn) (Some c)).
        rewrite <- (andb_assoc true), andb_true_l.
        replace (Nat.leb mn (S (length t)))
          with (Nat.leb (Nat.pred mn) (length t))
          by (destruct mn; reflexivity).
        change (Nat.leb (S (length t)) (S mx)) with (Nat.leb (length t) mx).
        rewrite <- IH by lia.
        destruct (greedy_upto is_digit at_end (Nat.pred mn) mx (Some c) t []);
          [reflexivity|].
        unfold at_end. cbn [rest]. destruct (Nat.eqb mn 0); reflexivity.
      * cbn [andb]. unfold at_end. cbn [rest].
        destruct (Nat.eqb mn 0); reflexivity.
Qed.

Lemma ean_match_at (p : option N) (s : jsstring) :
  match_at fl_plain ean_re p s =
    match p with
    | None => greedy_upto is_digit at_end 12 14 None s []
    | Some _ => None
    end.
Proof.
  destruct p as [c|]; [reflexivity|].
  change (match_at fl_plain ean_re None s) with
    (rep_loop (rmatch fl_plain (Class false [CDigit])) [] at_end
       (S (12 + length s)) 12 (Some 14)
       {| prev := None; rest := s; caps := [] |}).
  rewrite (@rep_class_upto fl_plain eq_refl) by (simpl; lia).
  apply greedy_upto_ext. intros c. apply orb_false_r.
Qed.

Lemma ean_search_later (t : jsstring) :
  forall c, search fl_plain ean_re (Some c) t 0 = None.
Proof.
  induction t as [|d t IH]; intros c; cbn [search]; rewrite ean_match_at.
  - reflexivity.
  - rewrite extra_units_plain by reflexivity. apply IH.
Qed.

(** The pattern [^\d{12,14}$] matches exactly the strings of 12 to 14
    ASCII digits. *)
Lemma ean_re_spec (s : jsstring) :
  regex_test fl_plain ean_re s =
    forallb is_digit s && Nat.leb 12 (length s) && Nat.leb (length s) 14.
Proof.
  unfold regex_test. rewrite <- (greedy_upto_end s None) by lia.
  destruct s as [|c t]; cbn [search]; rewrite ean_match_at.
  - destruct (greedy_upto _ _ _ _ _ _ _); reflexivity.
  - destruct (greedy_upto _ _ _ _ _ _ _); [reflexivity|].
    rewrite extra_units_plain by reflexivity.
    rewrite ean_search_later. reflexivity.
Qed.

End EanGate.

(** ** The name strategy on an example

    The first ranked page scores 3 / sqrt 12 (about 0.87), the second
    would score 1: the first one wins and the second is never
    requested. *)

Lemma score_gris :
  let s1 := similarity (tokens (str "Salon Bas Lanka"))
              (tokens (str "Salon Bas Lanka Gris")) in
  (6 / 10 <= s1)%R /\
  (s1 < similarity (tokens (str "Salon Bas Lanka"))
          (tokens (str "Salon Bas Lanka")))%R.
Proof.
  cbn zeta. rewrite !similarity_overlap.
  replace (overlap (tokens (str "Salon Bas Lanka"))
             (tokens (str "Salon Bas Lanka Gris"))) with 3
    by (vm_compute; reflexivity).
  replace (overlap (tokens (str "Salon Bas Lanka"))
             (tokens (str "Salon Bas Lanka"))) with 3
    by (vm_compute; reflexivity).
  replace (length (set_of (tokens (str "Salon Bas Lanka")))) with 3
    by (vm_compute; reflexivity).
  replace (length (set_of (tokens (str "Salon Bas Lanka Gris")))) with 4
    by (vm_compute; reflexivity).
  replace (INR 3 * INR 3)%R with (3 * 3)%R by (simpl; lra).
  replace (INR 3 * INR 4)%R with 12%R by (simpl; lra).
  replace (INR 3) with 3%R by (simpl; lra).
  rewrite sqrt_square by lra.
  assert (H4 : (sqrt 12 <= 4)%R).
  { rewrite <- (sqrt_square 4) by lra. apply sqrt_le_1_alt. lra. }
  assert (H3 : (3 < sqrt 12)%R).
  { rewrite <- (sqrt_square 3) at 1 by lra. apply sqrt_lt_1_alt. lra. }
  rewrite (Rmax_right 1 (sqrt 12)) by lra.
  rewrite (Rmax_right 1 3) by lra.
  split.
  - apply (Rmult_le_reg_r (sqrt 12)); [lra|].
    unfold Rdiv. rewrite (Rmult_assoc 3), Rinv_l by lra. lra.
  - apply (Rmult_lt_reg_r (sqrt 12)); [lra|].
    unfold Rdiv. rewrite (Rmult_assoc 3 (/ sqrt 12)), Rinv_l by lra.
    rewrite Rinv_r by lra. lra.
Qed.

Example earlier_candidate_wins :
  let s1 := similarity (tokens (str "Salon Bas Lanka"))
              (tokens (str "Salon Bas Lanka Gris")) in
  findByName Example.shop_names (str "bringo.ma") (str "Salon Bas Lanka") [] =
    (Ok (Hit (str "https://www.bringo.ma/img/gris.jpg") Example.p1
           (str "name") s1
           [NameAttempt Example.p1 (str "Salon Bas Lanka Gris") s1]),
     [(Example.search_url (str "bringo.ma") (str "Salon Bas Lanka"),
       Example.search_response);
      (Example.p1, Example.ok_page Example.page_gris)]).
Proof.
  cbn zeta. unfold findByName, bind.
  replace (cleanName (str "Salon Bas Lanka")) with (str "Salon Bas Lanka")
    by (vm_compute; reflexivity).
  replace (ddgLinks Example.shop_names
             (search_query (str "bringo.ma") (str "Salon Bas Lanka")) [])
    with (Ok [Example.p1; Example.p2],
          [(Example.search_url (str "bringo.ma") (str "Salon Bas Lanka"),
            Example.search_response)])
    by (vm_compute; reflexivity).
  cbn [name_loop]. unfold try_catch.
  replace (get_page Example.shop_names Example.p1
             [(Example.search_url (str "bringo.ma") (str "Salon Bas Lanka"),
               Example.search_response)])
    with (Ok ({| res_ok := true; res_text := Some Example.page_gris |},
              Example.page_gris),
          [(Example.search_url (str "bringo.ma") (str "Salon Bas Lanka"),
            Example.search_response);
           (Example.p1, Example.ok_page Example.page_gris)])
    by (vm_compute; reflexivity).
  replace (extractTitle Example.page_gris) with (str "Salon Bas Lanka Gris")
    by (vm_compute; reflexivity).
  rewrite (proj2 (geb_true _ _) (proj1 score_gris)).
  replace (extractImage Example.p1 Example.page_gris)
    with (Ok (Some (str "https://www.bringo.ma/img/gris.jpg")))
    by (vm_compute; reflexivity).
  reflexivity.
Qed.

(** The name strategy on that example: the first ranked page is the
    hit, read from the network, with a score of at least 0.6 that is
    strictly below the score the second page would get; the second page
    is not requested. *)
Lemma findByName_first_qualifying_witness :
  ddgLinks Example.shop_names
    (search_query (str "bringo.ma") (cleanName (str "Salon Bas Lanka"))) [] =
    (Ok [Example.p1; Example.p2],
     [(Example.search_url (str "bringo.ma") (str "Salon Bas Lanka"),
       Example.search_response)]) /\
  findByName Example.shop_names (str "bringo.ma") (str "Salon Bas Lanka") [] =
    (Ok (Hit (str "https://www.bringo.ma/img/gris.jpg") Example.p1
           (str "name")
           (similarity (tokens (str "Salon Bas Lanka"))
              (tokens (str "Salon Bas Lanka Gris")))
           [NameAttempt Example.p1 (str "Salon Bas Lanka Gris")
              (similarity (tokens (str "Salon Bas Lanka"))
                 (tokens (str "Salon Bas Lanka Gris")))]),
     [(Example.search_url (str "bringo.ma") (str "Salon Bas Lanka"),
       Example.search_response);
      (Example.p1, Example.ok_page Example.page_gris)]) /\
  served Example.shop_names
    [(Example.search_url (str "bringo.ma") (str "Salon Bas Lanka"),
      Example.search_response)]
    [(Example.p1, Example.ok_page Example.page_gris)] /\
  (6 / 10 <= similarity (tokens (str "Salon Bas Lanka"))
               (tokens (str "Salon Bas Lanka Gris")))%R /\
  qualifies (cleanName (str "Salon Bas Lanka"))
    (Example.p1, Example.ok_page Example.page_gris)
    (str "https://www.bringo.ma/img/gris.jpg")
    (similarity (tokens (str "Salon Bas Lanka"))
       (tokens (str "Salon Bas Lanka Gris"))) /\
  (similarity (tokens (str "Salon Bas Lanka"))
     (tokens (str "Salon Bas Lanka Gris")) <
   similarity (tokens (str "Salon Bas Lanka"))
     (tokens (str "Salon Bas Lanka")))%R.
Proof.
  assert (Hd : ddgLinks Example.shop_names
                 (search_query (str "bringo.ma")
                    (cleanName (str "Salon Bas Lanka"))) [] =
               (Ok [Example.p1; Example.p2],
                [(Example.search_url (str "bringo.ma") (str "Salon Bas Lanka"),
                  Example.search_response)]))
    by (vm_compute; reflexivity).
  split; [exact Hd|].
  destruct (findByName_first_qualifying Example.shop_names (str "bringo.ma")
              (str "Salon Bas Lanka") [] Hd) as (r & evs & Hrun & Hs & Hm).
  pose proof earlier_candidate_wins as E. cbn zeta in E.
  rewrite E in Hrun. injection Hrun as Hl Hr. subst r evs.
  destruct Hm as (_ & Hge & evs' & e & post & He & _ & _ & _ & Hq).
  apply (app_inj_tail [] evs') in He as [<- <-].
  split; [exact E|]. split; [exact Hs|]. split; [exact Hge|].
  split; [exact Hq|]. exact (proj2 score_gris).
Defined.

(** A malformed EAN next to a name: the name strategy runs first and
    only, and its hit is the answer. *)
Lemma invalid_ean_never_searched_witness :
  regex_test fl_plain ean_re (ean_of Example.by_bad_ean_and_name) = false /\
  handle Example.shop_names Example.by_bad_ean_and_name [] =
    (Ok (j (payload false (str "https://www.bringo.ma/img/gris.jpg")
              Example.p1 (str "name")
              (similarity (tokens (str "Salon Bas Lanka"))
                 (tokens (str "Salon Bas Lanka Gris")))
              [NameAttempt Example.p1 (str "Salon Bas Lanka Gris")
                 (similarity (tokens (str "Salon Bas Lanka"))
                    (tokens (str "Salon Bas Lanka Gris")))]) 200),
     [(Example.search_url (str "bringo.ma") (str "Salon Bas Lanka"),
       Example.search_response);
      (Example.p1, Example.ok_page Example.page_gris)]).
Proof.
  split; [reflexivity|].
  pose proof (proj1 (invalid_ean_never_searched Example.shop_names
                       Example.by_bad_ean_and_name [] eq_refl) [] []
                (or_introl (conj eq_refl (conj eq_refl eq_refl))) eq_refl)
    as H.
  change (site_of Example.by_bad_ean_and_name) with (str "bringo.ma") in H.
  change (name_of Example.by_bad_ean_and_name) with (str "Salon Bas Lanka")
    in H.
  pose proof earlier_candidate_wins as E. cbn zeta in E.
  rewrite E in H. exact H.
Defined.

(** The pattern [\b\d{6,}\b] matches somewhere in a string exactly when
    the string holds a standalone run of six or more digits. *)
Lemma long_digits_test {P : Platform} (s : jsstring) :
  regex_test fl_plain long_digits_re s = has_run None s.
Proof.
  unfold regex_test. generalize (@None N) as p.
  induction s as [|c t IH]; intros p; cbn [search has_run];
    rewrite long_digits_match_at; destruct (run_at p _); try reflexivity.
  rewrite extra_units_plain by reflexivity. apply IH.
Qed.

(** ** More on the similarity scorer *)

Lemma same_elements_length (l l' : list jsstring) :
  NoDup l -> NoDup l' -> (forall x, In x l <-> In x l') ->
  length l = length l'.
Proof.
  intros H H' E. apply Nat.le_antisymm; apply NoDup_incl_length; auto;
    intros x Hx; apply E; exact Hx.
Qed.

Lemma overlap_In (a b : list jsstring) (x : jsstring) :
  In x (filter (has (set_of b)) (set_of a)) <-> In x a /\ In x b.
Proof.
  rewrite filter_In, has_true, !set_of_In. reflexivity.
Qed.

Lemma overlap_same (a a' b b' : list jsstring) :
  (forall x, In x a <-> In x a') -> (forall x, In x b <-> In x b') ->
  overlap a b = overlap a' b'.
Proof.
  intros Ha Hb. unfold overlap. apply same_elements_length.
  - apply NoDup_filter, set_of_NoDup.
  - apply NoDup_filter, set_of_NoDup.
  - intros x. rewrite !overlap_In, Ha, Hb. reflexivity.
Qed.

Lemma set_of_same (a a' : list jsstring) :
  (forall x, In x a <-> In x a') -> length (set_of a) = length (set_of a').
Proof.
  intros H. apply same_elements_length; try apply set_of_NoDup.
  intros x. rewrite !set_of_In. apply H.
Qed.

Lemma overlap_sym (a b : list jsstring) : overlap a b = overlap b a.
Proof.
  unfold overlap. apply same_elements_length.
  - apply NoDup_filter, set_of_NoDup.
  - apply NoDup_filter, set_of_NoDup.
  - intros x. rewrite !overlap_In. tauto.
Qed.

(** X1. The score is symmetric in its two token lists. *)
Theorem similarity_symmetric (a b : list jsstring) :
  similarity a b = similarity b a.
Proof.
  rewrite !similarity_overlap, overlap_sym.
  rewrite (Rmult_comm (INR (length (set_of a)))). reflexivity.
Qed.

(** X2. The score depends on the sets of tokens only: neither the
    order of the tokens nor their repetition changes it. *)
Theorem similarity_of_sets (a a' b b' : list jsstring) :
  (forall x, In x a <-> In x a') -> (forall x, In x b <-> In x b') ->
  similarity a b = similarity a' b'.
Proof.
  intros Ha Hb. rewrite !similarity_overlap.
  rewrite (overlap_same a a' b b' Ha Hb), (set_of_same _ _ Ha),
    (set_of_same _ _ Hb).
  reflexivity.
Qed.

Lemma similarity_of_sets_witness :
  similarity [str "bas"; str "salon"; str "bas"] [str "salon"] =
  similarity [str "salon"; str "bas"] [str "salon"; str "salon"].
Proof.
  apply similarity_of_sets; intros x; simpl; tauto.
Defined.

Lemma set_of_nonempty (a : list jsstring) :
  a <> [] -> 1 <= length (set_of a).
Proof.
  intros H. destruct a as [|x a]; [congruence|].
  destruct (set_of (x :: a)) as [|y l] eqn:E; [|simpl; lia].
  assert (Hx : In x (set_of (x :: a))) by (apply set_of_In; left; reflexivity).
  rewrite E in Hx. destruct Hx.
Qed.

Lemma overlap_full (a b : list jsstring) :
  (forall x, In x a -> In x b) -> overlap a b = length (set_of a).
Proof.
  intros H. unfold overlap.
  induction (set_of a) as [|x l IH] eqn:E in H |- *.
  - reflexivity.
  - apply same_elements_length.
    + apply NoDup_filter. rewrite <- E. apply set_of_NoDup.
    + rewrite <- E. apply set_of_NoDup.
    + intros y. rewrite filter_In, has_true, set_of_In. split; [tauto|].
      intros Hy. split; [exact Hy|]. apply H. apply set_of_In.
      rewrite E. exact Hy.
Qed.

(** X3. The score is 1 exactly when the two token lists are not empty
    and hold the same tokens. *)
Theorem similarity_one (a b : list jsstring) :
  similarity a b = 1%R <-> (a <> [] /\ forall x, In x a <-> In x b).
Proof.
  rewrite similarity_overlap.
  set (na := length (set_of a)). set (nb := length (set_of b)).
  set (i := overlap a b).
  assert (Hia : i <= na) by apply overlap_le_left.
  assert (Hib : i <= nb) by apply overlap_le_right.
  assert (Hden : (1 <= Rmax 1 (sqrt (INR na * INR nb)))%R) by apply Rmax_l.
  split.
  - intros H.
    assert (Hi : INR i = Rmax 1 (sqrt (INR na * INR nb))).
    { apply (Rmult_eq_reg_r (/ Rmax 1 (sqrt (INR na * INR nb)))).
      - unfold Rdiv in H. rewrite H, Rinv_r by lra. reflexivity.
      - apply Rinv_neq_0_compat. lra. }
    assert (Hi1 : 1 <= i).
    { apply INR_le. simpl INR. lra. }
    assert (Hsq : (sqrt (INR na * INR nb) <= INR i)%R)
      by (rewrite Hi; apply Rmax_r).
    assert (Hprod : na * nb <= i * i).
    { apply INR_le. rewrite !mult_INR.
      apply sqrt_le_0.
      - apply Rmult_le_pos; apply pos_INR.
      - apply Rmult_le_pos; apply pos_INR.
      - rewrite (sqrt_square (INR i)) by apply pos_INR. exact Hsq. }
    assert (Hna : na = i) by nia. assert (Hnb : nb = i) by nia.
    assert (Hsub : forall x, In x a -> In x b).
    { intros x Hx.
      assert (Hin : incl (set_of a) (filter (has (set_of b)) (set_of a))).
      { apply NoDup_length_incl.
        - apply NoDup_filter, set_of_NoDup.
        - fold (overlap a b). fold i. fold na. lia.
        - intros y Hy. apply filter_In in Hy. tauto. }
      apply set_of_In in Hx. apply Hin in Hx.
      apply overlap_In in Hx. tauto. }
    split.
    + intros ->. subst na. simpl in Hna. lia.
    + intros x. split; [apply Hsub|].
      intros Hx.
      assert (Hin : incl (set_of b) (filter (has (set_of b)) (set_of a))).
      { apply NoDup_length_incl.
        - apply NoDup_filter, set_of_NoDup.
        - fold (overlap a b). fold i. fold nb. lia.
        - intros y Hy. apply overlap_In in Hy. apply set_of_In. tauto. }
      apply set_of_In in Hx. apply Hin in Hx.
      apply overlap_In in Hx. tauto.
  - intros [Hne Hs].
    assert (Hi : i = na) by (apply overlap_full; intros x; apply Hs).
    assert (Hn : nb = na) by (symmetry; apply set_of_same; exact Hs).
    assert (H1 : 1 <= na) by (apply set_of_nonempty; exact Hne).
    rewrite Hi, Hn, sqrt_square by apply pos_INR.
    assert (H1' : (1 <= INR na)%R) by (apply (le_INR 1); exact H1).
    rewrite Rmax_right by exact H1'.
    unfold Rdiv. apply Rinv_r. lra.
Qed.

Lemma similarity_one_witness :
  similarity [str "salon"; str "bas"] [str "bas"; str "salon"; str "bas"]
    = 1%R.
Proof.
  apply (proj2 (similarity_one _ _)). split; [discriminate|].
  intros x; simpl; tauto.
Defined.

(** ** More on [escapeReg] and the EAN gate *)

(** X4. [escapeReg] puts a backslash before each of the fourteen syntax
    characters and copies every other code unit; the text it produces
    always reads back, as a pattern, as the characters of the string;
    and a string without syntax characters, a digit string for one, is
    left as it is. *)
Theorem escapeReg_literal {P : Platform} :
  (forall s,
      escapeReg s =
        flat_map (fun c => if is_syntax c then [92%N; c] else [c]) s) /\
  (forall s, parse_literal (escapeReg s) = Some (lits s)) /\
  (forall s, forallb is_digit s = true -> escapeReg s = s).
Proof.
  split; [apply escapeReg_spec|]. split; [apply parse_escaped|].
  intros s H. rewrite escapeReg_spec.
  induction s as [|c s IH]; [reflexivity|].
  cbn [forallb] in H. apply andb_true_iff in H as [Hc Hs].
  cbn [flat_map]. rewrite (IH Hs).
  replace (is_syntax c) with false; [reflexivity|].
  symmetry. revert Hc. unfold is_digit, in_range, is_syntax, syntax_chars.
  cbn [existsb]. intros Hc. apply andb_true_iff in Hc as [H1 H2].
  apply N.leb_le in H1, H2.
  repeat match goal with
         | |- context [N.eqb c ?k] => destruct (N.eqb_spec c k); [lia|]
         end.
  reflexivity.
Qed.

Lemma escapeReg_literal_witness :
  escapeReg (str "694062") = str "694062".
Proof.
  apply (proj2 (proj2 escapeReg_literal)). reflexivity.
Defined.

(** X5. The EAN strategy is open to exactly the values made of 12, 13
    or 14 ASCII digits. *)
Theorem ean_valid_spec {P : Platform} (ean : jsstring) :
  ean_valid ean =
    forallb is_digit ean && Nat.leb 12 (length ean) && Nat.leb (length ean) 14.
Proof.
  unfold ean_valid. rewrite ean_re_spec.
  destruct ean as [|c t]; [|reflexivity].
  cbn. reflexivity.
Qed.

(** ** More on the candidate source and the strategies *)

Section MoreStrategies.
Context {P : Platform} (net : network).

Lemma ddgLinks_run (query : jsstring) (l : list event) :
  ddgLinks net query l =
    (match page_of (search_request query, net l (search_request query)) with
     | Some (_, html) => Ok (firstn 8 (links_of html))
     | None => Throw
     end,
     l ++ [(search_request query, net l (search_request query))]).
Proof.
  unfold ddgLinks, bind, fetch, text, page_of, search_request. cbn [snd].
  destruct (net l _) as [r|]; [|reflexivity].
  destruct (res_text r); reflexivity.
Qed.

(** X6. The candidate source makes one request, the search.  When the
    search page is read it returns at most eight candidates, every one
    of them an URL that parses and whose hostname contains bringo.ma;
    when the request or the reading of its body fails, it throws. *)
Theorem ddgLinks_contract (query : jsstring) (l : list event) :
  exists o,
    ddgLinks net query l =
      (o, l ++ [(search_request query, net l (search_request query))]) /\
    match o with
    | Ok cands =>
        (exists ok html,
            page_of (search_request query, net l (search_request query))
              = Some (ok, html)) /\
        length cands <= 8 /\
        forall c, In c cands ->
          exists u, parseURL c = Some u /\
                    includes (str "bringo.ma") (hostname u) = true
    | Throw =>
        page_of (search_request query, net l (search_request query)) = None
    end.
Proof.
  rewrite ddgLinks_run.
  destruct (page_of _) as [[ok html]|] eqn:E.
  - eexists. split; [reflexivity|]. split; [|split].
    + exists ok, html. reflexivity.
    + apply firstn_le_length.
    + intros c Hc. now apply candidates_on_bringo in Hc.
  - eexists. split; reflexivity.
Qed.

(** The loop of [findByToken], as that of [findByName]: a hit is the
    last candidate requested, it qualifies, and the candidates before
    it were rejected. *)
Lemma token_loop_first_hit (accept : jsstring -> outcome bool)
    (results : list jsstring) :
  forall tried l,
  exists r evs,
    token_loop net accept results tried l = (Ok r, l ++ evs) /\
    match r with
    | Hit img c m s t =>
        m = str "subcode/ean" /\ s = 1%R /\
        exists evs' e post,
          evs = evs' ++ [e] /\
          Forall (token_rejected accept) evs' /\
          token_qualifies accept e img /\
          fst e = c /\
          results = map fst evs' ++ c :: post
    | Miss t =>
        map fst evs = results /\ Forall (token_rejected accept) evs
    end.
Proof.
  induction results as [|c more IH]; intros tried l.
  - exists (Miss tried), []. simpl. unfold ret.
    rewrite !app_nil_r. repeat split. constructor.
  - destruct (get_page_run net c l) as (o & _ & Hrun). simpl in Hrun.
    cbn [token_loop]. unfold try_catch. rewrite Hrun.
    assert (Hnext : forall tried0,
      token_rejected accept (c, o) ->
      exists r evs,
        token_loop net accept more tried0 (l ++ [(c, o)]) = (Ok r, l ++ evs) /\
        match r with
        | Hit img c' m s t =>
            m = str "subcode/ean" /\ s = 1%R /\
            exists evs' e post,
              evs = evs' ++ [e] /\
              Forall (token_rejected accept) evs' /\
              token_qualifies accept e img /\
              fst e = c' /\
              c :: more = map fst evs' ++ c' :: post
        | Miss t =>
            map fst evs = c :: more /\ Forall (token_rejected accept) evs
        end).
    { intros tried0 Hrej.
      destruct (IH tried0 (l ++ [(c, o)])) as (r & evs & Hr & Hb).
      exists r, ((c, o) :: evs). split.
      - rewrite Hr. f_equal. rewrite <- app_assoc. reflexivity.
      - destruct r as [img c' m s t|t].
        + destruct Hb as (Hm & Hs & evs' & e & post & -> & Hall & Hq & Hc & ->).
          split; [exact Hm|]. split; [exact Hs|].
          exists ((c, o) :: evs'), e, post. repeat split; auto.
        + destruct Hb as [<- Hall]. split; [reflexivity|].
          constructor; assumption. }
    destruct (page_of (c, o)) as [[ok html]|] eqn:Hp.
    + destruct o as [r0|]; [|discriminate].
      assert (Hq : forall img, token_qualifies accept (c, Some r0) img ->
                accept html = Ok true /\
                extractImage c html = Ok (Some img) /\ truthy img = true).
      { intros img (ok' & html' & Hp' & Ha & Hi & Ht).
        rewrite Hp in Hp'. inversion Hp'; subst html' ok'. auto. }
      destruct (accept html) as [[|]|] eqn:Ha.
      2,3: apply Hnext; intros img Hqs; apply Hq in Hqs as (Hf & _);
           discriminate.
      destruct (extractImage c html) as [[img|]|] eqn:Hi.
      2,3: apply Hnext; intros img' Hqs; apply Hq in Hqs as (_ & Hf & _);
           discriminate.
      destruct (truthy img) eqn:Ht.
      2:{ apply Hnext. intros img' Hqs. apply Hq in Hqs as (_ & Hf & Ht').
          inversion Hf; subst img'. congruence. }
      eexists (Hit img c (str "subcode/ean") 1 _), [(c, Some r0)].
      split; [reflexivity|]. split; [reflexivity|]. split; [reflexivity|].
      exists [], (c, Some r0), more. repeat split; auto.
      exists ok, html. repeat split; auto.
    + assert (Hrej : token_rejected accept (c, o)).
      { intros img (ok' & html' & Hp' & _). congruence. }
      destruct o; apply Hnext; auto.
Qed.

(** X7. A token strategy, once the search has returned its ranked
    candidates, always returns, and the pages it reads are those the
    network serves for the candidates it requests, in rank order.  A hit
    is matched by subcode/ean with score 1; the candidate it names is
    the first in rank order whose page was read (whatever its HTTP
    status: the status is recorded in the trace and never tested),
    passed the acceptance test and gave an image: a page that passes the
    test but gives no image is passed over, and no candidate ranked
    after the hit is requested.  A miss means that every candidate was
    requested and rejected. *)
Theorem findByToken_first_accepted site token accept l results l1 :
  ddgLinks net (search_query site token) l = (Ok results, l1) ->
  exists r evs,
    findByToken net site token accept l = (Ok r, l1 ++ evs) /\
    served net l1 evs /\
    match r with
    | Hit img c m s t =>
        m = str "subcode/ean" /\ s = 1%R /\
        exists evs' e post,
          evs = evs' ++ [e] /\ fst e = c /\
          results = map fst evs' ++ c :: post /\
          Forall (token_rejected accept) evs' /\
          token_qualifies accept e img
    | Miss t =>
        map fst evs = results /\ Forall (token_rejected accept) evs
    end.
Proof.
  intros Hd. unfold findByToken, bind. rewrite Hd.
  destruct (token_loop_first_hit accept results [] l1) as (r & evs & Hr & Hb).
  assert (Hserved : served net l1 evs).
  { destruct (token_loop_served net accept results [] l1)
      as (o & evs2 & Hr2 & Hs2).
    rewrite Hr in Hr2. injection Hr2 as _ Hl.
    apply app_inv_head in Hl. subst evs2. exact Hs2. }
  exists r, evs. split; [exact Hr|]. split; [exact Hserved|].
  destruct r as [img c m s t|t]; [|exact Hb].
  destruct Hb as (Hm & Hs & evs' & e & post & He & Hall & Hq & Hc & Hres).
  split; [exact Hm|]. split; [exact Hs|].
  exists evs', e, post. auto.
Qed.

End MoreStrategies.

(** A page served with an error status is a hit all the same, and the
    trace records the status. *)
Lemma findByToken_first_accepted_witness :
  ddgLinks Example.shop_errors
    (search_query (str "bringo.ma") (str "694062")) [] =
    (Ok [Example.p1; Example.p2],
     [(Example.search_url (str "bringo.ma") (str "694062"),
       Example.search_response)]) /\
  findByToken Example.shop_errors (str "bringo.ma") (str "694062")
    (accept_subcode (str "694062")) [] =
    (Ok (Hit (str "https://www.bringo.ma/img/x.jpg") Example.p1
           (str "subcode/ean") 1 [TokenAttempt Example.p1 false]),
     [(Example.search_url (str "bringo.ma") (str "694062"),
       Example.search_response);
      (Example.p1, Example.error_page)]) /\
  served Example.shop_errors
    [(Example.search_url (str "bringo.ma") (str "694062"),
      Example.search_response)]
    [(Example.p1, Example.error_page)] /\
  token_qualifies (accept_subcode (str "694062"))
    (Example.p1, Example.error_page)
    (str "https://www.bringo.ma/img/x.jpg").
Proof.
  assert (Hd : ddgLinks Example.shop_errors
                 (search_query (str "bringo.ma") (str "694062")) [] =
               (Ok [Example.p1; Example.p2],
                [(Example.search_url (str "bringo.ma") (str "694062"),
                  Example.search_response)]))
    by (vm_compute; reflexivity).
  split; [exact Hd|].
  destruct (findByToken_first_accepted Example.shop_errors (str "bringo.ma")
              (str "694062") (accept_subcode (str "694062")) [] Hd)
    as (r & evs & Hrun & Hs & Hm).
  assert (E : findByToken Example.shop_errors (str "bringo.ma") (str "694062")
                (accept_subcode (str "694062")) [] =
              (Ok (Hit (str "https://www.bringo.ma/img/x.jpg") Example.p1
                     (str "subcode/ean") 1 [TokenAttempt Example.p1 false]),
               [(Example.search_url (str "bringo.ma") (str "694062"),
                 Example.search_response);
                (Example.p1, Example.error_page)]))
    by (vm_compute; reflexivity).
  rewrite E in Hrun. injection Hrun as Hl Hr. subst r evs.
  destruct Hm as (_ & _ & evs' & e & post & He & _ & _ & _ & Hq).
  apply (app_inj_tail [] evs') in He as [<- <-].
  split; [exact E|]. split; [exact Hs|]. exact Hq.
Defined.

(** ** More on the dispatcher *)

Lemma firstn_map_length {A B} (f : A -> B) (evs : list A) (n : nat)
    (results : list B) :
  map f evs = firstn n results -> length evs <= length results.
Proof.
  intros H. apply (f_equal (@length B)) in H.
  rewrite length_map in H. rewrite H, length_firstn. lia.
Qed.

Section MoreDispatcher.
Context {P : Platform} (net : network).

(** A strategy extends the log by its search request and by at most
    eight page requests; it throws only when the search failed. *)
Lemma findByToken_requests site token accept l :
  exists o evs,
    findByToken net site token accept l = (o, l ++ evs) /\
    length evs <= 9 /\
    match o with Ok _ => True | Throw => search_failed (l ++ evs) end.
Proof.
  unfold findByToken, bind. rewrite ddgLinks_run.
  set (e := (search_request (search_query site token), _)).
  destruct (page_of e) as [[ok html]|] eqn:E.
  - destruct (token_loop_trace net accept (firstn 8 (links_of html)) []
                (l ++ [e])) as (r & evs & Hr & _ & n & Hn).
    exists (Ok r), (e :: evs). split; [|split; [|exact I]].
    + rewrite Hr. f_equal. rewrite <- app_assoc. reflexivity.
    + apply firstn_map_length in Hn.
      pose proof (firstn_le_length 8 (@links_of P html)) as H8. cbn [length].
      apply le_n_S. exact (Nat.le_trans _ _ _ Hn H8).
  - exists Throw, [e]. split; [reflexivity|]. split; [simpl; lia|].
    exists l, (search_query site token), (snd e). split; [reflexivity|].
    exact E.
Qed.

Lemma findByName_requests site rawName l :
  exists o evs,
    findByName net site rawName l = (o, l ++ evs) /\
    length evs <= 9 /\
    match o with Ok _ => True | Throw => search_failed (l ++ evs) end.
Proof.
  unfold findByName, bind. rewrite ddgLinks_run.
  set (e := (search_request (search_query site (cleanName rawName)), _)).
  destruct (page_of e) as [[ok html]|] eqn:E.
  - destruct (name_loop_first_hit net (cleanName rawName)
                (firstn 8 (links_of html)) [] (l ++ [e]))
      as (best & tried' & evs & Hr & _ & Hb).
    rewrite Hr.
    assert (Hlen : length evs <= 8).
    { pose proof (firstn_le_length 8 (@links_of P html)) as H8.
      refine (Nat.le_trans _ _ _ _ H8).
      destruct best as [[[img c] s]|].
      - destruct Hb as (evs' & e0 & post & -> & _ & _ & _ & Hres).
        rewrite Hres, !length_app, length_map. cbn [length].
        unfold event. lia.
      - destruct Hb as [Hres _]. rewrite <- Hres, length_map.
        apply Nat.le_refl. }
    destruct best as [[[img c] s]|];
      eexists (Ok _), (e :: evs);
      (split; [|split; [cbn [length]; lia|exact I]]);
      rewrite <- app_assoc; reflexivity.
  - exists Throw, [e]. split; [reflexivity|]. split; [simpl; lia|].
    exists l, (search_query site (cleanName rawName)), (snd e).
    split; [reflexivity|]. exact E.
Qed.

Lemma attempt_strategy_requests (debug : bool) (run : M strategy_result)
    (next : list (list attempt) -> M http_response) (a b : nat) :
  (forall l, exists o evs,
      run l = (o, l ++ evs) /\ length evs <= a /\
      match o with Ok _ => True | Throw => search_failed (l ++ evs) end) ->
  (forall tried l, exists o evs,
      next tried l = (o, l ++ evs) /\ length evs <= b /\
      match o with Ok _ => True | Throw => search_failed (l ++ evs) end) ->
  forall tried l, exists o evs,
    attempt_strategy debug run tried next l = (o, l ++ evs) /\
    length evs <= a + b /\
    match o with Ok _ => True | Throw => search_failed (l ++ evs) end.
Proof.
  intros Hrun Hnext tried l. unfold attempt_strategy, bind.
  destruct (Hrun l) as (o & evs & Hr & Hl & Ho). rewrite Hr.
  destruct o as [[i p m s t|t]|].
  - eexists (Ok _), evs. split; [reflexivity|]. split; [lia|exact I].
  - destruct (Hnext (tried ++ [result_tried (Miss t)]) (l ++ evs))
      as (o2 & evs2 & Hr2 & Hl2 & Ho2).
    exists o2, (evs ++ evs2). rewrite app_assoc. split; [exact Hr2|].
    split; [rewrite length_app; lia|exact Ho2].
  - exists Throw, evs. split; [reflexivity|]. split; [lia|exact Ho].
Qed.

Lemma ret_requests (resp : http_response) (b : nat) :
  forall l, exists o evs,
    ret resp l = (o, l ++ evs) /\ length evs <= b /\
    match o with Ok _ => True | Throw => search_failed (l ++ evs) end.
Proof.
  intros l. exists (Ok resp), []. rewrite app_nil_r.
  split; [reflexivity|]. split; [simpl; lia|exact I].
Qed.

Lemma try_name_requests site name debug :
  forall tried l, exists o evs,
    try_name net site name debug tried l = (o, l ++ evs) /\
    length evs <= 9 /\
    match o with Ok _ => True | Throw => search_failed (l ++ evs) end.
Proof.
  intros tried l. unfold try_name. destruct (truthy name).
  - apply attempt_strategy_requests with (a := 9) (b := 0).
    + apply findByName_requests.
    + intros t l0. apply ret_requests.
  - apply ret_requests.
Qed.

Lemma try_ean_requests site ean name debug :
  forall tried l, exists o evs,
    try_ean net site ean name debug tried l = (o, l ++ evs) /\
    length evs <= 18 /\
    match o with Ok _ => True | Throw => search_failed (l ++ evs) end.
Proof.
  intros tried l. unfold try_ean. destruct (ean_valid ean).
  - apply attempt_strategy_requests with (a := 9) (b := 9).
    + apply findByToken_requests.
    + apply try_name_requests.
  - destruct (try_name_requests site name debug tried l)
      as (o & evs & H & Hl & Ho).
    exists o, evs. split; [exact H|]. split; [lia|exact Ho].
Qed.

Lemma try_subcode_requests site subcode ean name debug :
  forall tried l, exists o evs,
    try_subcode net site subcode ean name debug tried l = (o, l ++ evs) /\
    length evs <= 27 /\
    match o with Ok _ => True | Throw => search_failed (l ++ evs) end.
Proof.
  intros tried l. unfold try_subcode. destruct (truthy subcode).
  - apply attempt_strategy_requests with (a := 9) (b := 18).
    + apply findByToken_requests.
    + apply try_ean_requests.
  - destruct (try_ean_requests site ean name debug tried l)
      as (o & evs & H & Hl & Ho).
    exists o, evs. split; [exact H|]. split; [lia|exact Ho].
Qed.

(** X8. Whatever the network answers, the handler only adds to the log
    of requests, and adds at most 27 of them: per strategy one search
    and at most eight candidate pages. *)
Theorem handle_request_bound (req : request) (l : list event) :
  exists o evs, handle net req l = (o, l ++ evs) /\ length evs <= 27.
Proof.
  unfold handle. destruct (negb _ && negb _ && negb _).
  - exists (Ok (j (ErrorBody (str "Provide subcode, ean or name.")) 400)), [].
    rewrite app_nil_r. split; [reflexivity|simpl; lia].
  - destruct (try_subcode_requests (site_of req) (subcode_of req)
                (ean_of req) (name_of req) (q_debug req) [] l)
      as (o & evs & H & Hl & _).
    exists o, evs. split; assumption.
Qed.

(** X9. The handler throws only when a search request failed, and that
    request is then the last of the log; and when the request names a
    subcode and the search for it fails, the handler does throw, having
    made that one request. *)
Theorem handle_throws (req : request) (l : list event) :
  (forall l', handle net req l = (Throw, l') -> search_failed l') /\
  (truthy (subcode_of req) = true ->
   page_of (search_request (search_query (site_of req) (subcode_of req)),
            net l (search_request
                     (search_query (site_of req) (subcode_of req)))) = None ->
   handle net req l =
     (Throw,
      l ++ [(search_request (search_query (site_of req) (subcode_of req)),
             net l (search_request
                      (search_query (site_of req) (subcode_of req))))])).
Proof.
  split.
  - intros l' H. unfold handle in H.
    destruct (negb _ && negb _ && negb _); [discriminate|].
    destruct (try_subcode_requests (site_of req) (subcode_of req)
                (ean_of req) (name_of req) (q_debug req) [] l)
      as (o & evs & H' & _ & Ho).
    rewrite H' in H. injection H as -> <-. exact Ho.
  - intros Hs Hp.
    rewrite handle_some_identifier by (rewrite Hs; reflexivity).
    unfold try_subcode. rewrite Hs.
    unfold attempt_strategy, findByToken, bind.
    rewrite ddgLinks_run, Hp. reflexivity.
Qed.

End MoreDispatcher.

Lemma handle_throws_witness :
  handle (fun _ _ => None) Example.by_subcode_and_name [] =
    (Throw,
     [(search_request (search_query (str "bringo.ma") (str "694062")),
       None)]).
Proof.
  apply (proj2 (handle_throws (fun _ _ => None)
                  Example.by_subcode_and_name [])); reflexivity.
Defined.

Section Answers.
Context {P : Platform} (net : network).

Lemma findByToken_hit site token accept l i p m s t l' :
  findByToken net site token accept l = (Ok (Hit i p m s t), l') ->
  truthy i = true /\ m = str "subcode/ean" /\ s = 1%R.
Proof.
  unfold findByToken, bind. rewrite ddgLinks_run.
  destruct (page_of _) as [[ok html]|]; [|discriminate].
  destruct (token_loop_first_hit net accept (firstn 8 (links_of html)) []
              (l ++ [(search_request (search_query site token),
                      net l (search_request (search_query site token)))]))
    as (r & evs & Hr & Hb).
  rewrite Hr. intros H. injection H as -> _.
  destruct Hb as (Hm & Hs & evs' & e & post & _ & _ & Hq & _).
  destruct Hq as (ok' & html' & _ & _ & _ & Ht). auto.
Qed.

Lemma findByName_hit site rawName l i p m s t l' :
  findByName net site rawName l = (Ok (Hit i p m s t), l') ->
  truthy i = true /\ m = str "name" /\ (6 / 10 <= s)%R /\
  exists title,
    s = similarity (tokens (cleanName rawName)) (tokens title).
Proof.
  unfold findByName, bind. rewrite ddgLinks_run.
  destruct (page_of _) as [[ok html]|]; [|discriminate].
  destruct (name_loop_first_hit net (cleanName rawName)
              (firstn 8 (links_of html)) []
              (l ++ [(search_request
                        (search_query site (cleanName rawName)),
                      net l (search_request
                               (search_query site (cleanName rawName))))]))
    as (best & tried' & evs & Hr & _ & Hb).
  rewrite Hr. destruct best as [[[img c] sc]|]; [|discriminate].
  intros H. injection H as -> _ <- -> _.
  destruct Hb as (evs' & e & post & _ & _ & Hq & _).
  destruct Hq as (ok' & html' & _ & Hs & Hge & _ & Ht).
  repeat split; auto. exists (extractTitle html'). exact Hs.
Qed.

Lemma attempt_strategy_resolved (debug : bool) (run : M strategy_result)
    (next : list (list attempt) -> M http_response) (k : nat) :
  (forall l i p m s t l',
      run l = (Ok (Hit i p m s t), l') ->
      truthy i = true /\
      ((m = str "subcode/ean" /\ s = 1%R) \/
       (m = str "name" /\ (6 / 10 <= s)%R))) ->
  (forall tried l resp l',
      length tried <= S k -> next tried l = (Ok resp, l') ->
      headers resp = json_headers /\ resolved debug resp) ->
  forall tried l resp l',
    length tried <= k ->
    attempt_strategy debug run tried next l = (Ok resp, l') ->
    headers resp = json_headers /\ resolved debug resp.
Proof.
  intros Hrun Hnext tried l resp l' Hk. unfold attempt_strategy, bind.
  destruct (run l) as [[[i p m s t|t]|] l1] eqn:E; [| |discriminate].
  - intros H. injection H as <- _. destruct (Hrun _ _ _ _ _ _ _ E) as [Ht Hm].
    split; [reflexivity|]. left. split; [reflexivity|].
    exists i, p, m, s, t. auto.
  - apply Hnext. rewrite length_app. cbn [length]. lia.
Qed.

Lemma not_found_resolved (debug : bool) (tried : list (list attempt)) l resp l' :
  length tried <= 3 ->
  ret (not_found tried) l = (Ok resp, l') ->
  headers resp = json_headers /\ resolved debug resp.
Proof.
  intros Hk H. injection H as <- _. split; [reflexivity|]. right.
  split; [reflexivity|]. exists tried. auto.
Qed.

Lemma try_name_resolved site name debug tried l resp l' :
  length tried <= 2 ->
  try_name net site name debug tried l = (Ok resp, l') ->
  headers resp = json_headers /\ resolved debug resp.
Proof.
  intros Hk. unfold try_name. destruct (truthy name).
  - apply attempt_strategy_resolved with (k := 2); [| |exact Hk].
    + intros l0 i p m s t l0' H. apply findByName_hit in H as (Ht & Hm & Hs & _).
      auto.
    + intros tried0 l0 resp0 l0' H3. now apply not_found_resolved.
  - apply not_found_resolved. lia.
Qed.

Lemma try_ean_resolved site ean name debug tried l resp l' :
  length tried <= 1 ->
  try_ean net site ean name debug tried l = (Ok resp, l') ->
  headers resp = json_headers /\ resolved debug resp.
Proof.
  intros Hk. unfold try_ean. destruct (ean_valid ean).
  - apply attempt_strategy_resolved with (k := 1); [| |exact Hk].
    + intros l0 i p m s t l0' H. apply findByToken_hit in H as (Ht & Hm & Hs).
      auto.
    + intros tried0 l0 resp0 l0' H2. now apply try_name_resolved.
  - apply try_name_resolved. lia.
Qed.

Lemma try_subcode_resolved site subcode ean name debug l resp l' :
  try_subcode net site subcode ean name debug [] l = (Ok resp, l') ->
  headers resp = json_headers /\ resolved debug resp.
Proof.
  unfold try_subcode. destruct (truthy subcode).
  - apply attempt_strategy_resolved with (k := 0); [| |apply Nat.le_refl].
    + intros l0 i p m s t l0' H. apply findByToken_hit in H as (Ht & Hm & Hs).
      auto.
    + intros tried0 l0 resp0 l0' H1. now apply try_ean_resolved.
  - apply try_ean_resolved. cbn [length]. lia.
Qed.

(** X10. Every response of the handler carries the same three headers
    and has one of three shapes.  Status 400 with the error body, with
    no request made, exactly when subcode, ean and name are all empty
    after trimming.  Otherwise status 200 with a match, whose image URL
    is not empty, matched by subcode/ean with score 1 or by name with a
    score of at least 0.6, and carrying a trace only when debug is set;
    or status 404 with score 0 and at most three traces. *)
Theorem handle_answer (req : request) (l : list event)
    (resp : http_response) (l' : list event) :
  handle net req l = (Ok resp, l') ->
  headers resp = json_headers /\
  ((truthy (subcode_of req) || truthy (ean_of req) || truthy (name_of req)
      = false /\
    status resp = 400 /\
    body resp = ErrorBody (str "Provide subcode, ean or name.") /\ l' = l)
   \/
   (truthy (subcode_of req) || truthy (ean_of req) || truthy (name_of req)
      = true /\
    resolved (q_debug req) resp)).
Proof.
  destruct (truthy (subcode_of req) || truthy (ean_of req)
            || truthy (name_of req)) eqn:E.
  - rewrite handle_some_identifier by exact E. intros H.
    apply try_subcode_resolved in H as [Hh Hr]. auto.
  - unfold handle.
    apply orb_false_iff in E as [E E3]. apply orb_false_iff in E as [E1 E2].
    rewrite E1, E2, E3. cbn [negb andb]. intros H. injection H as <- <-.
    split; [reflexivity|]. left. auto.
Qed.

(** X11. When every strategy the request calls for has run and missed,
    the answer is status 404 with score 0 and the traces of the
    strategies that ran, in the order subcode, EAN, name, whether debug
    is set or not; the log ends where the last strategy ended. *)
Theorem handle_exhausted (req : request) (l l1 l2 l3 : list event)
    (t1 t2 t3 : list (list attempt)) :
  truthy (subcode_of req) || truthy (ean_of req) || truthy (name_of req)
    = true ->
  subcode_passed net req l l1 t1 ->
  ean_passed net req l1 l2 t1 t2 ->
  name_passed net req l2 l3 t2 t3 ->
  handle net req l =
    (Ok {| status := 404; headers := json_headers;
           body := NoMatchBody 0 t3 |}, l3).
Proof.
  intros Hid Hs He Hn.
  rewrite handle_some_identifier by exact Hid.
  rewrite (try_subcode_passed Hs), (try_ean_passed He).
  unfold try_name.
  destruct Hn as [(Hn & -> & ->)|(Hn & t & Hrun & ->)]; rewrite Hn.
  - reflexivity.
  - rewrite (attempt_strategy_miss _ _ _ _ _ Hrun). reflexivity.
Qed.

Lemma similarity_nil_l (b : list jsstring) : similarity [] b = 0%R.
Proof.
  rewrite similarity_overlap. replace (overlap [] b) with 0 by reflexivity.
  simpl. unfold Rdiv. apply Rmult_0_l.
Qed.

(** X12. A name whose cleaned form holds no token never matches: the
    name strategy returns a miss, whatever the candidate pages are. *)
Theorem findByName_without_tokens site rawName l r l' :
  tokens (cleanName rawName) = [] ->
  findByName net site rawName l = (Ok r, l') ->
  exists t, r = Miss t.
Proof.
  intros Ht H. destruct r as [i p m s t|t]; [|exists t; reflexivity].
  apply findByName_hit in H as (_ & _ & Hs & title & Heq).
  rewrite Ht, similarity_nil_l in Heq. subst s. lra.
Qed.

End Answers.

Lemma handle_answer_witness :
  headers (j (payload false (str "https://www.bringo.ma/img/x.jpg")
                Example.p1 (str "subcode/ean") 1
                [TokenAttempt Example.p1 true]) 200) = json_headers /\
  ((truthy (subcode_of Example.by_subcode_and_name)
    || truthy (ean_of Example.by_subcode_and_name)
    || truthy (name_of Example.by_subcode_and_name) = false /\
    status (j (payload false (str "https://www.bringo.ma/img/x.jpg")
                 Example.p1 (str "subcode/ean") 1
                 [TokenAttempt Example.p1 true]) 200) = 400 /\
    body (j (payload false (str "https://www.bringo.ma/img/x.jpg")
               Example.p1 (str "subcode/ean") 1
               [TokenAttempt Example.p1 true]) 200)
      = ErrorBody (str "Provide subcode, ean or name.") /\
    [(Example.search_url (str "bringo.ma") (str "694062"),
      Example.search_response);
     (Example.p1, Example.ok_page Example.product_page)] = [])
   \/
   (truthy (subcode_of Example.by_subcode_and_name)
    || truthy (ean_of Example.by_subcode_and_name)
    || truthy (name_of Example.by_subcode_and_name) = true /\
    resolved (q_debug Example.by_subcode_and_name)
      (j (payload false (str "https://www.bringo.ma/img/x.jpg")
            Example.p1 (str "subcode/ean") 1
            [TokenAttempt Example.p1 true]) 200))).
Proof.
  apply (handle_answer Example.shop Example.by_subcode_and_name []).
  vm_compute. reflexivity.
Defined.

Lemma handle_exhausted_witness :
  handle Example.shop Example.by_unknown_subcode [] =
    (Ok {| status := 404; headers := json_headers;
           body := NoMatchBody 0
                     [[TokenAttempt Example.p1 true;
                       TokenAttempt Example.p2 true]] |},
     [(Example.search_url (str "bringo.ma") (str "000111"),
       Example.search_response);
      (Example.p1, Example.ok_page Example.product_page);
      (Example.p2, Example.ok_page Example.product_page)]).
Proof.
  apply (@handle_exhausted _ Example.shop Example.by_unknown_subcode []
           [(Example.search_url (str "bringo.ma") (str "000111"),
             Example.search_response);
            (Example.p1, Example.ok_page Example.product_page);
            (Example.p2, Example.ok_page Example.product_page)]
           [(Example.search_url (str "bringo.ma") (str "000111"),
             Example.search_response);
            (Example.p1, Example.ok_page Example.product_page);
            (Example.p2, Example.ok_page Example.product_page)]
           _
           [[TokenAttempt Example.p1 true; TokenAttempt Example.p2 true]]
           [[TokenAttempt Example.p1 true; TokenAttempt Example.p2 true]]
           _).
  - reflexivity.
  - right. split; [reflexivity|]. eexists. split; [|reflexivity].
    vm_compute. reflexivity.
  - left. repeat split.
  - left. repeat split.
Defined.

Lemma findByName_without_tokens_witness :
  exists r l' t,
    findByName Example.shop (str "bringo.ma") (str "(promo) 123456789") []
      = (Ok r, l') /\
    r = Miss t.
Proof.
  destruct (@findByName_trace _ Example.shop (str "bringo.ma")
              (str "(promo) 123456789") []
              [Example.p1; Example.p2]
              [(Example.search_url (str "bringo.ma") [],
                Example.search_response)])
    as (r & evs & Hr & _).
  { vm_compute. reflexivity. }
  assert (Hno : tokens (cleanName (str "(promo) 123456789")) = [])
    by (vm_compute; reflexivity).
  destruct (@findByName_without_tokens Example.platform Example.shop
              (str "bringo.ma") (str "(promo) 123456789") [] _ _ Hno Hr)
    as (t & Ht).
  eexists r, _, t. split; [exact Hr|exact Ht].
Defined.

(** ** More on the HTML extractors *)

Lemma truthy_app (a b : jsstring) : truthy b = true -> truthy (a ++ b) = true.
Proof. destruct a; [auto|reflexivity]. Qed.

Section MoreExtractors.
Context {P : Platform}.

Lemma extractImage_total (c html : jsstring) (url : URL) :
  parseURL c = Some url ->
  exists r, extractImage c html = Ok r /\
            match r with Some u => truthy u = true | None => True end.
Proof.
  intros Hp. unfold extractImage. rewrite Hp.
  destruct (if truthy_opt _ then _ else _) as [u|];
    [|exists None; split; [reflexivity|exact I]].
  destruct (truthy u) eqn:Ht; [|exists None; split; [reflexivity|exact I]].
  destruct (startsWith (str "/") u); eexists; (split; [reflexivity|]).
  - now apply truthy_app.
  - exact Ht.
Qed.

(** X13. Image extraction never throws on a candidate the candidate
    source returned, whatever the page is, and the image URL it returns
    is never empty. *)
Theorem extractImage_on_candidates (net : network) (query : jsstring)
    (l l' : list event) (cands : list jsstring) (c html : jsstring) :
  ddgLinks net query l = (Ok cands, l') ->
  In c cands ->
  exists r, extractImage c html = Ok r /\
            match r with Some u => truthy u = true | None => True end.
Proof.
  rewrite ddgLinks_run.
  destruct (page_of _) as [[ok page]|]; [|discriminate].
  intros H Hc. injection H as <- _.
  apply candidates_on_bringo in Hc as (u & Hu & _).
  now apply extractImage_total with (url := u).
Qed.

(** A character that is not an ASCII letter is matched by itself only,
    also when case is ignored. *)
Lemma canon_caseless (a c : N) :
  (a < 128)%N -> is_ascii_letter a = false ->
  N.eqb (canon a) (canon c) = N.eqb a c.
Proof.
  unfold is_ascii_letter, is_ascii_upper, is_ascii_lower, in_range.
  intros Ha Hl. apply orb_false_iff in Hl as [Hup Hlo].
  assert (Hr : (~ (65 <= a <= 90) /\ ~ (97 <= a <= 122))%N).
  { split; intros [H1 H2]; apply N.leb_le in H1, H2.
    - rewrite H1, H2 in Hup. discriminate.
    - rewrite H1, H2 in Hlo. discriminate. }
  destruct Hr as [Hr1 Hr2].
  unfold canon, ascii_upper, is_ascii_lower, in_range.
  destruct (N.ltb_spec a 128); [|lia].
  destruct (N.leb_spec 97 a), (N.leb_spec a 122); cbn [andb]; try lia;
  (destruct (N.ltb_spec c 128);
   [ destruct (N.leb_spec 97 c), (N.leb_spec c 122); cbn [andb];
     match goal with |- N.eqb ?x ?y = N.eqb ?z ?w =>
       destruct (N.eqb_spec x y), (N.eqb_spec z w) end;
     try reflexivity; lia
   | cbn zeta; destruct (N.ltb_spec (uni_upper c) 128);
     match goal with |- N.eqb ?x ?y = N.eqb ?z ?w =>
       destruct (N.eqb_spec x y), (N.eqb_spec z w) end;
     try reflexivity; lia ]).
Qed.

Lemma first_lit_fails (fl : flags) (c : N) (r : re) :
  first_lit r = Some c ->
  forall s k,
    match rest s with
    | [] => True
    | ch :: _ => chr_eq fl c ch = false
    end ->
    rmatch fl r s k = None.
Proof.
  induction r as [|c'|neg items|r1 IH1 r2 IH2|r1 IH1 r2 IH2|mn mx r1 IH|i r1 IH| | |];
    cbn [first_lit]; intros Hf s k Hs; try discriminate; cbn [rmatch].
  - injection Hf as ->. destruct (rest s) as [|ch t]; [reflexivity|].
    rewrite Hs. reflexivity.
  - apply IH1; assumption.
  - apply IH; assumption.
Qed.

Lemma first_lit_search (fl : flags) (c : N) (r : re) :
  first_lit r = Some c ->
  forall s,
    (forall ch, In ch s -> chr_eq fl c ch = false) ->
    forall p pending, search fl r p s pending = None.
Proof.
  intros Hf. induction s as [|a t IH]; intros Hs p pending.
  - destruct pending; cbn [search]; [|reflexivity].
    unfold match_at. rewrite (first_lit_fails fl r Hf); reflexivity.
  - destruct pending; cbn [search].
    + unfold match_at. rewrite (first_lit_fails fl r Hf).
      * apply IH. intros ch Hch. apply Hs. right. exact Hch.
      * cbn [rest]. apply Hs. left. reflexivity.
    + apply IH. intros ch Hch. apply Hs. right. exact Hch.
Qed.

Lemma no_tag_no_match (r : re) (html : jsstring) :
  first_lit r = Some 60%N ->
  ~ In 60%N html ->
  regex_match fl_i r html = None.
Proof.
  intros Hf Hno. unfold regex_match.
  rewrite (first_lit_search fl_i r Hf); [reflexivity|].
  intros ch Hch. unfold chr_eq. cbn [ignoreCase fl_i].
  rewrite canon_caseless by (reflexivity || lia).
  apply N.eqb_neq. intros <-. contradiction.
Qed.

(** X14. A page body without any [<], the empty body for one, has no
    title and no image: the title is the empty string and image
    extraction returns null, for every candidate. *)
Theorem extract_without_tags (html : jsstring) :
  ~ In 60%N html ->
  extractTitle html = [] /\
  forall candidate, extractImage candidate html = Ok None.
Proof.
  intros Hno. split.
  - unfold extractTitle.
    rewrite (no_tag_no_match og_title_re html eq_refl Hno).
    rewrite (no_tag_no_match title_re html eq_refl Hno). reflexivity.
  - intros candidate. unfold extractImage.
    rewrite (no_tag_no_match og_image_re html eq_refl Hno).
    rewrite (no_tag_no_match img_re html eq_refl Hno). reflexivity.
Qed.

End MoreExtractors.

Lemma extractImage_on_candidates_witness :
  exists r, extractImage Example.p1 Example.page_exact = Ok r /\
            match r with Some u => truthy u = true | None => True end.
Proof.
  apply (@extractImage_on_candidates Example.platform Example.shop
           (search_query (str "bringo.ma") (str "694062")) []
           [(Example.search_url (str "bringo.ma") (str "694062"),
             Example.search_response)]
           [Example.p1; Example.p2]).
  - vm_compute. reflexivity.
  - left. reflexivity.
Defined.

Lemma extract_without_tags_witness :
  extractTitle (str "service unavailable") = [] /\
  forall candidate,
    extractImage candidate (str "service unavailable") = Ok None.
Proof.
  apply (@extract_without_tags Example.platform).
  intros H. repeat (destruct H as [H|H]; [discriminate H|]). exact H.
Defined.

(** ** Spacing of clean names *)

Lemma no_double_cons (a : N) (o : jsstring) :
  no_double_space (a :: o) =
    negb (is_space a && is_space_opt (hd_error o)) && no_double_space o.
Proof.
  destruct o as [|b o]; [|reflexivity].
  cbn [no_double_space hd_error is_space_opt].
  rewrite andb_false_r. reflexivity.
Qed.

Lemma no_double_app_r (a b : jsstring) :
  no_double_space (a ++ b) = true -> no_double_space b = true.
Proof.
  induction a as [|x a IH]; [auto|].
  cbn [app]. rewrite no_double_cons. intros H.
  apply andb_true_iff in H as [_ H]. auto.
Qed.

Lemma no_double_app_l (a b : jsstring) :
  no_double_space (a ++ b) = true -> no_double_space a = true.
Proof.
  induction a as [|x a IH]; [reflexivity|].
  cbn [app]. rewrite !no_double_cons. intros H.
  apply andb_true_iff in H as [H1 H2].
  destruct a as [|y a].
  - cbn [hd_error is_space_opt no_double_space].
    rewrite andb_false_r. reflexivity.
  - cbn [app hd_error] in *. rewrite H1. cbn [andb]. auto.
Qed.

Lemma trimStart_head (s : jsstring) :
  is_space_opt (hd_error (trimStart s)) = false.
Proof.
  induction s as [|c t IH]; [reflexivity|].
  cbn [trimStart]. destruct (is_space c) eqn:Hc; [exact IH|].
  cbn [hd_error is_space_opt]. exact Hc.
Qed.

Lemma trim_ends (s : jsstring) :
  is_space_opt (hd_error (trim s)) = false /\
  is_space_opt (hd_error (rev (trim s))) = false.
Proof.
  unfold trim. split.
  - destruct (trimStart_split (rev (trimStart s))) as (tr & Hr & _).
    pose proof (trimStart_head s) as Hh.
    assert (Hs : trimStart s =
                 rev (trimStart (rev (trimStart s))) ++ rev tr).
    { rewrite <- rev_app_distr, <- Hr. symmetry. apply rev_involutive. }
    destruct (rev (trimStart (rev (trimStart s)))) as [|x u];
      [reflexivity|].
    rewrite Hs in Hh. exact Hh.
  - rewrite rev_involutive. apply trimStart_head.
Qed.

Section Spacing.
Context {P : Platform}.

Lemma spaces_step_nil (p : option N) keep :
  replace_go fl_plain spaces_re blank p [] 0 keep = [].
Proof. apply replace_go_miss_nil. rewrite spaces_match_at. reflexivity. Qed.

Lemma spaces_step_miss (p : option N) (c : N) (t : jsstring) keep :
  is_space c = false ->
  replace_go fl_plain spaces_re blank p (c :: t) 0 keep =
    c :: replace_go fl_plain spaces_re blank (Some c) t 0 true.
Proof.
  intros Hc. rewrite replace_go_miss.
  - destruct t; reflexivity.
  - rewrite spaces_match_at. cbn [count_prefix]. rewrite Hc. reflexivity.
Qed.

Lemma spaces_step_hit (p : option N) (c : N) (t : jsstring) keep :
  is_space c = true ->
  exists p',
    replace_go fl_plain spaces_re blank p (c :: t) 0 keep =
      32%N :: replace_go fl_plain spaces_re blank p'
                (skipn (count_prefix is_space t) t) 0 true.
Proof.
  intros Hc. eexists.
  rewrite (@replace_go_hit P fl_plain spaces_re blank p (c :: t)
             (c :: firstn (count_prefix is_space t) t)
             {| prev := last_or p (firstn (count_prefix is_space (c :: t))
                                     (c :: t));
                rest := skipn (count_prefix is_space t) t;
                caps := [] |}).
  - reflexivity.
  - rewrite spaces_match_at. cbn [count_prefix]. rewrite Hc. reflexivity.
  - cbn [rest app]. f_equal. symmetry. apply firstn_skipn.
  - discriminate.
Qed.

Lemma spaces_tidy :
  forall k s, length s <= k -> forall p,
    let o := replace_go fl_plain spaces_re blank p s 0 true in
    (forall c, In c o -> is_space c = true -> c = 32%N) /\
    no_double_space o = true /\
    (count_prefix is_space s = 0 -> is_space_opt (hd_error o) = false).
Proof.
  induction k as [|k IH]; intros s Hk p.
  - destruct s; [|cbn [length] in Hk; lia].
    cbn zeta. rewrite spaces_step_nil.
    split; [intros c []|]. split; reflexivity.
  - destruct s as [|c t].
    + cbn zeta. rewrite spaces_step_nil.
      split; [intros c []|]. split; reflexivity.
    + cbn [length] in Hk. cbn zeta.
      destruct (is_space c) eqn:Hc.
      * destruct (@spaces_step_hit p c t true Hc) as (p' & ->).
        pose proof (count_prefix_skipn is_space t) as H0.
        assert (Hl : length (skipn (count_prefix is_space t) t) <= k)
          by (rewrite length_skipn; lia).
        destruct (IH _ Hl p') as (Hin & Hnd & Hhd).
        split; [|split].
        -- intros x [<-|Hx]; [reflexivity|]. now apply Hin.
        -- rewrite no_double_cons, Hnd, (Hhd H0), andb_false_r.
           reflexivity.
        -- cbn [count_prefix]. rewrite Hc. discriminate.
      * rewrite (@spaces_step_miss p c t true Hc).
        assert (Hl : length t <= k) by lia.
        destruct (IH _ Hl (Some c)) as (Hin & Hnd & _).
        split; [|split].
        -- intros x [<-|Hx]; [congruence|]. now apply Hin.
        -- rewrite no_double_cons, Hnd, Hc. reflexivity.
        -- intros _. cbn [hd_error is_space_opt]. exact Hc.
Qed.

(** X15. A clean name is normalised in its spacing: its only white space
    is the space character U+0020, never two in a row, and none at the
    start or at the end. *)
Theorem cleanName_spacing (n : jsstring) :
  (forall c, In c (cleanName n) -> is_space c = true -> c = 32%N) /\
  no_double_space (cleanName n) = true /\
  is_space_opt (hd_error (cleanName n)) = false /\
  is_space_opt (hd_error (rev (cleanName n))) = false.
Proof.
  unfold cleanName.
  set (s4 := replaceAll fl_u other_re blank _).
  destruct (@spaces_tidy (length s4) s4 (Nat.le_refl _) None)
    as (Hin & Hnd & _).
  fold (replaceAll fl_plain spaces_re blank s4) in Hin, Hnd.
  split; [|split].
  - intros c Hc. apply Hin. now apply trim_In.
  - destruct (trim_split (replaceAll fl_plain spaces_re blank s4))
      as (lead & trail & Hs & _).
    rewrite Hs in Hnd. apply no_double_app_r in Hnd.
    now apply no_double_app_l in Hnd.
  - apply trim_ends.
Qed.

(** *** Tokens *)

Lemma split_go_spaces :
  forall s p pending cur,
    pending <= length s ->
    forallb is_space (firstn pending s) = true ->
    let pieces := split_go fl_plain spaces_re p s pending cur in
    concat pieces = cur ++ filter (fun c => negb (is_space c)) s /\
    (forallb (fun c => negb (is_space c)) cur = true ->
     forall piece, In piece pieces ->
       forallb (fun c => negb (is_space c)) piece = true).
Proof.
  induction s as [|c t IH]; intros p pending cur Hp Hsp; cbn zeta.
  - cbn [split_go concat filter]. rewrite !app_nil_r.
    split; [reflexivity|]. intros Hcur piece [<-|[]]. exact Hcur.
  - destruct pending as [|n].
    + cbn [split_go]. rewrite spaces_match_at. cbn [count_prefix filter].
      destruct (is_space c) eqn:Hc; cbn [Nat.leb negb].
      * cbn [rest skipn].
        replace (length (c :: t) -
                 length (skipn (count_prefix is_space t) t))
          with (S (count_prefix is_space t))
          by (pose proof (count_prefix_le is_space t);
              rewrite length_skipn; cbn [length]; lia).
        destruct (IH (Some c) (count_prefix is_space t) []
                    (count_prefix_le is_space t)
                    (count_prefix_firstn is_space t)) as (Hcat & Hall).
        split.
        -- cbn [concat]. rewrite Hcat. reflexivity.
        -- intros Hcur piece [<-|Hin]; [exact Hcur|].
           now apply Hall.
      * destruct (IH (Some c) 0 (cur ++ [c]) (Nat.le_0_l _) eq_refl)
          as (Hcat & Hall).
        split.
        -- rewrite Hcat, <- app_assoc. reflexivity.
        -- intros Hcur. apply Hall. rewrite forallb_app, Hcur.
           cbn [forallb]. rewrite Hc. reflexivity.
    + cbn [split_go]. cbn [firstn forallb length] in Hsp, Hp.
      apply andb_true_iff in Hsp as [Hc Hsp].
      cbn [filter]. rewrite Hc. cbn [negb].
      apply IH; [lia|exact Hsp].
Qed.

Lemma concat_filter_truthy (l : list jsstring) :
  concat (filter truthy l) = concat l.
Proof.
  induction l as [|x l IH]; [reflexivity|].
  cbn [filter]. destruct x as [|c x]; cbn [truthy concat app];
    [exact IH|].
  cbn [concat]. rewrite IH. reflexivity.
Qed.

(** X16. The tokens of a name are the lower-cased clean name cut at its
    white space: put end to end they give back that name without its
    white space, and each token is non-empty and free of white space. *)
Theorem tokens_spec (s : jsstring) :
  concat (tokens s) =
    filter (fun c => negb (is_space c)) (toLowerCase (cleanName s)) /\
  forall t, In t (tokens s) ->
    t <> [] /\ forallb (fun c => negb (is_space c)) t = true.
Proof.
  unfold tokens. set (w := toLowerCase (cleanName s)).
  assert (H : concat (split fl_plain spaces_re w) =
              filter (fun c => negb (is_space c)) w /\
              forall piece, In piece (split fl_plain spaces_re w) ->
                forallb (fun c => negb (is_space c)) piece = true).
  { unfold split. destruct w as [|c t].
    - rewrite spaces_match_at. cbn [count_prefix Nat.leb].
      split; [reflexivity|]. intros piece [<-|[]]. reflexivity.
    - destruct (@split_go_spaces (c :: t) None 0 [] (Nat.le_0_l _) eq_refl)
        as (Hcat & Hall).
      split; [exact Hcat|]. now apply Hall. }
  destruct H as (Hcat & Hall). split.
  - rewrite concat_filter_truthy. exact Hcat.
  - intros t Ht. apply filter_In in Ht as [Ht Htr]. split.
    + intros ->. discriminate.
    + now apply Hall.
Qed.

End Spacing.

(** ** The words of a name *)

Lemma words_cons (c : N) (t : jsstring) :
  words (c :: t) =
    if is_word c then
      if is_word_opt (hd_error t)
      then match words t with
           | w :: ws => (c :: w) :: ws
           | [] => [[c]]
           end
      else [c] :: words t
    else words t.
Proof. reflexivity. Qed.

Lemma words_sep (c : N) (t : jsstring) :
  is_word c = false -> words (c :: t) = words t.
Proof. intros H. cbn [words]. rewrite H. reflexivity. Qed.

Lemma words_head_word (t : jsstring) :
  is_word_opt (hd_error t) = true -> exists w ws, words t = w :: ws.
Proof.
  destruct t as [|c t]; [discriminate|]. cbn [hd_error is_word_opt].
  intros Hc. cbn [words]. rewrite Hc.
  destruct (is_word_opt (hd_error t)); [|eauto].
  destruct (words t); eauto.
Qed.

(** A word that is followed by a non-word character, or by the end of
    the string, is the first word of the string. *)
Lemma words_run (w t : jsstring) :
  w <> [] -> forallb is_word w = true ->
  is_word_opt (hd_error t) = false ->
  words (w ++ t) = w :: words t.
Proof.
  induction w as [|c w IH]; intros Hne Hw Ht; [congruence|].
  cbn [forallb] in Hw. apply andb_true_iff in Hw as [Hc Hw].
  cbn [app words]. rewrite Hc.
  destruct w as [|d w].
  - cbn [app]. rewrite Ht. reflexivity.
  - cbn [app hd_error is_word_opt].
    assert (Hd : is_word d = true)
      by (cbn [forallb] in Hw; now apply andb_true_iff in Hw).
    rewrite Hd.
    change (d :: w ++ t) with ((d :: w) ++ t).
    rewrite IH by (auto; discriminate). reflexivity.
Qed.

Lemma words_nonword (s : jsstring) :
  forallb (fun c => negb (is_word c)) s = true -> words s = [].
Proof.
  induction s as [|c t IH]; [reflexivity|].
  cbn [forallb]. intros H. apply andb_true_iff in H as [Hc Ht].
  apply negb_true_iff in Hc. rewrite words_sep by exact Hc. auto.
Qed.

(** White space, or any other non-word text, at the start or at the
    end of a string does not change its words. *)
Lemma words_lead (lead s : jsstring) :
  forallb (fun c => negb (is_word c)) lead = true ->
  words (lead ++ s) = words s.
Proof.
  induction lead as [|c t IH]; [reflexivity|].
  cbn [forallb]. intros H. apply andb_true_iff in H as [Hc Ht].
  apply negb_true_iff in Hc. cbn [app]. rewrite words_sep by exact Hc. auto.
Qed.

Lemma hd_error_app_nonword (t trail : jsstring) :
  forallb (fun c => negb (is_word c)) trail = true ->
  is_word_opt (hd_error (t ++ trail)) = is_word_opt (hd_error t).
Proof.
  intros H. destruct t as [|c t]; [|reflexivity].
  destruct trail as [|d trail]; [reflexivity|].
  cbn [forallb] in H. apply andb_true_iff in H as [Hd _].
  apply negb_true_iff in Hd. exact Hd.
Qed.

Lemma words_trail (s trail : jsstring) :
  forallb (fun c => negb (is_word c)) trail = true ->
  words (s ++ trail) = words s.
Proof.
  intros H. induction s as [|c t IH].
  - now apply words_nonword.
  - cbn [app]. rewrite !words_cons, IH, hd_error_app_nonword by exact H.
    reflexivity.
Qed.

(** The words of a string that ends with a non-word character come
    before the words of what follows it. *)
Lemma words_app (m s : jsstring) :
  m <> [] -> is_word (last m 0%N) = false ->
  words (m ++ s) = words m ++ words s.
Proof.
  induction m as [|c t IH]; intros Hne Hl; [congruence|].
  destruct t as [|d t].
  - cbn [last] in Hl. cbn [app]. rewrite !words_sep by exact Hl.
    reflexivity.
  - assert (IH' : words ((d :: t) ++ s) = words (d :: t) ++ words s)
      by (apply IH; [discriminate|exact Hl]).
    change ((c :: d :: t) ++ s) with (c :: (d :: t) ++ s).
    rewrite (words_cons c ((d :: t) ++ s)), (words_cons c (d :: t)), IH'.
    change (hd_error ((d :: t) ++ s)) with (hd_error (d :: t)).
    destruct (is_word c); [|reflexivity].
    destruct (is_word_opt (hd_error (d :: t))) eqn:Hd; [|reflexivity].
    destruct (words_head_word _ Hd) as (w & ws & ->). reflexivity.
Qed.

Lemma words_after (u t : jsstring) :
  forallb is_word u = true -> is_word_opt (hd_error t) = false ->
  words (u ++ t) = (if truthy u then [u] else []) ++ words t.
Proof.
  intros Hu Ht. destruct u as [|c u]; [reflexivity|].
  cbn [truthy]. apply words_run; [discriminate|exact Hu|exact Ht].
Qed.

(** Replacing pieces that have a non-word character at both ends by a
    space creates no word. *)
Lemma squeezed_words (s o : jsstring) :
  squeezed s o ->
  forall u, forallb is_word u = true ->
    incl (words (u ++ o)) (words (u ++ s)).
Proof.
  induction 1 as [|c s o Hsq IH|m s o Hm Hsq IH]; intros u Hu.
  - apply incl_refl.
  - destruct (is_word c) eqn:Hc.
    + replace (u ++ c :: o) with ((u ++ [c]) ++ o)
        by (rewrite <- app_assoc; reflexivity).
      replace (u ++ c :: s) with ((u ++ [c]) ++ s)
        by (rewrite <- app_assoc; reflexivity).
      apply IH. rewrite forallb_app, Hu. cbn [forallb]. now rewrite Hc.
    + rewrite (@words_after u (c :: o) Hu Hc), (@words_after u (c :: s) Hu Hc).
      rewrite !words_sep by exact Hc.
      apply incl_app; [apply incl_appl, incl_refl|].
      apply incl_appr. apply (IH [] eq_refl).
  - destruct Hm as (Hne & Hh & Hl).
    rewrite (@words_after u (32%N :: o) Hu eq_refl).
    assert (Hms : is_word_opt (hd_error (m ++ s)) = false)
      by (destruct m; [congruence|exact Hh]).
    rewrite (@words_after u (m ++ s) Hu Hms).
    rewrite words_sep by reflexivity.
    rewrite words_app by assumption.
    apply incl_app; [apply incl_appl, incl_refl|].
    apply incl_appr, incl_appr. apply (IH [] eq_refl).
Qed.

(** A string is empty, or starts with a non-word character, or starts
    with a word that is followed by a non-word character or by the end
    of the string. *)
Lemma word_split (s : jsstring) :
  let n := count_prefix is_word s in
  s = firstn n s ++ skipn n s /\
  forallb is_word (firstn n s) = true /\
  is_word_opt (hd_error (skipn n s)) = false.
Proof.
  cbn zeta. split; [symmetry; apply firstn_skipn|]. split.
  - apply count_prefix_firstn.
  - pose proof (count_prefix_zero_hd _ _ (count_prefix_skipn is_word s)) as H.
    destruct (skipn _ s); [reflexivity|exact H].
Qed.

Lemma word_ind (Q : jsstring -> Prop) :
  Q [] ->
  (forall c t, is_word c = false -> Q t -> Q (c :: t)) ->
  (forall w t, w <> [] -> forallb is_word w = true ->
               is_word_opt (hd_error t) = false -> Q t -> Q (w ++ t)) ->
  forall s, Q s.
Proof.
  intros Hnil Hsep Hrun.
  assert (H : forall k s, length s <= k -> Q s).
  { induction k as [|k IH]; intros s Hk.
    - destruct s; [exact Hnil|cbn [length] in Hk; lia].
    - destruct s as [|c t]; [exact Hnil|].
      destruct (is_word c) eqn:Hc.
      + destruct (word_split (c :: t)) as (Hs & Hw & Ht).
        remember (count_prefix is_word (c :: t)) as n eqn:Hn.
        cbn [count_prefix] in Hn. rewrite Hc in Hn.
        rewrite Hs. apply Hrun; auto.
        * subst n. cbn [firstn]. discriminate.
        * apply IH. rewrite length_skipn. subst n.
          cbn [length] in *. lia.
      + apply Hsep; [exact Hc|]. apply IH. cbn [length] in Hk. lia. }
  intros s. apply (H (length s)). apply Nat.le_refl.
Qed.

(** ** Patterns that match whole words

    The two patterns of the form [\b...\b] of [cleanName] match a word
    of a given shape, from its first to its last character, and nothing
    else.  What follows holds for every such pattern. *)

Lemma count_prefix_nonword (t : jsstring) :
  is_word_opt (hd_error t) = false -> count_prefix is_word t = 0.
Proof.
  destruct t as [|c t]; [reflexivity|]. cbn [hd_error is_word_opt].
  intros H. cbn [count_prefix]. rewrite H. reflexivity.
Qed.

Lemma count_prefix_word (w t : jsstring) :
  forallb is_word w = true -> is_word_opt (hd_error t) = false ->
  count_prefix is_word (w ++ t) = length w.
Proof.
  intros Hw Ht. rewrite count_prefix_app by exact Hw.
  rewrite count_prefix_nonword by exact Ht. lia.
Qed.

Lemma last_or_word (p : option N) (w : jsstring) :
  w <> [] -> forallb is_word w = true -> is_word_opt (last_or p w) = true.
Proof.
  intros Hne Hw. destruct w as [|c w]; [congruence|].
  cbn [last_or is_word_opt]. apply forallb_last; [exact Hw|discriminate].
Qed.

Section WholeWords.
Context {P : Platform} (fl : flags) (r : re) (shape : jsstring -> bool).
Hypothesis Hu : unicode fl = false.
Hypothesis shape_nil : shape [] = false.
Hypothesis whole_word :
  forall p s,
    if negb (is_word_opt p) && shape (firstn (count_prefix is_word s) s)
    then exists e, match_at fl r p s = Some e /\
                   rest e = skipn (count_prefix is_word s) s
    else match_at fl r p s = None.

Lemma ww_miss (p : option N) (s : jsstring) :
  negb (is_word_opt p) && shape (firstn (count_prefix is_word s) s) = false ->
  match_at fl r p s = None.
Proof. intros H. pose proof (whole_word p s) as W. now rewrite H in W. Qed.

Lemma ww_nil (p : option N) : replace_go fl r blank p [] 0 true = [].
Proof.
  apply replace_go_miss_nil, ww_miss. cbn [count_prefix firstn].
  rewrite shape_nil. apply andb_false_r.
Qed.

Lemma ww_sep (p : option N) (c : N) (t : jsstring) :
  is_word c = false ->
  replace_go fl r blank p (c :: t) 0 true =
    c :: replace_go fl r blank (Some c) t 0 true.
Proof.
  intros Hc. rewrite replace_go_miss.
  - rewrite (@extra_units_plain fl Hu). reflexivity.
  - apply ww_miss. cbn [count_prefix]. rewrite Hc. cbn [firstn].
    rewrite shape_nil. apply andb_false_r.
Qed.

Lemma ww_inside (w t : jsstring) :
  forallb is_word w = true ->
  forall p, is_word_opt p = true ->
    replace_go fl r blank p (w ++ t) 0 true =
      w ++ replace_go fl r blank (last_or p w) t 0 true.
Proof.
  induction w as [|c w IH]; intros Hw p Hp; [reflexivity|].
  cbn [forallb] in Hw. apply andb_true_iff in Hw as [Hc Hw].
  cbn [app]. rewrite replace_go_miss by (apply ww_miss; now rewrite Hp).
  rewrite (@extra_units_plain fl Hu), IH by assumption.
  rewrite last_or_cons. reflexivity.
Qed.

Lemma ww_run (p : option N) (w t : jsstring) :
  is_word_opt p = false -> w <> [] -> forallb is_word w = true ->
  is_word_opt (hd_error t) = false ->
  replace_go fl r blank p (w ++ t) 0 true =
    (if shape w then [32%N] else w) ++
    replace_go fl r blank (last_or p w) t 0 true.
Proof.
  intros Hp Hne Hw Ht.
  pose proof (whole_word p (w ++ t)) as W.
  rewrite (count_prefix_word _ _ Hw Ht), Hp in W.
  rewrite firstn_app, firstn_all, Nat.sub_diag in W. cbn [firstn] in W.
  rewrite app_nil_r in W.
  rewrite skipn_app, skipn_all, Nat.sub_diag in W. cbn [skipn app] in W.
  cbn [negb andb] in W.
  destruct (shape w).
  - destruct W as (e & He & Hr).
    rewrite (@replace_go_hit _ fl r blank p (w ++ t) w e true He)
      by (rewrite ?Hr; auto).
    rewrite Hr. reflexivity.
  - destruct w as [|c w]; [congruence|].
    cbn [forallb] in Hw. apply andb_true_iff in Hw as [Hc Hw].
    cbn [app]. rewrite replace_go_miss by exact W.
    rewrite (@extra_units_plain fl Hu), ww_inside by assumption.
    rewrite last_or_cons. reflexivity.
Qed.

(** Before a non-word character the character that came before does
    not matter. *)
Lemma ww_prev (p q : option N) (t : jsstring) :
  is_word_opt (hd_error t) = false ->
  replace_go fl r blank p t 0 true = replace_go fl r blank q t 0 true.
Proof.
  destruct t as [|c t]; intros H.
  - now rewrite !ww_nil.
  - now rewrite !ww_sep by exact H.
Qed.

Lemma ww_prev_nonword (p q : option N) (s : jsstring) :
  is_word_opt p = false -> is_word_opt q = false ->
  replace_go fl r blank p s 0 true = replace_go fl r blank q s 0 true.
Proof.
  intros Hp Hq. destruct (word_split s) as (Hs & Hw & Ht).
  destruct (firstn (count_prefix is_word s) s) as [|c w] eqn:E.
  - cbn [app] in Hs. rewrite Hs. now apply ww_prev.
  - assert (Hne : c :: w <> []) by discriminate.
    rewrite Hs.
    rewrite (@ww_run p (c :: w) _ Hp Hne Hw Ht).
    rewrite (@ww_run q (c :: w) _ Hq Hne Hw Ht).
    reflexivity.
Qed.

Lemma ww_head (p : option N) (t : jsstring) :
  is_word_opt (hd_error t) = false ->
  is_word_opt (hd_error (replace_go fl r blank p t 0 true)) = false.
Proof.
  destruct t as [|c t]; intros H.
  - now rewrite ww_nil.
  - rewrite ww_sep by exact H. exact H.
Qed.

(** The replacement removes the words of the shape and keeps all the
    others. *)
Lemma ww_words (s : jsstring) :
  forall p, is_word_opt p = false ->
    words (replace_go fl r blank p s 0 true) =
      filter (fun w => negb (shape w)) (words s).
Proof.
  induction s as [|c t Hc IH|w t Hne Hw Ht IH] using word_ind; intros p Hp.
  - now rewrite ww_nil.
  - rewrite ww_sep, !words_sep by exact Hc. apply IH. exact Hc.
  - rewrite ww_run, (@words_run w t Hne Hw Ht) by assumption.
    rewrite (@ww_prev (last_or p w) None t Ht). cbn [filter].
    destruct (shape w); cbn [negb app].
    + rewrite words_sep by reflexivity. now apply IH.
    + rewrite (@words_run w _ Hne Hw (@ww_head None t Ht)).
      f_equal. now apply IH.
Qed.

(** The replacement works on each side of a non-word character
    separately. *)
Lemma ww_local (c : N) (y : jsstring) :
  is_word c = false ->
  forall (x : jsstring) p,
    replace_go fl r blank p (x ++ c :: y) 0 true =
      replace_go fl r blank p x 0 true ++
      c :: replace_go fl r blank (Some c) y 0 true.
Proof.
  intros Hc x.
  induction x as [|d t Hd IH|w t Hne Hw Ht IH] using word_ind; intros p.
  - cbn [app]. now rewrite ww_sep, ww_nil.
  - cbn [app]. rewrite !ww_sep by exact Hd. now rewrite IH.
  - rewrite <- app_assoc.
    assert (Ht' : is_word_opt (hd_error (t ++ c :: y)) = false)
      by (destruct t; [exact Hc|exact Ht]).
    destruct (is_word_opt p) eqn:Hp.
    + rewrite (@ww_inside w (t ++ c :: y) Hw p Hp), (@ww_inside w t Hw p Hp).
      now rewrite IH, app_assoc.
    + rewrite (@ww_run p w (t ++ c :: y) Hp Hne Hw Ht').
      rewrite (@ww_run p w t Hp Hne Hw Ht).
      now rewrite IH, app_assoc.
Qed.

Lemma search_inside (w t : jsstring) :
  forallb is_word w = true ->
  forall p, is_word_opt p = true ->
    search fl r p (w ++ t) 0 = search fl r (last_or p w) t 0.
Proof.
  induction w as [|c w IH]; intros Hw p Hp; [reflexivity|].
  cbn [forallb] in Hw. apply andb_true_iff in Hw as [Hc Hw].
  cbn [app search]. rewrite ww_miss by now rewrite Hp.
  rewrite (@extra_units_plain fl Hu), IH by assumption.
  rewrite last_or_cons. reflexivity.
Qed.

(** Where the pattern matches, a word of the shape stands. *)
Lemma ww_search (s : jsstring) :
  forall p x,
    search fl r p s 0 = Some x ->
    exists w,
      shape w = true /\
      In w (words (if is_word_opt p
                   then skipn (count_prefix is_word s) s else s)).
Proof.
  induction s as [|c t Hc IH|w t Hne Hw Ht IH] using word_ind; intros p x H.
  - cbn [search] in H. rewrite ww_miss in H; [discriminate|].
    cbn [count_prefix firstn]. rewrite shape_nil. apply andb_false_r.
  - cbn [search] in H. rewrite ww_miss in H.
    2:{ cbn [count_prefix]. rewrite Hc. cbn [firstn].
        rewrite shape_nil. apply andb_false_r. }
    rewrite (@extra_units_plain fl Hu) in H.
    apply IH in H as (w & Hs & Hin). cbn [is_word_opt] in Hin.
    rewrite Hc in Hin. exists w. split; [exact Hs|].
    cbn [count_prefix]. rewrite Hc. cbn [skipn].
    destruct (is_word_opt p); rewrite words_sep by exact Hc; exact Hin.
  - assert (Hnext : forall q x',
              is_word_opt q = true -> search fl r q t 0 = Some x' ->
              exists w', shape w' = true /\ In w' (words t)).
    { intros q x' Hq H'. apply IH in H' as (w' & Hs & Hin).
      rewrite Hq, count_prefix_nonword in Hin by exact Ht.
      exists w'. auto. }
    destruct (is_word_opt p) eqn:Hp.
    + rewrite search_inside in H by assumption.
      apply Hnext in H as (w' & Hs & Hin); [|now apply last_or_word].
      exists w'. split; [exact Hs|].
      rewrite (count_prefix_word _ _ Hw Ht).
      rewrite skipn_app, skipn_all, Nat.sub_diag. exact Hin.
    + rewrite (@words_run w t Hne Hw Ht).
      destruct (shape w) eqn:Hs; [exists w; split; [exact Hs|now left]|].
      destruct w as [|c w]; [congruence|].
      cbn [app search] in H. rewrite ww_miss in H.
      2:{ change (c :: w ++ t) with ((c :: w) ++ t).
          rewrite (count_prefix_word _ _ Hw Ht).
          rewrite firstn_app, firstn_all, Nat.sub_diag. cbn [firstn].
          rewrite app_nil_r, Hs. apply andb_false_r. }
      cbn [forallb] in Hw. apply andb_true_iff in Hw as [Hc Hw'].
      rewrite (@extra_units_plain fl Hu), search_inside in H by assumption.
      apply Hnext in H as (w' & Hs' & Hin).
      * exists w'. split; [exact Hs'|now right].
      * destruct w as [|d w]; [exact Hc|].
        apply (last_or_word (Some c)); [discriminate|exact Hw'].
Qed.

End WholeWords.

(** *** The two patterns of whole words *)

Lemma digits_in_word (s : jsstring) :
  forall k,
    Nat.leb k (count_prefix is_digit s) &&
    negb (is_word_opt (hd_error (skipn (count_prefix is_digit s) s))) =
    forallb is_digit (firstn (count_prefix is_word s) s) &&
    Nat.leb k (count_prefix is_word s).
Proof.
  induction s as [|c t IH]; intros k.
  - cbn. apply andb_comm.
  - cbn [count_prefix]. destruct (is_digit c) eqn:Hd.
    + rewrite (digit_is_word _ Hd). cbn [skipn firstn forallb].
      rewrite Hd. cbn [andb].
      destruct k as [|k]; [apply (IH 0)|apply (IH k)].
    + cbn [skipn hd_error is_word_opt]. destruct (is_word c) eqn:Hw.
      * cbn [negb firstn forallb]. rewrite Hd. apply andb_false_r.
      * cbn [negb firstn forallb]. apply andb_comm.
Qed.

Lemma digits_whole (s : jsstring) :
  is_word_opt (hd_error (skipn (count_prefix is_digit s) s)) = false ->
  count_prefix is_word s = count_prefix is_digit s.
Proof.
  induction s as [|c t IH]; [reflexivity|].
  cbn [count_prefix]. destruct (is_digit c) eqn:Hd.
  - rewrite (digit_is_word _ Hd). cbn [skipn]. intros H. now rewrite IH.
  - cbn [skipn hd_error is_word_opt]. intros ->. reflexivity.
Qed.

Section WordPatterns.
Context {P : Platform}.

Lemma long_whole_word (p : option N) (s : jsstring) :
  if negb (is_word_opt p) &&
     is_long_run (firstn (count_prefix is_word s) s)
  then exists e, match_at fl_plain long_digits_re p s = Some e /\
                 rest e = skipn (count_prefix is_word s) s
  else match_at fl_plain long_digits_re p s = None.
Proof.
  rewrite long_digits_match_at. unfold is_long_run.
  rewrite length_firstn_prefix, <- (digits_in_word s 6).
  unfold run_at. rewrite <- andb_assoc.
  destruct (negb (is_word_opt p)); [|reflexivity]. cbn [andb].
  destruct (Nat.leb 6 (count_prefix is_digit s)); [|reflexivity].
  cbn [andb].
  destruct (is_word_opt (hd_error (skipn (count_prefix is_digit s) s)))
    eqn:Hb; [reflexivity|].
  cbn [negb]. eexists. split; [reflexivity|]. cbn [rest].
  now rewrite digits_whole.
Qed.

(** Under the [i] flag an upper-case ASCII letter matches itself and
    its lower-case form. *)
Lemma canon_upper (a c : N) :
  is_ascii_upper a = true ->
  N.eqb (canon a) (canon c) = N.eqb c a || N.eqb c (a + 32).
Proof.
  unfold is_ascii_upper, in_range. intros Ha.
  apply andb_true_iff in Ha as [H1 H2]. apply N.leb_le in H1, H2.
  unfold canon, ascii_upper, is_ascii_lower, in_range.
  destruct (N.ltb_spec a 128); [|lia].
  destruct (N.leb_spec 97 a); [lia|]. cbn [andb].
  destruct (N.ltb_spec c 128).
  - destruct (N.leb_spec 97 c), (N.leb_spec c 122); cbn [andb];
      destruct (N.eqb_spec c a), (N.eqb_spec c (a + 32)); cbn [orb];
      match goal with |- N.eqb ?x ?y = _ => destruct (N.eqb_spec x y) end;
      try reflexivity; lia.
  - cbn zeta. destruct (N.ltb_spec (uni_upper c) 128);
      destruct (N.eqb_spec c a), (N.eqb_spec c (a + 32)); cbn [orb];
      match goal with |- N.eqb ?x ?y = _ => destruct (N.eqb_spec x y) end;
      try reflexivity; lia.
Qed.

Lemma sku_unfold (p : option N) (s : jsstring) :
  match_at fl_i sku_re p s =
    if xorb (is_word_opt p) (is_word_opt (hd_error s))
    then match s with
         | g :: s1 =>
             if N.eqb (canon 71) (canon g)
             then match s1 with
                  | d :: s2 =>
                      if N.eqb (canon 68) (canon d)
                      then rep_loop (rmatch fl_i (Class false [CDigit])) []
                             at_boundary (S (3 + length s2)) 3 None
                             {| prev := Some d; rest := s2; caps := [] |}
                      else None
                  | [] => None
                  end
             else None
         | [] => None
         end
    else None.
Proof. destruct s as [|g [|d s2]]; reflexivity. Qed.

Lemma letter_G_word (g : N) :
  N.eqb g 71 || N.eqb g 103 = true -> is_word g = true.
Proof.
  intros H. apply orb_true_iff in H as [H|H]; apply N.eqb_eq in H; subst;
    reflexivity.
Qed.

Lemma letter_D_word (d : N) :
  N.eqb d 68 || N.eqb d 100 = true -> is_word d = true.
Proof.
  intros H. apply orb_true_iff in H as [H|H]; apply N.eqb_eq in H; subst;
    reflexivity.
Qed.

Lemma sku_whole_word (p : option N) (s : jsstring) :
  if negb (is_word_opt p) && is_sku (firstn (count_prefix is_word s) s)
  then exists e, match_at fl_i sku_re p s = Some e /\
                 rest e = skipn (count_prefix is_word s) s
  else match_at fl_i sku_re p s = None.
Proof.
  rewrite sku_unfold.
  destruct s as [|g s1].
  { cbn. rewrite andb_false_r. destruct (xorb _ _); reflexivity. }
  rewrite (@canon_upper 71 g eq_refl).
  change (71 + 32)%N with 103%N.
  destruct s1 as [|d s2].
  { assert (Hf : is_sku (firstn (count_prefix is_word [g]) [g]) = false).
    { cbn [count_prefix]. destruct (is_word g); reflexivity. }
    rewrite Hf, andb_false_r.
    destruct (xorb _ _); [|reflexivity]. destruct (_ || _); reflexivity. }
  rewrite (@canon_upper 68 d eq_refl).
  change (68 + 32)%N with 100%N.
  destruct (N.eqb g 71 || N.eqb g 103) eqn:Hg.
  2:{ assert (Hf : is_sku (firstn (count_prefix is_word (g :: d :: s2))
                             (g :: d :: s2)) = false).
      { cbn [count_prefix]. destruct (is_word g); [|reflexivity].
        destruct (is_word d); cbn [firstn is_sku]; [|reflexivity].
        rewrite Hg. reflexivity. }
      rewrite Hf, andb_false_r. destruct (xorb _ _); reflexivity. }
  destruct (N.eqb d 68 || N.eqb d 100) eqn:Hd.
  2:{ assert (Hf : is_sku (firstn (count_prefix is_word (g :: d :: s2))
                             (g :: d :: s2)) = false).
      { cbn [count_prefix]. destruct (is_word g); [|reflexivity].
        destruct (is_word d); cbn [firstn is_sku]; [|reflexivity].
        rewrite Hd, andb_false_r. reflexivity. }
      rewrite Hf, andb_false_r. destruct (xorb _ _); reflexivity. }
  pose proof (letter_G_word _ Hg) as Wg.
  pose proof (letter_D_word _ Hd) as Wd.
  cbn [hd_error is_word_opt count_prefix]. rewrite Wg, Wd.
  cbn [firstn skipn is_sku]. rewrite Hg, Hd. cbn [andb].
  rewrite length_firstn_prefix, <- (digits_in_word s2 3).
  rewrite (@rep_class_greedy _ fl_i eq_refl) by (simpl; lia).
  change (fun c => xorb false (existsb (item_has fl_i c) [CDigit]))
    with (fun c => is_digit c || false).
  rewrite (greedy_ext _ is_digit) by (intros c; apply orb_false_r).
  rewrite greedy_boundary by discriminate.
  destruct (is_word_opt p); cbn [xorb negb andb]; [reflexivity|].
  destruct (Nat.leb 3 (count_prefix is_digit s2)); [|reflexivity].
  cbn [andb].
  destruct (is_word_opt (hd_error (skipn (count_prefix is_digit s2) s2)))
    eqn:Hb; [reflexivity|].
  cbn [negb]. eexists. split; [reflexivity|]. cbn [rest].
  now rewrite digits_whole.
Qed.

End WordPatterns.

(** ** What the text normalizer removes and what it keeps *)

Lemma spaces_nonword (a : jsstring) :
  forallb is_space a = true ->
  forallb (fun c => negb (is_word c)) a = true.
Proof.
  intros H. apply forallb_forall. intros c Hc.
  apply negb_true_iff, space_not_word.
  revert c Hc. now apply forallb_forall.
Qed.

Lemma words_trim (s : jsstring) : words (trim s) = words s.
Proof.
  destruct (trim_split s) as (lead & trail & Hs & Hl & Ht).
  rewrite Hs at 2.
  rewrite words_lead by now apply spaces_nonword.
  rewrite words_trail by now apply spaces_nonword. reflexivity.
Qed.

(** The class [[^)]*] goes through a text without closing parenthesis
    and stops at the parenthesis after it. *)
Lemma greedy_through (cp : N -> bool) (k : mstate -> option mstate)
    (c : N) (y : jsstring) (cs : list (nat * jsstring)) (e : mstate)
    (m : jsstring) :
  forallb cp m = true -> cp c = false ->
  forall p,
    k {| prev := last_or p m; rest := c :: y; caps := cs |} = Some e ->
    greedy cp k 0 p (m ++ c :: y) cs = Some e.
Proof.
  intros Hm Hc. induction m as [|a m IH]; intros p Hk.
  - cbn [app greedy]. rewrite Hc. exact Hk.
  - cbn [forallb] in Hm. apply andb_true_iff in Hm as [Ha Hm].
    cbn [app greedy]. rewrite Ha. cbn [Nat.pred].
    rewrite last_or_cons in Hk.
    rewrite (IH Hm (Some a) Hk). reflexivity.
Qed.

Section Normalizer.
Context {P : Platform}.

(** Without an underscore in the input, a word of the cleaned name is a
    word of the input, and it is neither a SKU-like word nor a word of
    six or more digits. *)
Lemma cleanName_words (n : jsstring) :
  ~ In 95%N n ->
  incl (words (cleanName n))
    (filter (fun w => negb (is_long_run w))
       (filter (fun w => negb (is_sku w)) (words n))).
Proof.
  intros Hn. destruct (cleanName_squeezes n Hn) as (S3 & S4 & S5).
  cbn zeta in S3, S4, S5. unfold cleanName. rewrite words_trim.
  unfold replaceAll at 4 5.
  rewrite <- (@ww_words _ fl_i sku_re is_sku eq_refl eq_refl
                sku_whole_word n None eq_refl).
  rewrite <- (@ww_words _ fl_plain long_digits_re is_long_run eq_refl eq_refl
                long_whole_word _ None eq_refl).
  intros w Hw.
  apply (squeezed_words S5 [] eq_refl) in Hw.
  apply (squeezed_words S4 [] eq_refl) in Hw.
  apply (squeezed_words S3 [] eq_refl) in Hw.
  exact Hw.
Qed.

Lemma cleanName_no_sku (n : jsstring) :
  ~ In 95%N n -> regex_test fl_i sku_re (cleanName n) = false.
Proof.
  intros Hn. unfold regex_test.
  destruct (search fl_i sku_re None (cleanName n) 0) as [x|] eqn:E;
    [|reflexivity].
  apply (@ww_search _ fl_i sku_re is_sku eq_refl eq_refl sku_whole_word)
    in E as (w & Hs & Hin).
  cbn [is_word_opt] in Hin. apply cleanName_words in Hin; [|exact Hn].
  apply filter_In in Hin as [Hin _]. apply filter_In in Hin as [_ Hin].
  rewrite Hs in Hin. discriminate.
Qed.

(** *** Parenthetical substrings *)

Lemma paren_prev (p q : option N) (s : jsstring) :
  replace_go fl_plain paren_re blank p s 0 true =
  replace_go fl_plain paren_re blank q s 0 true.
Proof.
  destruct s as [|c t]; cbn [replace_go]; rewrite !paren_unfold; reflexivity.
Qed.

Lemma paren_nil (p : option N) :
  replace_go fl_plain paren_re blank p [] 0 true = [].
Proof. reflexivity. Qed.

Lemma paren_skip (x s : jsstring) :
  ~ In 40%N x ->
  forall p,
    replace_go fl_plain paren_re blank p (x ++ s) 0 true =
      x ++ replace_go fl_plain paren_re blank (last_or p x) s 0 true.
Proof.
  induction x as [|c x IH]; intros Hx p; [reflexivity|].
  cbn [app]. rewrite replace_go_miss.
  - rewrite (@extra_units_plain fl_plain eq_refl), IH, last_or_cons.
    + reflexivity.
    + intros H. apply Hx. now right.
  - rewrite paren_unfold. destruct (N.eqb_spec 40 c) as [E|E]; [|reflexivity].
    exfalso. apply Hx. left. symmetry. exact E.
Qed.

Lemma star_class_unfold (fl : flags) neg items (s : mstate)
    (k : mstate -> option mstate) :
  rmatch fl (star (Class neg items)) s k =
    rep_loop (rmatch fl (Class neg items)) [] k
      (S (0 + length (rest s))) 0 None s.
Proof. reflexivity. Qed.

Lemma paren_group (m y : jsstring) (p : option N) :
  ~ In 41%N m ->
  replace_go fl_plain paren_re blank p (40%N :: m ++ 41%N :: y) 0 true =
    32%N :: replace_go fl_plain paren_re blank (Some 41%N) y 0 true.
Proof.
  intros Hm.
  assert (Hcp : forallb (fun c => xorb true
                           (existsb (item_has fl_plain c) [CChar 41])) m = true).
  { apply forallb_forall. intros c Hc.
    cbn [existsb item_has]. unfold chr_eq. cbn [ignoreCase fl_plain].
    destruct (N.eqb_spec 41 c) as [E|E]; [|reflexivity].
    subst c. contradiction. }
  assert (E : match_at fl_plain paren_re p (40%N :: m ++ 41%N :: y) =
              Some {| prev := Some 41%N; rest := y; caps := [] |}).
  { rewrite paren_unfold.
    replace (N.eqb 40 40) with true by reflexivity. cbv iota.
    rewrite star_class_unfold. cbn [rest].
    rewrite (@rep_class_greedy _ fl_plain eq_refl) by lia.
    apply greedy_through; [exact Hcp|reflexivity|reflexivity]. }
  rewrite (@replace_go_hit _ fl_plain paren_re blank p _
             (40%N :: m ++ [41%N]) _ true E).
  - rewrite last_or_cons. cbn [rest blank app].
    f_equal. apply paren_prev.
  - cbn [rest app]. rewrite <- app_assoc. reflexivity.
  - discriminate.
Qed.

Lemma replaced_chars (fl : flags) (r : re) (c : N) (p : option N)
    (s : jsstring) :
  c <> 32%N -> ~ In c s -> ~ In c (replace_go fl r blank p s 0 true).
Proof.
  intros Hc Hs H. apply replace_go_chars in H as [H|H]; contradiction.
Qed.

(** A parenthetical substring counts for a space. *)
Lemma cleanName_parenthetical (x m y : jsstring) :
  ~ In 40%N x -> ~ In 41%N m ->
  cleanName (x ++ 40%N :: m ++ 41%N :: y) = cleanName (x ++ 32%N :: y).
Proof.
  intros Hx Hm. unfold cleanName. do 3 f_equal.
  unfold replaceAll.
  pose proof (@ww_local _ fl_i sku_re is_sku eq_refl eq_refl sku_whole_word)
    as L1.
  pose proof (@ww_local _ fl_plain long_digits_re is_long_run eq_refl eq_refl
                long_whole_word) as L2.
  rewrite (L1 40%N _ eq_refl x None), (L1 41%N _ eq_refl m (Some 40%N)).
  rewrite (L1 32%N _ eq_refl x None).
  rewrite (@ww_prev_nonword _ fl_i sku_re is_sku eq_refl eq_refl
             sku_whole_word (Some 32%N) (Some 41%N) y eq_refl eq_refl).
  set (x1 := replace_go fl_i sku_re blank None x 0 true).
  set (m1 := replace_go fl_i sku_re blank (Some 40%N) m 0 true).
  set (y1 := replace_go fl_i sku_re blank (Some 41%N) y 0 true).
  rewrite (L2 40%N _ eq_refl x1 None), (L2 41%N _ eq_refl m1 (Some 40%N)).
  rewrite (L2 32%N _ eq_refl x1 None).
  rewrite (@ww_prev_nonword _ fl_plain long_digits_re is_long_run eq_refl
             eq_refl long_whole_word (Some 32%N) (Some 41%N) y1 eq_refl
             eq_refl).
  set (x2 := replace_go fl_plain long_digits_re blank None x1 0 true).
  set (m2 := replace_go fl_plain long_digits_re blank (Some 40%N) m1 0 true).
  set (y2 := replace_go fl_plain long_digits_re blank (Some 41%N) y1 0 true).
  assert (Hx2 : ~ In 40%N x2)
    by (apply replaced_chars, replaced_chars; auto; discriminate).
  assert (Hm2 : ~ In 41%N m2)
    by (apply replaced_chars, replaced_chars; auto; discriminate).
  rewrite !paren_skip by exact Hx2.
  rewrite paren_group by exact Hm2.
  rewrite (@paren_skip [32%N] y2) by (intros [H|[]]; discriminate).
  cbn [app]. do 2 f_equal. apply paren_prev.
Qed.

End Normalizer.

(** *** The characters of a cleaned name *)

Lemma code_points_cons (c : N) (t : jsstring) :
  is_high_surrogate c && is_low_surrogate (hd 0%N t) = false ->
  code_points (c :: t) = c :: code_points t.
Proof.
  destruct t as [|d t]; [reflexivity|]. cbn [hd]. intros H.
  cbn [code_points]. rewrite H. reflexivity.
Qed.

Lemma code_points_pair (c d : N) (t : jsstring) :
  is_high_surrogate c && is_low_surrogate d = true ->
  code_points (c :: d :: t) = code_point c d :: code_points t.
Proof. intros H. cbn [code_points]. rewrite H. reflexivity. Qed.

Lemma code_points_app (b : jsstring) :
  is_low_surrogate (hd 0%N b) = false ->
  forall k (a : jsstring), length a <= k ->
    code_points (a ++ b) = code_points a ++ code_points b.
Proof.
  intros Hb. induction k as [|k IH]; intros a Hk.
  - destruct a; [reflexivity|cbn [length] in Hk; lia].
  - destruct a as [|c [|d a]]; [reflexivity| |].
    + cbn [app]. rewrite code_points_cons; [reflexivity|].
      rewrite Hb. apply andb_false_r.
    + cbn [length] in Hk.
      destruct (is_high_surrogate c && is_low_surrogate d) eqn:Hp.
      * change ((c :: d :: a) ++ b) with (c :: d :: a ++ b).
        rewrite !code_points_pair by exact Hp.
        rewrite IH by lia. reflexivity.
      * change ((c :: d :: a) ++ b) with (c :: (d :: a) ++ b).
        rewrite (code_points_cons c ((d :: a) ++ b)) by exact Hp.
        rewrite (code_points_cons c (d :: a)) by exact Hp.
        rewrite IH by (cbn [length]; lia). reflexivity.
Qed.

Lemma space_not_surrogate (c : N) :
  is_space c = true ->
  is_high_surrogate c = false /\ is_low_surrogate c = false.
Proof.
  intros H.
  assert (Hlt : (c < 55296 \/ 57343 < c)%N).
  { revert H. unfold is_space, in_range.
    destruct (N.ltb_spec c 55296); [auto|].
    destruct (N.ltb_spec 57343 c); [auto|].
    split_ranges; cbn; discriminate. }
  unfold is_high_surrogate, is_low_surrogate, in_range.
  split; split_ranges; reflexivity.
Qed.

Lemma astral_not_space (c d : N) : is_space (code_point c d) = false.
Proof.
  unfold code_point, is_space, in_range.
  split_ranges; reflexivity.
Qed.

Lemma code_points_spaces (a b : jsstring) :
  forallb is_space a = true ->
  code_points (a ++ b) = a ++ code_points b.
Proof.
  induction a as [|c a IH]; [reflexivity|].
  cbn [forallb]. intros H. apply andb_true_iff in H as [Hc Ha].
  cbn [app]. rewrite code_points_cons.
  - rewrite (IH Ha). reflexivity.
  - now rewrite (proj1 (space_not_surrogate _ Hc)).
Qed.

Lemma code_points_trim (Q : N -> Prop) (s : jsstring) :
  Forall Q (code_points s) -> Forall Q (code_points (trim s)).
Proof.
  destruct (trim_split s) as (lead & trail & Hs & Hl & Ht).
  rewrite Hs at 1. rewrite code_points_spaces by exact Hl.
  rewrite (@code_points_app trail) with (k := length (trim s));
    [|destruct trail as [|c trail]; [reflexivity|];
      cbn [forallb] in Ht; apply andb_true_iff in Ht as [Hc _];
      apply (space_not_surrogate _ Hc)
     |apply Nat.le_refl].
  intros H. apply Forall_app in H as [_ H]. now apply Forall_app in H as [H _].
Qed.

Section Characters.
Context {P : Platform}.

Lemma other_first (p : option N) (s : jsstring) :
  hd 0%N (replace_go fl_u other_re blank p s 0 true) = 32%N \/
  hd 0%N (replace_go fl_u other_re blank p s 0 true) = hd 0%N s.
Proof.
  destruct s as [|c t].
  - right. reflexivity.
  - cbn [replace_go]. destruct (match_at fl_u other_re p (c :: t)).
    + left. reflexivity.
    + right. reflexivity.
Qed.

(** After the replacement of the other characters, every character is a
    letter, a number or white space. *)
Lemma other_points :
  forall k s, length s <= k -> forall p,
    Forall (fun cp => is_L cp || (is_N cp || (is_space cp || false)) = true)
      (code_points (replace_go fl_u other_re blank p s 0 true)).
Proof.
  induction k as [|k IH]; intros s Hk p.
  - destruct s; [constructor|cbn [length] in Hk; lia].
  - destruct s as [|c t]; [constructor|]. cbn [length] in Hk.
    pose proof (other_unfold p (c :: t)) as U.
    destruct t as [|d t'].
    + destruct (negb _) eqn:E.
      * rewrite (@replace_go_hit _ fl_u other_re blank p [c] [c] _ true U)
          by (reflexivity || discriminate).
        cbn [rest blank app replace_go]. repeat constructor.
      * rewrite replace_go_miss by exact U.
        apply negb_false_iff in E. repeat constructor. exact E.
    + cbn [length] in Hk.
      destruct (is_high_surrogate c && is_low_surrogate d) eqn:Hp.
      * destruct (negb _) eqn:E.
        -- rewrite (@replace_go_hit _ fl_u other_re blank p (c :: d :: t')
                      [c; d] _ true U) by (reflexivity || discriminate).
           cbn [rest blank app]. rewrite code_points_cons by reflexivity.
           constructor; [reflexivity|]. apply IH. lia.
        -- rewrite replace_go_miss by exact U.
           unfold extra_units. cbn [unicode fl_u andb]. rewrite Hp.
           cbn [replace_go app]. rewrite code_points_pair by exact Hp.
           apply negb_false_iff in E.
           constructor; [exact E|]. apply IH. lia.
      * destruct (negb _) eqn:E.
        -- rewrite (@replace_go_hit _ fl_u other_re blank p (c :: d :: t')
                      [c] _ true U) by (reflexivity || discriminate).
           cbn [rest blank app]. rewrite code_points_cons by reflexivity.
           constructor; [reflexivity|]. apply IH. cbn [length]. lia.
        -- rewrite replace_go_miss by exact U.
           unfold extra_units. cbn [unicode fl_u andb]. rewrite Hp.
           rewrite code_points_cons.
           ++ apply negb_false_iff in E.
              constructor; [exact E|]. apply IH. cbn [length]. lia.
           ++ destruct (other_first (Some c) (d :: t')) as [-> | ->];
                [apply andb_false_r|exact Hp].
Qed.

Lemma spaces_first (p : option N) (s : jsstring) :
  hd 0%N (replace_go fl_plain spaces_re blank p s 0 true) = 32%N \/
  hd 0%N (replace_go fl_plain spaces_re blank p s 0 true) = hd 0%N s.
Proof.
  destruct s as [|c t].
  - right. reflexivity.
  - cbn [replace_go]. destruct (match_at fl_plain spaces_re p (c :: t)).
    + left. reflexivity.
    + right. reflexivity.
Qed.

(** After the white space is collapsed, every character is a letter, a
    number or the space. *)
Lemma spaces_points :
  forall k s, length s <= k ->
    Forall (fun cp => is_L cp || (is_N cp || (is_space cp || false)) = true)
      (code_points s) ->
    forall p,
      Forall (fun cp => is_L cp || is_N cp = true \/ cp = 32%N)
        (code_points (replace_go fl_plain spaces_re blank p s 0 true)).
Proof.
  assert (Hclean : forall cp,
            is_L cp || (is_N cp || (is_space cp || false)) = true ->
            is_space cp = false -> is_L cp || is_N cp = true \/ cp = 32%N).
  { intros cp H Hs. left. rewrite Hs in H.
    cbn [orb] in H. rewrite orb_false_r in H. exact H. }
  induction k as [|k IH]; intros s Hk Hs p.
  - destruct s; [|cbn [length] in Hk; lia].
    rewrite spaces_step_nil. constructor.
  - destruct s as [|c t]; [rewrite spaces_step_nil; constructor|].
    cbn [length] in Hk. destruct (is_space c) eqn:Hc.
    + destruct (@spaces_step_hit _ p c t true Hc) as (p' & ->).
      rewrite code_points_cons by reflexivity.
      constructor; [now right|]. apply IH.
      * rewrite length_skipn. lia.
      * rewrite code_points_cons in Hs
          by now rewrite (proj1 (space_not_surrogate _ Hc)).
        apply Forall_inv_tail in Hs.
        rewrite <- (firstn_skipn (count_prefix is_space t) t) in Hs.
        rewrite code_points_spaces in Hs by apply count_prefix_firstn.
        now apply Forall_app in Hs as [_ Hs].
    + rewrite (@spaces_step_miss _ p c t true Hc).
      destruct t as [|d t'].
      * rewrite spaces_step_nil. inversion Hs as [|? ? H1 _]; subst.
        constructor; [now apply Hclean|constructor].
      * destruct (is_high_surrogate c && is_low_surrogate d) eqn:Hp.
        -- rewrite code_points_pair in Hs by exact Hp.
           inversion Hs as [|? ? H1 H2]; subst.
           assert (Hd : is_space d = false).
           { destruct (is_space d) eqn:Hd; [|reflexivity].
             apply andb_true_iff in Hp as [_ Hl].
             rewrite (proj2 (space_not_surrogate _ Hd)) in Hl.
             discriminate. }
           rewrite (@spaces_step_miss _ (Some c) d t' true Hd).
           rewrite code_points_pair by exact Hp.
           constructor.
           ++ apply Hclean; [exact H1|apply astral_not_space].
           ++ apply IH; [cbn [length] in Hk; lia|exact H2].
        -- rewrite code_points_cons in Hs by exact Hp.
           inversion Hs as [|? ? H1 H2]; subst.
           rewrite code_points_cons.
           ++ constructor; [now apply Hclean|].
              apply IH; [lia|exact H2].
           ++ destruct (spaces_first (Some c) (d :: t')) as [-> | ->];
                [apply andb_false_r|exact Hp].
Qed.

(** Every character of a cleaned name is a letter, a number or the
    space. *)
Lemma cleanName_points (n : jsstring) :
  Forall (fun cp => is_L cp || is_N cp = true \/ cp = 32%N)
    (code_points (cleanName n)).
Proof.
  unfold cleanName. apply code_points_trim. unfold replaceAll at 1.
  apply spaces_points with (k := length (replaceAll fl_u other_re blank
    (replaceAll fl_plain paren_re blank
       (replaceAll fl_plain long_digits_re blank
          (replaceAll fl_i sku_re blank n))))); [apply Nat.le_refl|].
  unfold replaceAll at 1.
  apply other_points with (k := length (replaceAll fl_plain paren_re blank
       (replaceAll fl_plain long_digits_re blank
          (replaceAll fl_i sku_re blank n)))). apply Nat.le_refl.
Qed.

End Characters.

(** *** Plain names *)

Lemma plain_word (c : N) :
  plain c = true -> is_space c = false -> is_word c = true.
Proof.
  unfold plain, is_word. intros H Hs. rewrite Hs, orb_false_r in H.
  rewrite H. reflexivity.
Qed.

Lemma plain_not_high (c : N) : plain c = true -> is_high_surrogate c = false.
Proof.
  intros H. destruct (is_space c) eqn:Hs.
  - apply (space_not_surrogate _ Hs).
  - apply plain_word in H; [|exact Hs].
    destruct (is_high_surrogate c) eqn:Hh; [|reflexivity].
    rewrite surrogate_not_word in H by (rewrite Hh; reflexivity).
    discriminate.
Qed.

Lemma hd_error_app_first {A} (a b : list A) :
  a <> [] -> hd_error (a ++ b) = hd_error a.
Proof. destruct a; [congruence|reflexivity]. Qed.

Lemma filter_both {A} (f g : A -> bool) (l : list A) :
  filter g (filter f l) = filter (fun x => f x && g x) l.
Proof.
  induction l as [|x l IH]; [reflexivity|].
  cbn [filter]. destruct (f x); cbn [andb filter]; rewrite IH; reflexivity.
Qed.

(** A string with normalised spacing is its words joined by spaces. *)
Lemma tidy_join :
  forall k (o : jsstring), length o <= k ->
    forallb plain o = true ->
    (forall c, In c o -> is_space c = true -> c = 32%N) ->
    no_double_space o = true ->
    is_space_opt (hd_error o) = false ->
    is_space_opt (hd_error (rev o)) = false ->
    o = join (words o).
Proof.
  induction k as [|k IH]; intros o Hk Hp H32 Hnd Hhd Hlast.
  - destruct o; [reflexivity|cbn [length] in Hk; lia].
  - destruct o as [|a o']; [reflexivity|].
    assert (Ha : is_word a = true).
    { apply plain_word; [|exact Hhd].
      cbn [forallb] in Hp. now apply andb_true_iff in Hp. }
    destruct (word_split (a :: o')) as (Hs & Hw & Ht).
    remember (firstn (count_prefix is_word (a :: o')) (a :: o')) as w eqn:Ew.
    remember (skipn (count_prefix is_word (a :: o')) (a :: o')) as t eqn:Et.
    assert (Hne : w <> []).
    { subst w. cbn [count_prefix]. rewrite Ha. discriminate. }
    clear Ew Et. rewrite Hs in *. clear Hs.
    rewrite (@words_run w t Hne Hw Ht).
    destruct t as [|c t'].
    + rewrite app_nil_r. reflexivity.
    + cbn [hd_error is_word_opt] in Ht.
      rewrite forallb_app in Hp. apply andb_true_iff in Hp as [_ Hp].
      cbn [forallb] in Hp. apply andb_true_iff in Hp as [Hc Hp].
      assert (Hcs : is_space c = true).
      { destruct (is_space c) eqn:E; [reflexivity|].
        rewrite (plain_word _ Hc E) in Ht. discriminate. }
      assert (E32 : c = 32%N).
      { apply H32; [|exact Hcs]. apply in_or_app. right. now left. }
      subst c. apply no_double_app_r in Hnd.
      destruct t' as [|d t''].
      * exfalso. rewrite rev_app_distr in Hlast. discriminate.
      * rewrite no_double_cons in Hnd.
        apply andb_true_iff in Hnd as [Hd Hnd].
        cbn [hd_error is_space_opt] in Hd.
        rewrite Hcs in Hd. cbn [andb] in Hd. apply negb_true_iff in Hd.
        assert (Hdw : is_word d = true).
        { apply plain_word; [|exact Hd].
          cbn [forallb] in Hp. now apply andb_true_iff in Hp. }
        assert (IHt : d :: t'' = join (words (d :: t''))).
        { apply IH.
          - rewrite length_app in Hk. cbn [length] in Hk |- *.
            destruct w; [congruence|]. cbn [length] in Hk. lia.
          - exact Hp.
          - intros x Hx. apply H32. apply in_or_app. right. now right.
          - exact Hnd.
          - exact Hd.
          - rewrite rev_app_distr in Hlast.
            change (32%N :: d :: t'') with ([32%N] ++ d :: t'') in Hlast.
            rewrite rev_app_distr, <- app_assoc in Hlast.
            rewrite hd_error_app_first in Hlast; [exact Hlast|].
            cbn [rev]. destruct (rev t''); discriminate. }
        rewrite words_sep by reflexivity.
        destruct (@words_head_word (d :: t'') Hdw) as (w' & ws & E).
        rewrite E in *.
        change (join (w :: w' :: ws)) with (w ++ 32%N :: join (w' :: ws)).
        rewrite <- IHt. reflexivity.
Qed.

Section PlainNames.
Context {P : Platform}.

Lemma plain_kept (c : N) :
  plain c = true -> is_L c || (is_N c || (is_space c || false)) = true.
Proof.
  intros H. destruct (is_space c) eqn:Hs.
  - rewrite !orb_true_r. reflexivity.
  - pose proof (plain_word _ H Hs) as Hw.
    pose proof (is_word_ascii _ Hw) as Hlt. apply N.ltb_lt in Hlt.
    unfold is_L, is_N. rewrite Hlt.
    unfold plain in H. rewrite Hs, orb_false_r in H.
    rewrite !orb_false_r. exact H.
Qed.

Lemma replace_plain (fl : flags) (r : re) (p : option N) (s : jsstring) :
  forallb plain s = true ->
  forallb plain (replace_go fl r blank p s 0 true) = true.
Proof.
  intros H. apply forallb_forall. intros c Hc.
  apply replace_go_chars in Hc as [->|Hc]; [reflexivity|].
  revert c Hc. now apply forallb_forall.
Qed.

(** A plain name has no parenthesis and no other character to remove. *)
Lemma paren_plain (p : option N) (s : jsstring) :
  forallb plain s = true ->
  replace_go fl_plain paren_re blank p s 0 true = s.
Proof.
  intros H. rewrite <- (app_nil_r s) at 1.
  rewrite paren_skip, paren_nil, app_nil_r; [reflexivity|].
  intros Hin. assert (plain 40 = true) by (revert Hin; now apply forallb_forall).
  discriminate.
Qed.

Lemma other_plain (s : jsstring) :
  forallb plain s = true ->
  forall p, replace_go fl_u other_re blank p s 0 true = s.
Proof.
  induction s as [|c t IH]; intros H p; [reflexivity|].
  cbn [forallb] in H. apply andb_true_iff in H as [Hc Ht].
  pose proof (plain_not_high _ Hc) as Hh.
  rewrite replace_go_miss.
  - unfold extra_units. cbn [unicode fl_u andb]. rewrite Hh.
    destruct t; cbn [andb]; rewrite IH by assumption; reflexivity.
  - rewrite other_unfold, Hh, (plain_kept _ Hc). cbn [andb negb].
    destruct t; reflexivity.
Qed.

Lemma spaces_head_word (p : option N) (t : jsstring) :
  is_word_opt (hd_error (replace_go fl_plain spaces_re blank p t 0 true)) =
  is_word_opt (hd_error t).
Proof.
  destruct t as [|d t]; [now rewrite spaces_step_nil|].
  destruct (is_space d) eqn:Hd.
  - destruct (@spaces_step_hit _ p d t true Hd) as (p' & ->).
    cbn [hd_error is_word_opt]. symmetry. now apply space_not_word.
  - rewrite (@spaces_step_miss _ p d t true Hd). reflexivity.
Qed.

(** Collapsing the white space does not change the words. *)
Lemma spaces_words :
  forall k s, length s <= k -> forall p,
    words (replace_go fl_plain spaces_re blank p s 0 true) = words s.
Proof.
  induction k as [|k IH]; intros s Hk p.
  - destruct s; [|cbn [length] in Hk; lia]. now rewrite spaces_step_nil.
  - destruct s as [|c t]; [now rewrite spaces_step_nil|].
    cbn [length] in Hk. destruct (is_space c) eqn:Hc.
    + destruct (@spaces_step_hit _ p c t true Hc) as (p' & ->).
      rewrite !words_sep by (reflexivity || now apply space_not_word).
      rewrite IH by (rewrite length_skipn; lia).
      transitivity (words (firstn (count_prefix is_space t) t ++
                           skipn (count_prefix is_space t) t));
        [|now rewrite firstn_skipn].
      rewrite words_lead; [reflexivity|].
      apply spaces_nonword, count_prefix_firstn.
    + rewrite (@spaces_step_miss _ p c t true Hc).
      rewrite !words_cons, spaces_head_word, IH by lia. reflexivity.
Qed.

(** Collapsing the white space and trimming normalises the spacing. *)
Lemma spacing_tidy (s : jsstring) :
  let o := trim (replaceAll fl_plain spaces_re blank s) in
  (forall c, In c o -> is_space c = true -> c = 32%N) /\
  no_double_space o = true /\
  is_space_opt (hd_error o) = false /\
  is_space_opt (hd_error (rev o)) = false.
Proof.
  cbn zeta.
  destruct (@spaces_tidy _ (length s) s (Nat.le_refl _) None)
    as (Hin & Hnd & _).
  fold (replaceAll fl_plain spaces_re blank s) in Hin, Hnd.
  split; [|split].
  - intros c Hc. apply Hin. now apply trim_In.
  - destruct (trim_split (replaceAll fl_plain spaces_re blank s))
      as (lead & trail & Hs & _).
    rewrite Hs in Hnd. apply no_double_app_r in Hnd.
    now apply no_double_app_l in Hnd.
  - apply trim_ends.
Qed.

(** The cleaned form of a plain name: its words, without the SKU-like
    words and the words of six or more digits, joined by spaces. *)
Lemma cleanName_plain (n : jsstring) :
  forallb plain n = true ->
  cleanName n =
    join (filter (fun w => negb (is_sku w) && negb (is_long_run w))
            (words n)).
Proof.
  intros Hn. unfold cleanName.
  set (s1 := replaceAll fl_i sku_re blank n).
  set (s2 := replaceAll fl_plain long_digits_re blank s1).
  assert (H1 : forallb plain s1 = true) by now apply replace_plain.
  assert (H2 : forallb plain s2 = true) by now apply replace_plain.
  unfold replaceAll at 2 3.
  rewrite paren_plain, other_plain by assumption.
  set (o := trim (replaceAll fl_plain spaces_re blank s2)).
  assert (Hw : words o = filter (fun w => negb (is_sku w) &&
                                          negb (is_long_run w)) (words n)).
  { unfold o. rewrite words_trim. unfold replaceAll at 1.
    rewrite (@spaces_words (length s2)) by apply Nat.le_refl.
    unfold s2, s1, replaceAll.
    rewrite (@ww_words _ fl_plain long_digits_re is_long_run eq_refl eq_refl
               long_whole_word _ None eq_refl).
    rewrite (@ww_words _ fl_i sku_re is_sku eq_refl eq_refl
               sku_whole_word n None eq_refl).
    apply filter_both. }
  rewrite <- Hw.
  destruct (spacing_tidy s2) as (T1 & T2 & T3 & T4). fold o in T1, T2, T3, T4.
  apply (@tidy_join (length o)); auto.
  apply forallb_forall. intros c Hc. unfold o in Hc. apply trim_In in Hc.
  revert c Hc. apply forallb_forall. now apply replace_plain.
Qed.

End PlainNames.

(** ** The text normalizer, as a whole *)

(** C9, amended.  (1) When the input holds no underscore, the cleaned
    name holds no standalone run of six or more digits and no standalone
    SKU-like token: neither the pattern of the long digit runs nor the
    pattern of the SKU-like tokens matches it any more, and each of its
    words is a word of the input that is neither a SKU-like word (G and
    D in either case, then three or more digits) nor a word of six or
    more digits.  (2) A parenthetical substring counts for a space: the
    text from the first opening parenthesis to the next closing one is
    removed with them, and likewise in what follows.  (3) The cleaned
    name holds no parenthesis, and each of its characters, surrogate
    pairs read as one character, is a letter, a number or the space.
    (4) What is kept: the cleaned form of a name made of ASCII letters,
    digits and white space is the list of its words, without the
    SKU-like words and the words made of six or more digits only, joined
    by single spaces; so a word that holds six or more digits next to
    other characters stays, unless it is a SKU-like word. *)
Theorem cleanName_standalone_runs {P : Platform} :
  (forall n, ~ In 95%N n ->
     has_run None (cleanName n) = false /\
     regex_test fl_plain long_digits_re (cleanName n) = false /\
     regex_test fl_i sku_re (cleanName n) = false /\
     forall w, In w (words (cleanName n)) ->
       In w (words n) /\ is_sku w = false /\ is_long_run w = false) /\
  (forall x m y, ~ In 40%N x -> ~ In 41%N m ->
     cleanName (x ++ 40%N :: m ++ 41%N :: y) = cleanName (x ++ 32%N :: y)) /\
  (forall n, ~ In 40%N (cleanName n) /\ ~ In 41%N (cleanName n)) /\
  (forall n,
     Forall (fun cp => is_L cp || is_N cp = true \/ cp = 32%N)
       (code_points (cleanName n))) /\
  (forall n, forallb plain n = true ->
     cleanName n =
       join (filter (fun w => negb (is_sku w) && negb (is_long_run w))
               (words n))).
Proof.
  split; [|split; [|split; [|split]]].
  - intros n Hn. split; [|split; [|split]].
    + now apply cleanName_no_run.
    + rewrite long_digits_test. now apply cleanName_no_run.
    + now apply cleanName_no_sku.
    + intros w Hw. apply cleanName_words in Hw; [|exact Hn].
      apply filter_In in Hw as [Hw Hl]. apply filter_In in Hw as [Hw Hs].
      apply negb_true_iff in Hl, Hs. auto.
  - apply cleanName_parenthetical.
  - intros n. pose proof (cleanName_ascii_clean n) as H.
    rewrite Forall_forall in H.
    split; intros Hin; apply H in Hin;
      destruct (Hin eq_refl) as [E|[E|E]]; discriminate.
  - apply cleanName_points.
  - apply cleanName_plain.
Qed.

Lemma cleanName_standalone_runs_witness :
  cleanName (str "Salon  GD12345 Bas 3616479540274 x1234567 ") =
    str "Salon Bas x1234567".
Proof.
  rewrite (proj2 (proj2 (proj2 (proj2 cleanName_standalone_runs)))
             (str "Salon  GD12345 Bas 3616479540274 x1234567 ") eq_refl).
  vm_compute. reflexivity.
Defined.
